(** * crombird/reddit: the mention extractor, the resolver wrapper and the
      reply lifecycle, embedded from the Python sources.

    Layout:
    - [Py]      Python strings as sequences of code points, and the part of
                the interpreter's character tables the [re] module consults;
    - [Re]      a backtracking matcher for the fragment of [re] syntax used
                by [parse.py], with [finditer], [sub], [search], [fullmatch];
    - [Parse]   [crombird_reddit/parse.py];
    - [Crom]    [crombird_reddit/utils/crom_client.py];
    - [Search]  [crombird_reddit/search.py];
    - [Bot]     [crombird_reddit/bot.py].
*)

From Stdlib Require Import NArith ZArith String Ascii Lia List Bool.
From Stdlib Require Import DecimalString DecimalZ DecimalPos Sorted.
From stdpp Require Import base option list gmap.
Import ListNotations.

Set Default Proof Using "Type".

(* ===================================================================== *)
(** ** Python strings and character tables *)
(* ===================================================================== *)

Module Py.

(** A Python [str] is a sequence of Unicode code points. *)
Definition pystr : Type := list N.

Fixpoint py (s : string) : pystr :=
  match s with
  | EmptyString => []
  | String a s' => N_of_ascii a :: py s'
  end.

(** The interpreter's Unicode database.  The program never names these
    tables; [re] consults them for code points outside ASCII.  The ASCII
    rows are written out below, so the tables matter only from U+0080 up. *)
Record Unicode : Type := {
  uni_isalpha   : N -> bool;
  uni_isdecimal : N -> bool;
  uni_isdigit   : N -> bool;
  uni_isnumeric : N -> bool;
  uni_isspace   : N -> bool;
  uni_tolower   : N -> N
}.

(** A database in which nothing beyond ASCII is a letter, a digit or a
    space; it agrees with every Python on ASCII text. *)
Definition ascii_only : Unicode := {|
  uni_isalpha := fun _ => false;
  uni_isdecimal := fun _ => false;
  uni_isdigit := fun _ => false;
  uni_isnumeric := fun _ => false;
  uni_isspace := fun _ => false;
  uni_tolower := fun c => c
|}.

Definition between (lo hi c : N) : bool := (lo <=? c)%N && (c <=? hi)%N.

Definition is_ascii (c : N) : bool := (c <? 128)%N.
Definition ascii_upper (c : N) : bool := between 65 90 c.
Definition ascii_lower (c : N) : bool := between 97 122 c.
Definition ascii_letter (c : N) : bool := ascii_upper c || ascii_lower c.
Definition ascii_decimal (c : N) : bool := between 48 57 c.

Section Tables.
Variable u : Unicode.

(** [\d]: Py_UNICODE_ISDECIMAL. *)
Definition sre_digit (c : N) : bool :=
  if is_ascii c then ascii_decimal c else uni_isdecimal u c.

(** Py_UNICODE_ISALNUM: alpha, decimal, digit or numeric. *)
Definition sre_alnum (c : N) : bool :=
  if is_ascii c then ascii_letter c || ascii_decimal c
  else uni_isalpha u c || uni_isdecimal u c || uni_isdigit u c
       || uni_isnumeric u c.

(** [\w]: alphanumeric or underscore. *)
Definition sre_word (c : N) : bool := sre_alnum c || (c =? 95)%N.

(** [\s]: Py_UNICODE_ISSPACE; in ASCII, TAB..CR, FS..US and the space. *)
Definition sre_space (c : N) : bool :=
  if is_ascii c then between 9 13 c || between 28 32 c
  else uni_isspace u c.

(** The single-character lower-casing [re] uses under IGNORECASE. *)
Definition sre_lower (c : N) : N :=
  if is_ascii c then (if ascii_upper c then c + 32 else c)%N
  else uni_tolower u c.
End Tables.

(** Extra equivalents [re] adds, under IGNORECASE, to a lower-case letter
    of a pattern: dotless i for [i], long s for [s].  The other rows of
    that table belong to letters outside ASCII, which no pattern of this
    program contains. *)
Definition ignorecase_fixes (lo : N) : list N :=
  if (lo =? 105)%N then [305%N]
  else if (lo =? 115)%N then [383%N]
  else [].

End Py.
Export Py.

(* ===================================================================== *)
(** ** The [re] fragment *)
(* ===================================================================== *)

Module Re.

(** Members of a bracket expression; [\d], [\w], [\s] outside brackets are
    one-member sets. *)
Inductive citem : Type :=
| ILit (c : N)
| IRange (lo hi : N)
| IDigit
| IWord
| ISpace.

Inductive regex : Type :=
| Empty
| Lit (c : N)
| AnyChar                                   (* [.] under DOTALL *)
| CSet (negated : bool) (items : list citem)
| Seq (a b : regex)
| Alt (a b : regex)
| Rep (greedy : bool) (lo : nat) (hi : option nat) (a : regex)
| Group (a : regex)                         (* capturing group 1 *)
| NotAhead (a : regex)                      (* [(?!...)] *)
| Bol                                       (* [^] *)
| Eol.                                      (* [$] *)

(** A compiled pattern: the IGNORECASE flag and the expression. *)
Record pattern : Type := { p_icase : bool; p_re : regex }.

(** Matcher state: whether the cursor is at offset 0 of the subject, the
    text from the cursor on, and what group 1 last captured. *)
Record mstate : Type := {
  at_start : bool;
  rest : pystr;
  grp : option pystr
}.

Definition advance (st : mstate) (t : pystr) : mstate :=
  {| at_start := false; rest := t; grp := grp st |}.

Definition consumed (before after : pystr) : pystr :=
  take (length before - length after) before.

Definition close_group (entry exit : mstate) : mstate :=
  {| at_start := at_start exit; rest := rest exit;
     grp := Some (consumed (rest entry) (rest exit)) |}.

Section Matcher.
Variable u : Unicode.
Variable icase : bool.

(** A literal: under IGNORECASE a cased literal matches whatever lowers
    to its lower-case form or to one of that form's equivalents. *)
Definition lit_match (p c : N) : bool :=
  if icase && ascii_letter p then
    let lo := sre_lower u p in
    let x := sre_lower u c in
    (x =? lo)%N || existsb (N.eqb x) (ignorecase_fixes lo)
  else (c =? p)%N.

(** Bracket expressions.  Under IGNORECASE a set with a cased member is
    compiled with every member lowered (a range element by element, and
    the equivalents of [i] and [s] added), and the subject character is
    lowered before the test; a set without cased members is tested on
    the character as it is. *)
Definition item_cased (i : citem) : bool :=
  match i with
  | ILit p => ascii_letter p
  | IRange lo hi =>
      negb ((hi <? 65) || (90 <? lo) && (hi <? 97) || (122 <? lo))%N
      && (lo <=? hi)%N
  | _ => false
  end.

Definition range_ci (lo hi x : N) : bool :=
  between lo hi x && negb (ascii_upper x)
  || ascii_lower x && between lo hi (x - 32)
  || (between lo hi 73 || between lo hi 105) && (x =? 305)%N
  || (between lo hi 83 || between lo hi 115) && (x =? 383)%N.

Definition item_match (ci : bool) (i : citem) (x : N) : bool :=
  match i with
  | ILit p =>
      if ci then
        let lo := sre_lower u p in
        (x =? lo)%N || existsb (N.eqb x) (ignorecase_fixes lo)
      else (x =? p)%N
  | IRange lo hi => if ci then range_ci lo hi x else between lo hi x
  | IDigit => sre_digit u x
  | IWord => sre_word u x
  | ISpace => sre_space u x
  end.

Definition set_match (negated : bool) (items : list citem) (c : N) : bool :=
  let ci := icase && existsb item_cased items in
  let x := if ci then sre_lower u c else c in
  xorb negated (existsb (fun i => item_match ci i x) items).

Definition cont : Type := mstate -> option mstate.

(** A matcher that, when it succeeds, has handed its continuation a state
    further on in the text. *)
Definition continues (body : mstate -> cont -> option mstate) : Prop :=
  forall st k res,
    body st k = Some res ->
    exists st', k st' = Some res /\ suffix (rest st') (rest st).

(** Repetition [a{lo,hi}], greedy or lazy.  [fuel] bounds the number of
    iterations; every repeated sub-pattern of this program consumes at
    least one character, so the length of the remaining text is enough. *)
Fixpoint rep_loop (body : mstate -> cont -> option mstate)
    (greedy : bool) (lo : nat) (hi : option nat) (fuel : nat)
    (st : mstate) (k : cont) {struct fuel} : option mstate :=
  match fuel with
  | O => match lo with O => k st | S _ => None end
  | S fuel' =>
      if greedy then
        match
          match hi with
          | Some O => None
          | _ => body st (fun st' =>
                   rep_loop body greedy (pred lo) (option_map pred hi)
                            fuel' st' k)
          end
        with
        | Some r => Some r
        | None => match lo with O => k st | S _ => None end
        end
      else
        match match lo with O => k st | S _ => None end with
        | Some r => Some r
        | None =>
            match hi with
            | Some O => None
            | _ => body st (fun st' =>
                     rep_loop body greedy (pred lo) (option_map pred hi)
                              fuel' st' k)
            end
        end
  end.

(** The matcher, in continuation-passing style: [k] is what remains of
    the pattern; a [None] from it makes the matcher try its next
    alternative, which is [re]'s backtracking. *)
Fixpoint rmatch (r : regex) (st : mstate) (k : cont) : option mstate :=
  match r with
  | Empty => k st
  | Lit p =>
      match rest st with
      | c :: t => if lit_match p c then k (advance st t) else None
      | [] => None
      end
  | AnyChar =>
      match rest st with
      | _ :: t => k (advance st t)
      | [] => None
      end
  | CSet negated items =>
      match rest st with
      | c :: t => if set_match negated items c then k (advance st t) else None
      | [] => None
      end
  | Seq a b => rmatch a st (fun st' => rmatch b st' k)
  | Alt a b =>
      match rmatch a st k with
      | Some r => Some r
      | None => rmatch b st k
      end
  | Rep greedy lo hi a =>
      rep_loop (rmatch a) greedy lo hi (length (rest st)) st k
  | Group a => rmatch a st (fun st' => k (close_group st st'))
  | NotAhead a =>
      match rmatch a st Some with
      | Some _ => None
      | None => k st
      end
  | Bol => if at_start st then k st else None
  | Eol =>
      match rest st with
      | [] => k st
      | [c] => if (c =? 10)%N then k st else None
      | _ => None
      end
  end.
End Matcher.

(** A match object: the whole match, group 1, and the text after it. *)
Record mobj : Type := {
  group0 : pystr;
  group1 : option pystr;
  after : pystr
}.

(** The text from the first character of a match on. *)
Definition match_start (m : mobj) : pystr := group0 m ++ after m.

Section Api.
Variable u : Unicode.
Variable p : pattern.

Definition start_state (first : bool) (s : pystr) : mstate :=
  {| at_start := first; rest := s; grp := None |}.

Definition to_mobj (s : pystr) (st : mstate) : mobj :=
  {| group0 := consumed s (rest st); group1 := grp st; after := rest st |}.

(** One attempt with the cursor at the head of [s]. *)
Definition match_at (first : bool) (s : pystr) : option mobj :=
  to_mobj s <$> rmatch u (p_icase p) (p_re p) (start_state first s) Some.

(** [re.fullmatch]: an attempt at offset 0 that must end at the end. *)
Definition fullmatch (s : pystr) : option mobj :=
  to_mobj s <$>
    rmatch u (p_icase p) (p_re p) (start_state true s)
      (fun st => match rest st with [] => Some st | _ => None end).

(** [re.finditer]: leftmost matches, left to right, not overlapping.
    [skip] counts the characters of the last match still to step over.
    No pattern of the program matches the empty string; an empty match
    is reported and the cursor moves on by one. *)
Fixpoint finditer_from (first : bool) (skip : nat) (s : pystr)
    : list mobj :=
  match skip with
  | S n =>
      match s with
      | [] => []
      | _ :: t => finditer_from false n t
      end
  | O =>
      match match_at first s with
      | Some m =>
          m :: match s with
               | [] => []
               | _ :: t => finditer_from false (pred (length (group0 m))) t
               end
      | None =>
          match s with
          | [] => []
          | _ :: t => finditer_from false 0 t
          end
      end
  end.

Definition finditer (s : pystr) : list mobj := finditer_from true 0 s.

(** [re.findall] is used for its truth value only. *)
Definition findall (s : pystr) : list mobj := finditer s.

(** [re.search]. *)
Definition search (s : pystr) : option mobj := head (finditer s).

(** [re.sub(p, "", s)]: the text with every match cut out. *)
Fixpoint sub_from (first : bool) (skip : nat) (s : pystr) : pystr :=
  match skip with
  | S n =>
      match s with
      | [] => []
      | _ :: t => sub_from false n t
      end
  | O =>
      match match_at first s with
      | Some m =>
          match s with
          | [] => []
          | c :: t =>
              match length (group0 m) with
              | O => c :: sub_from false 0 t
              | S n => sub_from false n t
              end
          end
      | None =>
          match s with
          | [] => []
          | c :: t => c :: sub_from false 0 t
          end
      end
  end.

Definition sub_empty (s : pystr) : pystr := sub_from true 0 s.

End Api.

(** Pattern syntax helpers. *)
Fixpoint lits (s : pystr) : regex :=
  match s with
  | [] => Empty
  | [c] => Lit c
  | c :: t => Seq (Lit c) (lits t)
  end.

Definition str (s : string) : regex := lits (py s).
Definition chr (s : string) : N :=
  match py s with c :: _ => c | [] => 0%N end.
Definition opt (a : regex) : regex := Rep true 0 (Some 1) a.
Definition star (a : regex) : regex := Rep true 0 None a.
Definition plus (a : regex) : regex := Rep true 1 None a.
Definition star_lazy (a : regex) : regex := Rep false 0 None a.
Definition plus_lazy (a : regex) : regex := Rep false 1 None a.
Definition digit : regex := CSet false [IDigit].
Definition word : regex := CSet false [IWord].
Definition space : regex := CSet false [ISpace].
Fixpoint seqs (l : list regex) : regex :=
  match l with
  | [] => Empty
  | [a] => a
  | a :: t => Seq a (seqs t)
  end.

End Re.

(* ===================================================================== *)
(** ** parse.py *)
(* ===================================================================== *)

Module Parse.
Import Re.

Inductive ParseContext : Type :=
| SUBMISSION_TITLE
| SUBMISSION_SELFTEXT
| COMMENT_BODY.

Inductive SearchQueryType : Type := URL | FREEFORM | BARE.

(** [site_url] is [None] where the Python field holds [None]. *)
Record SearchQuery : Type := {
  type : SearchQueryType;
  value : pystr;
  site_url : option pystr
}.

#[export] Instance ParseContext_eq_dec : EqDecision ParseContext.
Proof. solve_decision. Defined.
#[export] Instance SearchQueryType_eq_dec : EqDecision SearchQueryType.
Proof. solve_decision. Defined.
#[export] Instance SearchQuery_eq_dec : EqDecision SearchQuery.
Proof. solve_decision. Defined.

(** What [datetime.today()] is read for. *)
Record date : Type := { day : nat; month : nat }.

Definition primary_site : pystr := py "http://scp-wiki.wikidot.com".

(** Pieces shared by the patterns. *)
Definition sep : regex := CSet false [ILit (chr "-"); ILit (chr " ")].
Definition digits34 : regex := Rep true 3 (Some 4) digit.
Definition icase_pattern (r : regex) : pattern :=
  {| p_icase := true; p_re := r |}.
Definition plain_pattern (r : regex) : pattern :=
  {| p_icase := false; p_re := r |}.

(** [(?i)SCP[- ]?(\d{3,4}<between>CODE)(?!\w)] *)
Definition number_then_code (between : regex) (code : string) : pattern :=
  icase_pattern
    (seqs [str "SCP"; opt sep;
           Group (seqs [digits34; between; str code]);
           NotAhead word]).

(** [(?i)SCP[- ]?(CODE[- ]\d{3,4})(?!\w)] *)
Definition code_then_number (code : string) : pattern :=
  icase_pattern
    (seqs [str "SCP"; opt sep;
           Group (seqs [str code; sep; digits34]);
           NotAhead word]).

Definition _INTERNATIONAL_REGEXES : list (pattern * pystr) := [
  (number_then_code sep "FR", py "http://fondationscp.wikidot.com");
  (number_then_code (opt (Lit (chr "-"))) "IT",
     py "http://fondazionescp.wikidot.com");
  (code_then_number "ES", py "http://lafundacionscp.wikidot.com");
  (number_then_code sep "CS", py "http://scp-cs.wikidot.com");
  (number_then_code sep "SK", py "http://scp-cs.wikidot.com");
  (number_then_code sep "EL", py "http://scp-el.wikidot.com");
  (number_then_code sep "ID", py "http://scp-id.wikidot.com");
  (number_then_code sep "INT", py "http://scp-int.wikidot.com");
  (number_then_code sep "JP", py "http://scp-jp.wikidot.com");
  (code_then_number "PL", py "http://scp-pl.wikidot.com");
  (number_then_code sep "PT", py "http://scp-pt-br.wikidot.com");
  (number_then_code sep "RU", py "http://scp-ru.wikidot.com");
  (number_then_code (opt sep) "TH", py "http://scp-th.wikidot.com");
  (number_then_code sep "UA", py "http://scp-ukrainian.wikidot.com");
  (number_then_code sep "VN", py "http://scp-vn.wikidot.com");
  (code_then_number "CN", py "http://scp-wiki-cn.wikidot.com");
  (number_then_code sep "DE", py "http://scp-wiki-de.wikidot.com");
  (code_then_number "ZH", py "http://scp-zh-tr.wikidot.com");
  (number_then_code sep "KO", py "http://scpko.wikidot.com")
].

Definition italian_site : pystr := py "http://fondazionescp.wikidot.com".

(** parse.py line 38: under IGNORECASE, group 1 is [SCP], one of hyphen
    and space, three or four [\d], then any number of [-[A-Z0-9]+]; after
    the group, [(?!\w)]. *)
Definition _BARE_MATCH_REGEX : pattern :=
  icase_pattern
    (Seq
       (Group
          (seqs [str "SCP"; sep; digits34;
                 star (Seq (Lit (chr "-"))
                           (plus (CSet false [IRange (chr "A") (chr "Z");
                                              IRange (chr "0") (chr "9")])))]))
       (NotAhead word)).

(** parse.py line 41: two opening brackets, group 1 a lazy run of
    characters other than a closing bracket, two closing brackets. *)
Definition _MODERN_MATCH_REGEX : pattern :=
  plain_pattern
    (seqs [str "[["; Group (star_lazy (CSet true [ILit (chr "]")])); str "]]"]).

(** [(?:^|[^0-9])(2)(?:[^0-9]|$)] *)
Definition _SCP2_MATCH : pattern :=
  plain_pattern
    (seqs [Alt Bol (CSet true [IRange (chr "0") (chr "9")]);
           Group (Lit (chr "2"));
           Alt (CSet true [IRange (chr "0") (chr "9")]) Eol]).

Definition _FALSE_POSITIVES : list pattern := [
  (* [>!(.+?)!<], DOTALL: spoiler tags *)
  plain_pattern (seqs [str ">!"; Group (plus_lazy AnyChar); str "!<"]);
  (* URLs: under IGNORECASE, [http] or [https], [://], then a greedy run
     of characters other than the space *)
  icase_pattern
    (seqs [Alt (str "http") (str "https"); str "://";
           star (CSet true [ILit (chr " ")])]);
  (* [(?i)\d+[.,]\d+]: decimal points *)
  icase_pattern
    (seqs [plus digit; CSet false [ILit (chr "."); ILit (chr ",")];
           plus digit]);
  (* [(?i)/?u/[A-Z0-9_-]+]: username mentions *)
  icase_pattern
    (seqs [opt (Lit (chr "/")); str "u/";
           plus (CSet false [IRange (chr "A") (chr "Z");
                             IRange (chr "0") (chr "9");
                             ILit (chr "_"); ILit (chr "-")])])
].


(** [\s], for [re.sub(r"\s", "", ...)]. *)
Definition _WHITESPACE : pattern := plain_pattern space.

Section WithHost.
(** The interpreter's tables and [marko]'s renderer are not part of the
    repository; [parse] is stated over any of them. *)
Variable u : Unicode.
Variable sanitize_markdown : pystr -> pystr.

(** [match.group(1)]; group 1 lies on every path through each pattern
    above, so it always took part in the match. *)
Definition group_1 (m : mobj) : pystr := default [] (group1 m).

Definition matches (p : pattern) (s : pystr) : bool :=
  match fullmatch u p s with Some _ => true | None => false end.

(** [next((site for regexp, site in table if re.fullmatch(...)), primary)] *)
Definition site_of_brackets (inner : pystr) : pystr :=
  match find (fun entry => matches (fst entry) inner) _INTERNATIONAL_REGEXES with
  | Some (_, site) => site
  | None => primary_site
  end.

Definition modern_queries (remaining_text : pystr) : list SearchQuery :=
  omap (fun m =>
          match sub_empty u _WHITESPACE (group_1 m) with
          | [] => None
          | _ :: _ =>
              Some {| type := FREEFORM; value := group_1 m;
                      site_url := Some (site_of_brackets (group_1 m)) |}
          end)
       (finditer u _MODERN_MATCH_REGEX remaining_text).

Definition remove_false_positives (remaining_text : pystr) : pystr :=
  fold_left (fun text false_positive => sub_empty u false_positive text)
            _FALSE_POSITIVES remaining_text.

(** One turn of the loop over the international table; the state is
    [(queries, remaining_text)]. *)
Definition international_step (acc : list SearchQuery * pystr)
    (entry : pattern * pystr) : list SearchQuery * pystr :=
  let '(queries, remaining_text) := acc in
  let '(regexp, site) := entry in
  match findall u regexp remaining_text with
  | [] => (queries, remaining_text)
  | _ :: _ =>
      (queries ++
         map (fun m => {| type := BARE; value := group_1 m;
                          site_url := Some site |})
             (finditer u regexp remaining_text),
       sub_empty u regexp remaining_text)
  end.

Definition bare_queries (remaining_text : pystr) : list SearchQuery :=
  map (fun m => {| type := FREEFORM; value := group_1 m;
                   site_url := Some primary_site |})
      (finditer u _BARE_MATCH_REGEX remaining_text).

Definition april_fools (today : date) (context : ParseContext)
    (remaining_text : pystr) : list SearchQuery :=
  if decide (context = COMMENT_BODY) then
    if (day today =? 1)%nat && (month today =? 4)%nat then
      match search u _SCP2_MATCH remaining_text with
      | Some _ => [{| type := BARE; value := py "2";
                      site_url := Some primary_site |}]
      | None => []
      end
    else []
  else [].

Definition parse (today : date) (text : pystr) (context : ParseContext)
    : list SearchQuery :=
  let remaining_text :=
    if decide (context <> SUBMISSION_TITLE) then sanitize_markdown text
    else text in
  let queries := [] ++ modern_queries remaining_text in
  let remaining_text := sub_empty u _MODERN_MATCH_REGEX remaining_text in
  let remaining_text := remove_false_positives remaining_text in
  let '(queries, remaining_text) :=
    fold_left international_step _INTERNATIONAL_REGEXES
              (queries, remaining_text) in
  let queries := queries ++ bare_queries remaining_text in
  queries ++ april_fools today context remaining_text.

(** The four stages taken apart: the text each one reads and the queries
    it adds, for stating in which order [parse] returns them. *)
Definition text_for_brackets (text : pystr) (context : ParseContext) : pystr :=
  if decide (context <> SUBMISSION_TITLE) then sanitize_markdown text else text.

Definition text_for_international (text : pystr) (context : ParseContext)
    : pystr :=
  remove_false_positives
    (sub_empty u _MODERN_MATCH_REGEX (text_for_brackets text context)).

Definition international_pass (remaining_text : pystr)
    : list SearchQuery * pystr :=
  fold_left international_step _INTERNATIONAL_REGEXES ([], remaining_text).

Definition text_for_bare (text : pystr) (context : ParseContext) : pystr :=
  snd (international_pass (text_for_international text context)).

Definition explicit_stage (text : pystr) (context : ParseContext)
    : list SearchQuery :=
  modern_queries (text_for_brackets text context).

Definition international_stage (text : pystr) (context : ParseContext)
    : list SearchQuery :=
  fst (international_pass (text_for_international text context)).

Definition bare_stage (text : pystr) (context : ParseContext)
    : list SearchQuery :=
  bare_queries (text_for_bare text context).

Definition seasonal_stage (today : date) (text : pystr)
    (context : ParseContext) : list SearchQuery :=
  april_fools today context (text_for_bare text context).
End WithHost.

End Parse.

(* ===================================================================== *)
(** ** Effects: state, exceptions, and what the host provides *)
(* ===================================================================== *)

Module Eff.

(** The exceptions the program names, and a bucket for the rest
    (HTTP errors, rate limits, ...). *)
Inductive exn : Type :=
| TokenExpiredError
| CromAPIException
| Forbidden
| TypeError
| KeyError
| IndexError
| OtherError (what : string).

#[export] Instance exn_eq_dec : EqDecision exn.
Proof. solve_decision. Defined.

(** A computation over a state [S] that returns or raises; the state
    survives a raise, as mutations do in Python. *)
Definition M (S A : Type) : Type := S -> (exn + A) * S.

Definition ret {S A} (a : A) : M S A := fun s => (inr a, s).
Definition raise {S A} (e : exn) : M S A := fun s => (inl e, s).
Definition bind {S A B} (c : M S A) (k : A -> M S B) : M S B :=
  fun s =>
    match c s with
    | (inr a, s') => k a s'
    | (inl e, s') => (inl e, s')
    end.
Definition get {S} : M S S := fun s => (inr s, s).
Definition modify {S} (f : S -> S) : M S unit := fun s => (inr tt, f s).
(** [try: c  except <handles>: h]. *)
Definition try_except {S A} (c : M S A) (handles : exn -> bool)
    (h : exn -> M S A) : M S A :=
  fun s =>
    match c s with
    | (inl e, s') => if handles e then h e s' else (inl e, s')
    | r => r
    end.
(** Lift the outcome of a call to the outside. *)
Definition outcome {S A} (r : exn + A) : M S A := fun s => (r, s).
(** Run a computation on a component of the state. *)
Definition zoom {S T A} (proj : S -> T) (upd : T -> S -> S) (c : M T A)
    : M S A :=
  fun s => let '(r, t) := c (proj s) in (r, upd t s).

Declare Scope eff_scope.
Delimit Scope eff_scope with eff.
Notation "'let*' x ':=' c 'in' k" := (bind c (fun x => k))
  (at level 10, x pattern, c at level 100, k at level 200) : eff_scope.

End Eff.

(* ===================================================================== *)
(** ** utils/crom_client.py *)
(* ===================================================================== *)

Module Crom.
Import Eff.
Local Open Scope eff_scope.

(** The two documents search.py sends. *)
Inductive document : Type := PAGE_BY_URL_QUERY | PAGE_BY_FREEFORM_TEXT_QUERY.

(** A GraphQLQuery: the document and its variables, a dict from names to
    strings or [None]. *)
Record GraphQLQuery : Type := {
  query : document;
  variables : list (pystr * option pystr)
}.

Section Client.
(** The type of a response's [data] member. *)
Variable D : Type.

(** One element of a response body: its [data], and its [errors] when
    the key is there. *)
Record query_response : Type := {
  qr_data : D;
  qr_errors : option (list pystr)
}.

(** What [response.json()] gives: a list, or something else. *)
Inductive body : Type :=
| BodyList (items : list query_response)
| BodyOther.

(** Calls made on the OAuth session, in order. *)
Inductive session_call : Type :=
| Post (queries : list GraphQLQuery)
| FetchToken.

(** The session: given the calls made so far, what the next one does.
    [session_post] stands for [post], [raise_for_status] and [json]. *)
Record Session : Type := {
  session_post : list session_call -> list GraphQLQuery -> exn + body;
  session_fetch_token : list session_call -> exn + unit
}.

Variable session : Session.

Definition Client (A : Type) : Type := M (list session_call) A.

Definition post (queries : list GraphQLQuery) : Client body :=
  fun calls => (session_post session calls queries, calls ++ [Post queries]).

Definition fetch_token : Client unit :=
  fun calls => (session_fetch_token session calls, calls ++ [FetchToken]).

Definition has_errors (r : query_response) : bool :=
  match qr_errors r with
  | Some (_ :: _) => true
  | _ => false
  end.

Definition is_token_expired (e : exn) : bool :=
  bool_decide (e = TokenExpiredError).

(** The body of [query_batch]: [for i in range(n)].  The value is
    [Some data] for a returned list and [None] when the loop ends
    without a [return], where Python returns [None]. *)
Fixpoint query_batch_loop (n : nat) (queries : list GraphQLQuery)
    : Client (option (list D)) :=
  match n with
  | O => ret None
  | S n' =>
      let* attempt :=
        try_except
          (let* b := post queries in
           match b with
           | BodyOther => raise CromAPIException
           | BodyList items =>
               if existsb has_errors items then raise CromAPIException
               else ret (Some (map qr_data items))
           end)
          is_token_expired
          (fun _ => let* _ := fetch_token in ret None) in
      match attempt with
      | Some data => ret (Some data)
      | None => query_batch_loop n' queries
      end
  end.

Definition query_batch (queries : list GraphQLQuery)
    : Client (option (list D)) :=
  query_batch_loop 2 queries.

(** [query]: [self.query_batch([query])[0]]. *)
Definition query_one (q : GraphQLQuery) : Client D :=
  let* r := query_batch [q] in
  match r with
  | None => raise TypeError
  | Some [] => raise IndexError
  | Some (d :: _) => ret d
  end.
End Client.

Arguments BodyList {D} items.
Arguments BodyOther {D}.

End Crom.

(* ===================================================================== *)
(** ** search.py *)
(* ===================================================================== *)

Module Search.
Import Eff Crom Parse.
Local Open Scope eff_scope.

(** The members of the API's objects that the program reads. *)
Record WikidotPage : Type := {
  url : pystr;
  title : pystr;
  rating : Z
}.

Record User : Type := {
  displayName : pystr;
  userPage : option pystr
}.

(** The [data] of one response; a member is [None] when the key is
    missing or null, which [response.get(key, None)] does not tell apart. *)
Record response : Type := {
  wikidotPage : option WikidotPage;
  matchingPages : option (list WikidotPage);
  searchPages_v1 : option (list pystr);      (* the [url] of each hit *)
  searchUsers_v1 : option (list User)
}.

(** An element of [results]: [{"user": ...}] or
    [{"wikidot_page": ..., "matching_pages": ...}]. *)
Inductive result : Type :=
| UserResult (user : User)
| PageResult (wikidot_page : option WikidotPage)
             (matching_pages : option (list WikidotPage)).

#[export] Instance WikidotPage_eq_dec : EqDecision WikidotPage.
Proof. solve_decision. Defined.
#[export] Instance User_eq_dec : EqDecision User.
Proof. solve_decision. Defined.
#[export] Instance result_eq_dec : EqDecision result.
Proof. solve_decision. Defined.

(** [_chunks(lst, n)]: [lst[i:i+n]] for [i] in [range(0, len(lst), n)];
    [n] is positive (the one caller passes 25). *)
Fixpoint chunks_loop {A} (turns : nat) (lst : list A) (n : nat)
    : list (list A) :=
  match turns with
  | O => []
  | S turns' =>
      match lst with
      | [] => []
      | _ :: _ => take n lst :: chunks_loop turns' (drop n lst) n
      end
  end.

Definition _chunks {A} (lst : list A) (n : nat) : list (list A) :=
  chunks_loop (length lst) lst n.

(** [_uniq_by(items, mapper)], run to the end as [list(...)] does;
    [tracking] is the set of keys seen. *)
Fixpoint uniq_loop {A K} `{Countable K} (mapper : A -> exn + K)
    (tracking : gset K) (items : list A) : exn + list A :=
  match items with
  | [] => inr []
  | item :: items' =>
      match mapper item with
      | inl e => inl e
      | inr key =>
          if decide (key ∈ tracking) then uniq_loop mapper tracking items'
          else
            match uniq_loop mapper ({[key]} ∪ tracking) items' with
            | inl e => inl e
            | inr kept => inr (item :: kept)
            end
      end
  end.

Definition _uniq_by {A K} `{Countable K} (items : list A)
    (mapper : A -> exn + K) : exn + list A :=
  uniq_loop mapper ∅ items.

(** The [lambda] passed to [_uniq_by] in [search]. *)
Definition identity (x : result) : exn + pystr :=
  match x with
  | PageResult (Some page) _ => inr (url page)
  | PageResult None _ => inl KeyError
  | UserResult user => inr (displayName user)
  end.

(** A request of at least one and at most 25 queries; a token refresh
    carries none. *)
Definition batch_sized (c : session_call) : Prop :=
  match c with
  | Post batch => 1 <= length batch <= 25
  | FetchToken => True
  end.

(** A computation only appends calls to the history, and each call it
    appends satisfies [P]. *)
Definition appends {T} (c : Client T) (P : session_call -> Prop) : Prop :=
  forall calls r calls',
    c calls = (r, calls') ->
    exists new, calls' = calls ++ new /\ Forall P new.

Section WithHost.
(** [str.lower] of the interpreter. *)
Variable str_lower : pystr -> pystr.
Variable session : Session response.

(** [re.sub(" ", "-", s)] *)
Definition spaces_to_hyphens (s : pystr) : pystr :=
  map (fun c => if (c =? 32)%N then 45%N else c) s.

(** An f-string prints [None] for a missing value. *)
Definition fmt (v : option pystr) : pystr := default (py "None") v.

Definition gql_of (search_query : SearchQuery) : GraphQLQuery :=
  match type search_query with
  | URL =>
      {| query := PAGE_BY_URL_QUERY;
         variables := [(py "url", Some (str_lower (value search_query)))] |}
  | BARE =>
      let url_segment := spaces_to_hyphens (str_lower (value search_query)) in
      {| query := PAGE_BY_URL_QUERY;
         variables :=
           [(py "url",
             Some (fmt (site_url search_query) ++ py "/scp-" ++ url_segment))] |}
  | FREEFORM =>
      {| query := PAGE_BY_FREEFORM_TEXT_QUERY;
         variables := [(py "text", Some (str_lower (value search_query)));
                       (py "siteUrl", site_url search_query)] |}
  end.

(** First loop: one [query_batch] per group; [extend] of [None] is a
    TypeError. *)
Fixpoint query_groups (groups : list (list SearchQuery))
    : Client (list response) :=
  match groups with
  | [] => ret []
  | group :: groups' =>
      let* answer := query_batch response session (map gql_of group) in
      match answer with
      | None => raise TypeError
      | Some data =>
          let* more := query_groups groups' in
          ret (data ++ more)
      end
  end.

(** The [elif wikidot_page] and [elif search_pages] branches.  The answer
    to the second request is read with [full_page[...]]; both members are
    selected by the document, so the keys are there. *)
Definition page_branch (r : response) : Client (list result) :=
  match wikidotPage r with
  | Some page => ret [PageResult (Some page) (matchingPages r)]
  | None =>
      match searchPages_v1 r with
      | Some (hit :: _) =>
          let* full_page :=
            query_one response session
              {| query := PAGE_BY_URL_QUERY;
                 variables := [(py "pageUrl", Some hit)] |} in
          ret [PageResult (wikidotPage full_page) (matchingPages full_page)]
      | _ => ret []
      end
  end.

(** Second loop: [for i, response in enumerate(responses)]. *)
Fixpoint collect (search_queries : list SearchQuery) (i : nat)
    (responses : list response) : Client (list result) :=
  match responses with
  | [] => ret []
  | r :: responses' =>
      let* here :=
        match searchUsers_v1 r with
        | Some (first :: _) =>
            match search_queries !! i with
            | None => raise IndexError
            | Some q =>
                if decide (str_lower (displayName first) = str_lower (value q))
                then ret [UserResult first]
                else page_branch r
            end
        | _ => page_branch r
        end in
      let* more := collect search_queries (S i) responses' in
      ret (here ++ more)
  end.

Definition search (search_queries : list SearchQuery)
    : Client (list result) :=
  let* responses := query_groups (_chunks search_queries 25) in
  let* results := collect search_queries 0 responses in
  outcome (_uniq_by results identity).
End WithHost.

End Search.

(* ===================================================================== *)
(** ** bot.py *)
(* ===================================================================== *)

Module Bot.
Import Eff Crom Parse Search.
Local Open Scope eff_scope.

(** The attributes of PRAW's objects that the program reads.  Timestamps
    are compared only, and are integers here. *)
Record Author : Type := { name : pystr }.

Record Reply : Type := {
  r_id : pystr;
  r_body : pystr;
  r_permalink : pystr
}.

Record Comment : Type := {
  c_id : pystr;
  c_author : option Author;
  c_body : pystr;
  c_created_utc : Z;
  c_banned_by : option pystr;
  c_subreddit : pystr;                 (* [subreddit.display_name] *)
  c_permalink : pystr;
  c_context : pystr
}.

Record Submission : Type := {
  s_id : pystr;
  s_created_utc : Z;
  s_url : pystr;
  s_is_self : bool;
  s_title : pystr;
  s_selftext : pystr;
  s_permalink : pystr;
  s_subreddit : pystr
}.

(** [comment_type]: the strings "comment" and "mention". *)
Inductive comment_type : Type := TComment | TMention.

#[export] Instance comment_type_eq_dec : EqDecision comment_type.
Proof. solve_decision. Defined.

Definition type_label (t : comment_type) : pystr :=
  match t with TComment => py "comment" | TMention => py "mention" end.

(** What the program does to the outside, in order. *)
Inductive event : Type :=
| LogRequest (kind location : pystr) (queries : list SearchQuery)
| LogResponse (permalink : pystr)
| LogException (e : exn)
| Replied (parent text : pystr) (reply : Reply)
| Edited (reply : Reply) (text : pystr)
| Distinguished (reply : Reply).

(** The process state: the two dicts of [start_bot], the Prometheus
    counter, and the history of calls. *)
Record World : Type := {
  events : list event;
  session_calls : list session_call;
  replied_text_submissions : gmap pystr (Submission * list SearchQuery * Reply);
  replied_comments : gmap pystr (Comment * list SearchQuery * Reply);
  responses_counter : gmap (pystr * pystr) nat
}.

Definition add_event (e : event) (w : World) : World :=
  {| events := events w ++ [e];
     session_calls := session_calls w;
     replied_text_submissions := replied_text_submissions w;
     replied_comments := replied_comments w;
     responses_counter := responses_counter w |}.

Definition set_session_calls (calls : list session_call) (w : World) : World :=
  {| events := events w;
     session_calls := calls;
     replied_text_submissions := replied_text_submissions w;
     replied_comments := replied_comments w;
     responses_counter := responses_counter w |}.

Definition remember_submission (s : Submission) (qs : list SearchQuery)
    (r : Reply) (w : World) : World :=
  {| events := events w;
     session_calls := session_calls w;
     replied_text_submissions :=
       <[s_id s := (s, qs, r)]> (replied_text_submissions w);
     replied_comments := replied_comments w;
     responses_counter := responses_counter w |}.

Definition remember_comment (c : Comment) (qs : list SearchQuery)
    (r : Reply) (w : World) : World :=
  {| events := events w;
     session_calls := session_calls w;
     replied_text_submissions := replied_text_submissions w;
     replied_comments := <[c_id c := (c, qs, r)]> (replied_comments w);
     responses_counter := responses_counter w |}.

Definition count (label subreddit : pystr) (w : World) : nat :=
  default 0 (responses_counter w !! (label, subreddit)).

(** [responses_counter.labels(type=..., subreddit=...).inc()] *)
Definition inc_counter (label subreddit : pystr) (w : World) : World :=
  {| events := events w;
     session_calls := session_calls w;
     replied_text_submissions := replied_text_submissions w;
     replied_comments := replied_comments w;
     responses_counter :=
       <[(label, subreddit) := S (count label subreddit w)]>
         (responses_counter w) |}.

Definition is_reply (e : event) : bool :=
  match e with Replied _ _ _ => true | _ => false end.

(** How many replies the history shows. *)
Definition replies_posted (w : World) : nat :=
  length (List.filter is_reply (events w)).

(** Functions of the interpreter and its libraries.  Those of urllib
    raise ValueError on some strings. *)
Record Host : Type := {
  unicode : Unicode;
  sanitize_markdown : pystr -> pystr;      (* marko, with the renderer *)
  str_lower : pystr -> pystr;
  urljoin : pystr -> pystr -> exn + pystr;
  urlparse_path : pystr -> exn + pystr;    (* [urlparse(x).path] *)
  urlsplit_netloc : pystr -> exn + pystr   (* [urlsplit(x).netloc] *)
}.

(** The outside: the clock, the resolver's session, the formatter and
    Reddit.  Each answer may depend on everything done so far. *)
Record Outside : Type := {
  today : World -> date;
  session : Session response;
  generate_response :
    World -> list result -> bool -> option pystr -> exn + pystr;
  reply_to : World -> pystr -> pystr -> exn + Reply;
  edit : World -> Reply -> pystr -> exn + unit;
  comments_stickied : World -> Submission -> exn + list bool;
  distinguish : World -> Reply -> exn + unit
}.

(** [str.replace(old, new)] for a non-empty [old]. *)
Fixpoint starts_with (prefix s : pystr) : bool :=
  match prefix, s with
  | [], _ => true
  | p :: prefix', c :: s' => (p =? c)%N && starts_with prefix' s'
  | _ :: _, [] => false
  end.

Fixpoint replace_from (skip : nat) (old new s : pystr) : pystr :=
  match s with
  | [] => []
  | c :: t =>
      match skip with
      | S n => replace_from n old new t
      | O =>
          if starts_with old s then new ++ replace_from (pred (length old)) old new t
          else c :: replace_from 0 old new t
      end
  end.

Definition replace (old new s : pystr) : pystr := replace_from 0 old new s.

Section WithOutside.
Variable host : Host.
Variable out : Outside.

Definition Run (A : Type) : Type := M World A.

Definition log (e : event) : Run unit := modify (add_event e).

(** The arguments are evaluated innermost first: [urlparse(input).path],
    then the inner [urljoin], then the outer one; each may raise. *)
Definition _normalize_permalink (input : pystr) : exn + pystr :=
  match urlparse_path host input with
  | inl e => inl e
  | inr path =>
      match urljoin host input path with
      | inl e => inl e
      | inr without_query =>
          match urljoin host (py "https://www.reddit.com/") without_query with
          | inl e => inl e
          | inr clean_url =>
              inr (replace (py "//www.scp-wiki.net")
                           (py "//scp-wiki.wikidot.com")
                     (replace (py "//www.scpwiki.com")
                              (py "//scp-wiki.wikidot.com")
                        (replace (py "//scpwiki.com")
                                 (py "//scp-wiki.wikidot.com")
                           (replace (py "https://") (py "http://")
                                    clean_url))))
          end
      end
  end.

Definition parse_text (now : date) (text : pystr) (context : ParseContext)
    : list SearchQuery :=
  parse (unicode host) (sanitize_markdown host) now text context.

(** Lines 257-282 of [_process_submission]: the normalized URL and the
    queries of a submission, or the exception that [_normalize_permalink]
    or [urlsplit] raises; no [try] is around these lines. *)
Definition submission_queries (now : date) (submission : Submission)
    (valid_netlocs : list pystr) : exn + (pystr * list SearchQuery) :=
  match _normalize_permalink (s_url submission) with
  | inl e => inl e
  | inr normalized_url =>
      match urlsplit_netloc host normalized_url with
      | inl e => inl e
      | inr found =>
          let netloc := str_lower host found in
          match
            (if negb (s_is_self submission)
                && bool_decide (netloc ∈ valid_netlocs)
             then match _normalize_permalink (s_url submission) with
                  | inl e => inl e
                  | inr link =>
                      inr [{| type := URL; value := link;
                              site_url := None |}]
                  end
             else inr [])
          with
          | inl e => inl e
          | inr search_queries =>
              let search_queries :=
                search_queries
                  ++ parse_text now (s_title submission) SUBMISSION_TITLE in
              inr (normalized_url,
                   if s_is_self submission
                   then search_queries
                          ++ parse_text now (s_selftext submission)
                                        SUBMISSION_SELFTEXT
                   else search_queries)
          end
      end
  end.

Definition run_search (search_queries : list SearchQuery)
    : Run (list result) :=
  zoom session_calls set_session_calls
       (search (str_lower host) (session out) search_queries).

Definition is_nil {A} (l : list A) : bool :=
  match l with [] => true | _ :: _ => false end.

Definition any_exception (e : exn) : bool := true.
Definition is_forbidden (e : exn) : bool := bool_decide (e = Forbidden).

(** The inner [try] of [_process_submission]: sticky the reply unless a
    stickied comment is already on top. *)
Definition try_sticky (submission : Submission) (reply : Reply) : Run unit :=
  try_except
    (let* w := get in
     let* comments := outcome (comments_stickied out w submission) in
     if match comments with [] => true | top :: _ => negb top end
     then
       let* w := get in
       let* _ := outcome (distinguish out w reply) in
       log (Distinguished reply)
     else ret tt)
    is_forbidden
    (fun _ => ret tt).

Definition _process_submission (submission : Submission) (start_time : Z)
    (valid_netlocs : list pystr)
    (previous_search_queries : option (list SearchQuery))
    (previous_reply : option Reply) : Run bool :=
  if (s_created_utc submission <=? start_time)%Z then ret false
  else
    let* w := get in
    let* read :=
      outcome (submission_queries (today out w) submission valid_netlocs) in
    let normalized_url := fst read in
    let search_queries := snd read in
    if is_nil search_queries
       || bool_decide (Some search_queries = previous_search_queries)
    then ret false
    else
      let* _ := log (LogRequest (py "Submission") (s_permalink submission)
                                search_queries) in
      let* results := run_search search_queries in
      if is_nil results then ret false
      else
        try_except
          (let* w := get in
           let* reply_text :=
             outcome (generate_response out w results true
                        (if s_is_self submission then None
                         else Some normalized_url)) in
           let* posted :=
             match previous_reply with
             | None =>
                 let* w := get in
                 let* reply :=
                   outcome (reply_to out w (s_id submission) reply_text) in
                 let* _ := log (Replied (s_id submission) reply_text reply) in
                 let* _ := modify (remember_submission submission
                                     search_queries reply) in
                 ret (Some reply)
             | Some previous =>
                 if decide (r_body previous <> reply_text) then
                   let* w := get in
                   let* _ := outcome (edit out w previous reply_text) in
                   let* _ := log (Edited previous reply_text) in
                   ret (Some previous)
                 else ret None
             end in
           match posted with
           | None => ret false
           | Some reply =>
               let* _ := log (LogResponse (r_permalink reply)) in
               let* _ := modify (inc_counter (py "submission")
                                   (s_subreddit submission)) in
               let* _ := try_sticky submission reply in
               ret true
           end)
          any_exception
          (fun err => let* _ := log (LogException err) in ret false).

Definition truthy (s : option pystr) : bool :=
  match s with Some (_ :: _) => true | _ => false end.

Definition _process_comment (comment : Comment) (kind : comment_type)
    (start_time : Z) (bot_accounts : list pystr)
    (comment_subreddits : option (list pystr))
    (previous_search_queries : option (list SearchQuery))
    (previous_reply : option Reply) : Run bool :=
  if (c_created_utc comment <=? start_time)%Z then ret false
  else
    match c_author comment with
    | None => ret false
    | Some author =>
        if bool_decide (str_lower host (name author) ∈ bot_accounts)
        then ret false
        else if bool_decide (kind = TComment) && truthy (c_banned_by comment)
        then ret false
        else if bool_decide (kind = TMention)
                && match comment_subreddits with
                   | Some (sub :: subs) =>
                       bool_decide (str_lower host (c_subreddit comment)
                                      ∈ sub :: subs)
                   | _ => false
                   end
        then ret false
        else
          let* w := get in
          let search_queries :=
            parse_text (today out w) (c_body comment) COMMENT_BODY in
          if is_nil search_queries
             || bool_decide (Some search_queries = previous_search_queries)
          then ret false
          else
            let log_type :=
              match kind with
              | TComment => py "Comment"
              | TMention => py "Mention"
              end in
            let log_location :=
              match kind with
              | TComment => c_permalink comment
              | TMention => c_context comment
              end in
            let* _ := log (LogRequest log_type log_location search_queries) in
            let* results := run_search search_queries in
            if is_nil results then ret false
            else
              try_except
                (let* w := get in
                 let* reply_text :=
                   outcome (generate_response out w results false None) in
                 let* posted :=
                   match previous_reply with
                   | None =>
                       let* w := get in
                       let* reply :=
                         outcome (reply_to out w (c_id comment) reply_text) in
                       let* _ := log (Replied (c_id comment) reply_text
                                              reply) in
                       let* _ := modify (remember_comment comment
                                           search_queries reply) in
                       ret (Some reply)
                   | Some previous =>
                       if decide (r_body previous <> reply_text) then
                         let* w := get in
                         let* _ := outcome (edit out w previous reply_text) in
                         let* _ := log (Edited previous reply_text) in
                         ret (Some previous)
                       else ret None
                   end in
                 match posted with
                 | None => ret false
                 | Some reply =>
                     let* _ := log (LogResponse (r_permalink reply)) in
                     let* _ := modify (inc_counter (type_label kind)
                                         (c_subreddit comment)) in
                     ret true
                 end)
                any_exception
                (fun err => let* _ := log (LogException err) in ret false)
    end.

(** The [for] loops of [start_bot] over a stream: [None] ends the batch;
    nothing around the calls catches an exception. *)
Fixpoint submission_batch (stream : list (option Submission))
    (start_time : Z) (valid_netlocs : list pystr) : Run unit :=
  match stream with
  | [] => ret tt
  | None :: _ => ret tt
  | Some submission :: stream' =>
      let* _ := _process_submission submission start_time valid_netlocs
                  None None in
      submission_batch stream' start_time valid_netlocs
  end.

Fixpoint comment_batch (stream : list (option Comment)) (kind : comment_type)
    (start_time : Z) (bot_accounts : list pystr)
    (comment_subreddits : list pystr) : Run unit :=
  match stream with
  | [] => ret tt
  | None :: _ => ret tt
  | Some comment :: stream' =>
      let* _ := _process_comment comment kind start_time bot_accounts
                  (Some comment_subreddits) None None in
      comment_batch stream' kind start_time bot_accounts comment_subreddits
  end.

(** Names for the conditions under which an item gets as far as the
    resolver, and for what is logged on the way. *)
Definition comment_is_ignored (comment : Comment) (kind : comment_type)
    (start_time : Z) (bot_accounts : list pystr)
    (comment_subreddits : option (list pystr)) : bool :=
  (c_created_utc comment <=? start_time)%Z
  || match c_author comment with
     | None => true
     | Some author =>
         bool_decide (str_lower host (name author) ∈ bot_accounts)
         || bool_decide (kind = TComment) && truthy (c_banned_by comment)
         || bool_decide (kind = TMention)
            && match comment_subreddits with
               | Some (sub :: subs) =>
                   bool_decide (str_lower host (c_subreddit comment)
                                  ∈ sub :: subs)
               | _ => false
               end
     end.

Definition comment_queries (comment : Comment) (w : World)
    : list SearchQuery :=
  parse_text (today out w) (c_body comment) COMMENT_BODY.

Definition comment_request (comment : Comment) (kind : comment_type)
    (w : World) : event :=
  LogRequest
    (match kind with TComment => py "Comment" | TMention => py "Mention" end)
    (match kind with
     | TComment => c_permalink comment
     | TMention => c_context comment
     end)
    (comment_queries comment w).

Definition comment_reaches_resolver (comment : Comment) (kind : comment_type)
    (start_time : Z) (bot_accounts : list pystr)
    (comment_subreddits : option (list pystr))
    (previous_search_queries : option (list SearchQuery)) (w : World) : Prop :=
  comment_is_ignored comment kind start_time bot_accounts comment_subreddits
  = false
  /\ comment_queries comment w <> []
  /\ Some (comment_queries comment w) <> previous_search_queries.

Definition submission_request (submission : Submission)
    (search_queries : list SearchQuery) : event :=
  LogRequest (py "Submission") (s_permalink submission) search_queries.

(** The submission is new, its URL is read as [normalized_url], and its
    queries [search_queries] are some and not the previous ones. *)
Definition submission_reaches_resolver (submission : Submission)
    (start_time : Z) (valid_netlocs : list pystr)
    (previous_search_queries : option (list SearchQuery)) (w : World)
    (normalized_url : pystr) (search_queries : list SearchQuery) : Prop :=
  (start_time < s_created_utc submission)%Z
  /\ submission_queries (today out w) submission valid_netlocs
     = inr (normalized_url, search_queries)
  /\ search_queries <> []
  /\ Some search_queries <> previous_search_queries.

(** The submission is old, or its queries are none or the previous
    ones. *)
Definition submission_is_skipped (submission : Submission)
    (start_time : Z) (valid_netlocs : list pystr)
    (previous_search_queries : option (list SearchQuery)) (w : World)
    : Prop :=
  (s_created_utc submission <= start_time)%Z
  \/ exists normalized_url search_queries,
       submission_queries (today out w) submission valid_netlocs
       = inr (normalized_url, search_queries)
       /\ (search_queries = []
           \/ Some search_queries = previous_search_queries).

(** The submission is new and urllib raises [e] on its URL. *)
Definition submission_url_is_refused (submission : Submission)
    (start_time : Z) (valid_netlocs : list pystr) (w : World) (e : exn)
    : Prop :=
  (start_time < s_created_utc submission)%Z
  /\ submission_queries (today out w) submission valid_netlocs = inl e.

(** The making, the posting or the editing of the reply raises [e] in the
    state [w]: the lines of the [try] before the response is logged. *)
Definition reply_fails (parent : pystr) (results : list result)
    (is_submission : bool) (submission_url : option pystr)
    (previous_reply : option Reply) (w : World) (e : exn) : Prop :=
  generate_response out w results is_submission submission_url = inl e
  \/ exists reply_text,
       generate_response out w results is_submission submission_url
       = inr reply_text
       /\ match previous_reply with
          | None => reply_to out w parent reply_text = inl e
          | Some previous =>
              r_body previous <> reply_text
              /\ edit out w previous reply_text = inl e
          end.

(** The state after a first reply to a submission has been posted,
    remembered, logged and counted. *)
Definition after_first_reply (submission : Submission)
    (search_queries : list SearchQuery) (reply_text : pystr) (reply : Reply)
    (w : World) : World :=
  inc_counter (py "submission") (s_subreddit submission)
    (add_event (LogResponse (r_permalink reply))
       (remember_submission submission search_queries reply
          (add_event (Replied (s_id submission) reply_text reply) w))).
End WithOutside.

End Bot.

(* ===================================================================== *)
(** ** Concrete inputs used by the examples below *)
(* ===================================================================== *)

Module Fixtures.
Import Re Parse Eff Crom Search Bot.

(** What the renderer of sanitize_markdown.py returns for a text that is one
    paragraph of plain prose: the text and a newline. *)
Definition plain_paragraph (text : pystr) : pystr := text ++ [10%N].

Definition an_ordinary_day : date := {| day := 15; month := 3 |}.
Definition april_first : date := {| day := 1; month := 4 |}.

Definition freeform (v : string) (site : pystr) : SearchQuery :=
  {| type := FREEFORM; value := py v; site_url := Some site |}.
Definition bare (v : string) (site : pystr) : SearchQuery :=
  {| type := BARE; value := py v; site_url := Some site |}.

(** ASCII lower-casing, which is [str.lower] on ASCII text. *)
Definition ascii_str_lower (s : pystr) : pystr := map (sre_lower ascii_only) s.

(** A stand-in for urllib that agrees with it on absolute [http(s)] URLs
    with a path and no query or fragment, the shape of a wiki link. *)
Fixpoint until_slash (s : pystr) : pystr * pystr :=
  match s with
  | [] => ([], [])
  | c :: t =>
      if (c =? 47)%N then ([], s)
      else let '(a, b) := until_slash t in (c :: a, b)
  end.

Fixpoint after_double_slash (s : pystr) : pystr :=
  match s with
  | a :: ((b :: t) as s') =>
      if ((a =? 47) && (b =? 47))%N then t else after_double_slash s'
  | _ => []
  end.

Definition toy_netloc (x : pystr) : pystr := fst (until_slash (after_double_slash x)).
Definition toy_path (x : pystr) : pystr := snd (until_slash (after_double_slash x)).
Definition toy_urljoin (base x : pystr) : pystr :=
  match x with
  | 47%N :: _ => take (length base - length (toy_path base)) base ++ x
  | _ => x
  end.

Definition host0 : Host := {|
  unicode := ascii_only;
  sanitize_markdown := plain_paragraph;
  str_lower := ascii_str_lower;
  urljoin := fun base x => inr (toy_urljoin base x);
  urlparse_path := fun x => inr (toy_path x);
  urlsplit_netloc := fun x => inr (toy_netloc x)
|}.

(** The same, but [urlparse] refuses an unclosed bracket in the host, as
    urllib does ("Invalid IPv6 URL"). *)
Definition unclosed_bracket : pystr := py "http://[".
Definition strict_host : Host := {|
  unicode := ascii_only;
  sanitize_markdown := plain_paragraph;
  str_lower := ascii_str_lower;
  urljoin := fun base x => inr (toy_urljoin base x);
  urlparse_path := fun x =>
    if bool_decide (x = unclosed_bracket)
    then inl (OtherError "ValueError") else inr (toy_path x);
  urlsplit_netloc := fun x => inr (toy_netloc x)
|}.

(** A link post whose link urllib refuses. *)
Definition broken_link_post : Submission := {|
  s_id := py "bad999";
  s_created_utc := 1700000000;
  s_url := unclosed_bracket;
  s_is_self := false;
  s_title := py "What is SCP-173?";
  s_selftext := [];
  s_permalink := py "/r/test/comments/bad999";
  s_subreddit := py "SCP"
|}.

(** A link post to the wiki. *)
Definition link_post : Submission := {|
  s_id := py "abc123";
  s_created_utc := 1700000000;
  s_url := py "http://scp-wiki.wikidot.com/scp-173";
  s_is_self := false;
  s_title := py "Check out this SCP";
  s_selftext := [];
  s_permalink := py "/r/test/comments/abc123";
  s_subreddit := py "SCP"
|}.

Definition page_173 : WikidotPage := {|
  url := py "http://scp-wiki.wikidot.com/scp-173";
  title := py "SCP-173";
  rating := 100
|}.

Definition page_answer : response := {|
  wikidotPage := Some page_173;
  matchingPages := Some [];
  searchPages_v1 := None;
  searchUsers_v1 := None
|}.

Definition ok_body (queries : list GraphQLQuery) : body response :=
  BodyList (map (fun _ => {| qr_data := page_answer; qr_errors := None |})
                queries).

(** A session whose token never stops being expired. *)
Definition always_expired : Session response := {|
  session_post := fun _ _ => inl TokenExpiredError;
  session_fetch_token := fun _ => inr tt
|}.

(** A session that answers every query with the page of SCP-173. *)
Definition healthy_session : Session response := {|
  session_post := fun _ queries => inr (ok_body queries);
  session_fetch_token := fun _ => inr tt
|}.

(** A session whose first request fails in transport; later ones succeed. *)
Definition flaky_session : Session response := {|
  session_post := fun calls queries =>
    match calls with
    | [] => inl (OtherError "ConnectionError")
    | _ :: _ => inr (ok_body queries)
    end;
  session_fetch_token := fun _ => inr tt
|}.

(** Two users whose names differ in case only, returned for two queries. *)
Definition user_Foo : User := {| displayName := py "Foo"; userPage := None |}.
Definition user_foo : User := {| displayName := py "foo"; userPage := None |}.
Definition user_answer (who : User) : query_response response := {|
  qr_data := {| wikidotPage := None; matchingPages := None;
                searchPages_v1 := Some []; searchUsers_v1 := Some [who] |};
  qr_errors := None
|}.
Definition two_users_session : Session response := {|
  session_post := fun _ _ =>
    inr (BodyList [user_answer user_Foo; user_answer user_foo]);
  session_fetch_token := fun _ => inr tt
|}.

Definition reply_for (parent text : pystr) : Reply := {|
  r_id := py "reply-to-" ++ parent;
  r_body := text;
  r_permalink := py "/r/test/comments/reply-to-" ++ parent
|}.

(** Reddit accepts every call; the formatter returns a fixed text. *)
Definition outside_with (s : Session response)
    (sticky : exn + unit) : Outside := {|
  today := fun _ => an_ordinary_day;
  session := s;
  generate_response := fun _ _ _ _ => inr (py "Here is info");
  reply_to := fun _ parent text => inr (reply_for parent text);
  edit := fun _ _ _ => inr tt;
  comments_stickied := fun _ _ => inr [];
  distinguish := fun _ _ => sticky
|}.

(** The same with a formatter that raises. *)
Definition outside_without_words (s : Session response) : Outside := {|
  today := fun _ => an_ordinary_day;
  session := s;
  generate_response := fun _ _ _ _ => inl KeyError;
  reply_to := fun _ parent text => inr (reply_for parent text);
  edit := fun _ _ _ => inr tt;
  comments_stickied := fun _ _ => inr [];
  distinguish := fun _ _ => inr tt
|}.

Definition empty_world : World := {|
  events := [];
  session_calls := [];
  replied_text_submissions := ∅;
  replied_comments := ∅;
  responses_counter := ∅
|}.

Definition comment_with (id body : string) : Comment := {|
  c_id := py id;
  c_author := Some {| name := py "regular_user" |};
  c_body := py body;
  c_created_utc := 1700000000;
  c_banned_by := None;
  c_subreddit := py "SCP";
  c_permalink := py "/r/test/comments/abc123/comment/" ++ py id;
  c_context := py "/r/test/comments/abc123/comment/" ++ py id
|}.

Definition is_logged_exception (e : event) : bool :=
  match e with LogException _ => true | _ => false end.

(** How many exceptions the history shows as logged. *)
Definition exceptions_logged (w : World) : nat :=
  length (List.filter is_logged_exception (events w)).


End Fixtures.

(* ===================================================================== *)
(** ** More concrete inputs *)
(* ===================================================================== *)

Module MoreFixtures.
Import Py Re Parse Eff Crom Search Bot Fixtures.

(** A free-text hit whose second look-up finds nothing: the first request
    is answered with one page found by text, every later one with nulls. *)
Definition found_by_text : response := {|
  wikidotPage := None;
  matchingPages := None;
  searchPages_v1 := Some [py "http://scp-wiki.wikidot.com/scp-173"];
  searchUsers_v1 := Some []
|}.

Definition nothing_found : response := {|
  wikidotPage := None;
  matchingPages := None;
  searchPages_v1 := None;
  searchUsers_v1 := None
|}.

Definition lost_page_session : Session response := {|
  session_post := fun calls _ =>
    match calls with
    | [] => inr (BodyList [{| qr_data := found_by_text; qr_errors := None |}])
    | _ :: _ =>
        inr (BodyList [{| qr_data := nothing_found; qr_errors := None |}])
    end;
  session_fetch_token := fun _ => inr tt
|}.

End MoreFixtures.

(* ===================================================================== *)
(** ** response.py: the text of a reply *)
(* ===================================================================== *)

Module Response.
Import Py Re Eff.
Local Open Scope eff_scope.

(** The members of the API's objects that response.py reads.  They are
    more than search.py reads, so a page, a user and a result have records
    of their own here, with the same member names as in [Search]. *)
Record Attribution : Type := {
  a_type : pystr;                    (* [a["type"]] *)
  a_user : pystr                     (* [a["user"]["displayName"]] *)
}.

Record Page : Type := {
  url : pystr;
  title : pystr;
  rating : Z;
  createdAt : pystr;
  alternateTitles : list pystr;      (* the [title] of each *)
  attributions : list Attribution
}.

(** [user.get("userPage", {})]: the key may be missing, hold null, or hold
    an object whose [url] is a string or is missing or null. *)
Inductive UserPage : Type :=
| NoUserPage
| NullUserPage
| UserPageWith (page_url : option pystr).

(** Numbers are integers, as [_format_rating(rating: int)] declares. *)
Record User : Type := {
  displayName : pystr;
  totalRating : Z;
  rank : Z;
  meanRating : Z;
  userPage : UserPage
}.

(** An element of [results], a dict: each key is there or not, and the
    value of ["wikidot_page"] and of ["matching_pages"] may be [None]. *)
Record result : Type := {
  wikidot_page : option (option Page);
  matching_pages : option (option (list Page));
  user : option User
}.

Definition ATTRIBUTION_ORDER : list pystr :=
  [py "SUBMITTER"; py "TRANSLATOR"; py "REWRITE"; py "AUTHOR";
   py "MAINTAINER"].

Definition newline : pystr := [10%N].

(** The separator before an alternate title as the source file has it:
    a space, U+00E2, U+00A0, a hyphen, a space. *)
Definition alternate_title_separator : pystr :=
  [32; 226; 160; 45; 32]%N.

(** [str(n)] for an integer. *)
Definition str_of_int (n : Z) : pystr :=
  py (NilZero.string_of_int (Z.to_int n)).

(** [sep.join(parts)] *)
Fixpoint join (sep : pystr) (parts : list pystr) : pystr :=
  match parts with
  | [] => []
  | [part] => part
  | part :: rest => part ++ sep ++ join sep rest
  end.

(** [list.index], which raises ValueError for a missing element. *)
Fixpoint index (l : list pystr) (x : pystr) : exn + nat :=
  match l with
  | [] => inl (OtherError "ValueError")
  | y :: l' =>
      if decide (y = x) then inr 0
      else match index l' x with
           | inl e => inl e
           | inr i => inr (S i)
           end
  end.

(** [sorted(items, key=...)]: the keys of all items are computed first, in
    order, and the items are then put in the order of their keys, items
    with equal keys staying in the order they came in. *)
Fixpoint keyed {A} (key : A -> exn + nat) (items : list A)
    : exn + list (nat * A) :=
  match items with
  | [] => inr []
  | item :: items' =>
      match key item with
      | inl e => inl e
      | inr k =>
          match keyed key items' with
          | inl e => inl e
          | inr rest => inr ((k, item) :: rest)
          end
      end
  end.

Fixpoint insert_sorted {A} (x : nat * A) (l : list (nat * A))
    : list (nat * A) :=
  match l with
  | [] => [x]
  | y :: l' =>
      if (fst x <=? fst y)%nat then x :: y :: l'
      else y :: insert_sorted x l'
  end.

Definition sorted {A} (items : list A) (key : A -> exn + nat)
    : exn + list A :=
  match keyed key items with
  | inl e => inl e
  | inr pairs => inr (map snd (foldr insert_sorted [] pairs))
  end.

(** The keys of a dict filled by [d[name] = None] for each name in turn:
    every name once, in the order of first appearance. *)
Definition dict_keys (names : list pystr) : list pystr :=
  fold_left (fun keys name =>
               if bool_decide (name ∈ keys) then keys else keys ++ [name])
            names [].

Section WithHost.
Variable u : Unicode.

(** [re.sub(p, repl, s)] for a replacement without group references. *)
Fixpoint sub_with (p : pattern) (repl : pystr) (first : bool) (skip : nat)
    (s : pystr) : pystr :=
  match skip with
  | S n =>
      match s with
      | [] => []
      | _ :: t => sub_with p repl false n t
      end
  | O =>
      match match_at u p first s with
      | Some m =>
          repl ++
          match s with
          | [] => []
          | c :: t =>
              match length (group0 m) with
              | O => c :: sub_with p repl false 0 t
              | S n => sub_with p repl false n t
              end
          end
      | None =>
          match s with
          | [] => []
          | c :: t => c :: sub_with p repl false 0 t
          end
      end
  end.

(** [re.sub(r"^http://", "https://", url)] *)
Definition _httpsify (url : pystr) : pystr :=
  sub_with {| p_icase := false; p_re := Seq Bol (str "http://") |}
           (py "https://") true 0 url.

Definition _format_rating (rating : Z) : pystr :=
  if (0 <=? rating)%Z then py "+" ++ str_of_int rating
  else str_of_int rating.

(** [user.get("userPage", {}).get("url", None)] *)
Definition user_page_url (user : User) : exn + option pystr :=
  match userPage user with
  | NoUserPage => inr None
  | NullUserPage => inl (OtherError "AttributeError")
  | UserPageWith page_url => inr page_url
  end.

(** The part a result adds to [parts] in [_format_short]. *)
Definition short_part (r : result) : exn + list pystr :=
  match wikidot_page r with
  | Some None => inl TypeError
  | Some (Some page) =>
      inr [py "[" ++ title page ++ py "](" ++ _httpsify (url page) ++ py ")"]
  | None =>
      match user r with
      | Some who =>
          match user_page_url who with
          | inl e => inl e
          | inr page_url =>
              if Bot.truthy page_url then
                inr [py "[*" ++ displayName who ++ py "*]("
                     ++ _httpsify (default [] page_url) ++ py ")"]
              else inr [displayName who]
          end
      | None => inr []
      end
  end.

Fixpoint short_parts (parts : list pystr) (results : list result)
    : exn + list pystr :=
  match results with
  | [] => inr parts
  | r :: results' =>
      match short_part r with
      | inl e => inl e
      | inr new => short_parts (parts ++ new) results'
      end
  end.

Definition _format_short (results : list result) : exn + pystr :=
  match short_parts [] results with
  | inl e => inl e
  | inr parts => inr (join (py ", ") parts ++ py ".")
  end.

Definition _generate_user_response (who : User) (as_list_item : bool)
    : exn + pystr :=
  match user_page_url who with
  | inl e => inl e
  | inr page_url =>
      let comment := if as_list_item then py "- " else [] in
      let comment := comment ++ py "**" in
      let comment :=
        if Bot.truthy page_url then
          comment ++ py "[" ++ displayName who ++ py "]("
                  ++ _httpsify (default [] page_url) ++ py ")"
        else comment ++ displayName who in
      let comment :=
        comment ++ py "** (*ranked #" ++ str_of_int (rank who)
                ++ py ", total rating: " ++ _format_rating (totalRating who)
                ++ py ", mean rating: " ++ _format_rating (meanRating who)
                ++ py ")*" in
      inr (comment ++ newline)
  end.

(** The clock and the libraries.  Datetimes are microseconds; the state
    of a computation is the number of times the clock has been read. *)
Record Env : Type := {
  now : nat -> Z;                              (* the n-th [datetime.now()] *)
  fromisoformat : pystr -> exn + Z;
  timeago_format : Z -> Z -> pystr;
  netloc : pystr -> pystr                      (* [urlparse(x).netloc] *)
}.

Variable env : Env.

Definition Clock (A : Type) : Type := M nat A.

Definition read_clock : Clock Z := fun n => (inr (now env n), S n).

Definition week : Z := 604800000000.

Definition attribution_rank (a : Attribution) : exn + nat :=
  index ATTRIBUTION_ORDER (a_type a).

(** The names after "by": of the translators when this is a translation
    and there are any, of everybody otherwise. *)
Definition attribution_names (is_translation : bool)
    (sorted_attributions : list Attribution) : list pystr :=
  let translators :=
    if is_translation then
      dict_keys (map a_user
                     (List.filter
                        (fun a => bool_decide (a_type a = py "TRANSLATOR"))
                        sorted_attributions))
    else [] in
  match translators with
  | [] => dict_keys (map a_user sorted_attributions)
  | _ :: _ => translators
  end.

(** [next((t for t in pages if netloc(t.url) == "scp-wiki.wikidot.com"),
    next((t for t in pages if netloc(t.url) == "scp-int.wikidot.com"),
    None))] *)
Definition english_translation (pages : list Page) : option Page :=
  match find (fun t => bool_decide (netloc env (url t)
                                    = py "scp-wiki.wikidot.com")) pages with
  | Some t => Some t
  | None =>
      find (fun t => bool_decide (netloc env (url t)
                                  = py "scp-int.wikidot.com")) pages
  end.

(** [_generate_page_response], with the call it makes to itself for the
    translation as the parameter [translated]. *)
Definition page_response_with (translated : Page -> Clock pystr)
    (wikidot_page : Page) (matching_pages : option (list Page))
    (as_list_item is_submission_url is_translation : bool) : Clock pystr :=
  let page_url := url wikidot_page in
  let page_title := title wikidot_page in
  let page_rating := rating wikidot_page in
  let* created_at :=
    outcome (fromisoformat env (removelast (createdAt wikidot_page))) in
  let alternate_title := head (alternateTitles wikidot_page) in
  let* sorted_attributions :=
    outcome (sorted (attributions wikidot_page) attribution_rank) in
  let comment := if as_list_item then py "- " else [] in
  let comment := comment ++ py "[**" ++ page_title in
  let comment :=
    if Bot.truthy alternate_title
       && negb (bool_decide (alternate_title = Some page_title))
    then comment ++ alternate_title_separator ++ default [] alternate_title
    else comment in
  let comment := comment ++ py "**](" ++ _httpsify page_url ++ py ")" in
  let comment :=
    if negb is_submission_url
    then comment ++ py " (" ++ _format_rating page_rating ++ py ")"
    else comment in
  let* comment :=
    match sorted_attributions with
    | [] => ret comment
    | _ :: _ =>
        let comment := comment ++ py " " in
        let* first_reading := read_clock in
        let* comment :=
          if (first_reading - created_at <? week)%Z then
            let* second_reading := read_clock in
            ret (comment ++ py "posted "
                         ++ timeago_format env created_at second_reading
                         ++ py " ")
          else ret comment in
        ret (comment ++ py "by *"
                     ++ join (py ", ")
                             (attribution_names is_translation
                                                sorted_attributions)
                     ++ py "*")
    end in
  let* comment :=
    match matching_pages with
    | Some pages =>
        if negb (bool_decide (netloc env page_url
                              = py "scp-wiki.wikidot.com"))
        then
          match english_translation pages with
          | Some translation =>
              let comment := comment ++ newline in
              let comment :=
                if as_list_item then comment ++ py "  - "
                else comment ++ newline in
              let comment := comment ++ py "Translated: " in
              let* inner := translated translation in
              ret (comment ++ inner)
          | None => ret comment
          end
        else ret comment
    | None => ret comment
    end in
  ret (comment ++ newline).

(** The inner call passes [matching_pages=None], so it calls nothing
    further. *)
Definition translation_response (translation : Page) : Clock pystr :=
  page_response_with (fun _ => ret []) translation None false false true.

Definition _generate_page_response (wikidot_page : Page)
    (matching_pages : option (list Page))
    (as_list_item is_submission_url is_translation : bool) : Clock pystr :=
  page_response_with translation_response wikidot_page matching_pages
                     as_list_item is_submission_url is_translation.

(** What one result adds to [comment] in [generate_response]. *)
Definition response_block (submission_url : option pystr)
    (as_list_item : bool) (r : result) : Clock pystr :=
  match wikidot_page r with
  | Some None => raise TypeError
  | Some (Some page) =>
      _generate_page_response page
        (match matching_pages r with
         | Some pages => pages
         | None => Some []
         end)
        as_list_item
        (bool_decide (Some (url page) = submission_url))
        false
  | None =>
      match user r with
      | Some who => outcome (_generate_user_response who as_list_item)
      | None => ret []
      end
  end.

Fixpoint response_loop (submission_url : option pystr) (as_list_item : bool)
    (comment : pystr) (results : list result) : Clock pystr :=
  match results with
  | [] => ret comment
  | r :: results' =>
      let* block := response_block submission_url as_list_item r in
      response_loop submission_url as_list_item (comment ++ block) results'
  end.

Definition submission_header : pystr :=
  py "**Articles mentioned in this submission**" ++ newline ++ newline.

Definition generate_response (results : list result) (is_submission : bool)
    (submission_url : option pystr) : Clock pystr :=
  if (10 <? length results)%nat && negb is_submission
  then outcome (_format_short results)
  else
    let comment := if is_submission then submission_header else [] in
    response_loop submission_url (1 <? length results)%nat comment results.
End WithHost.

End Response.

(* ===================================================================== *)
(** ** Fixtures for response.py *)
(* ===================================================================== *)

Module ResponseFixtures.
Import Py Re Eff Response Fixtures.

(** A clock that stands still long after every page was created, and
    [urlparse] as in the other fixtures. *)
Definition still_env : Env := {|
  now := fun _ => 1000000000000000%Z;
  fromisoformat := fun _ => inr 0%Z;
  timeago_format := fun _ _ => py "1 day ago";
  netloc := toy_netloc
|}.

Definition scp_173 : Page := {|
  url := py "http://scp-wiki.wikidot.com/scp-173";
  title := py "SCP-173";
  rating := 500;
  createdAt := py "2024-01-01T00:00:00Z";
  alternateTitles := [];
  attributions := [{| a_type := py "AUTHOR"; a_user := py "Moto42" |}]
|}.

Definition djkaktus : User := {|
  displayName := py "djkaktus";
  totalRating := 50000;
  rank := 1;
  meanRating := 100;
  userPage := UserPageWith (Some (py "http://scp-wiki.wikidot.com/djkaktus"))
|}.

Definition page_result (p : Page) : result :=
  {| wikidot_page := Some (Some p); matching_pages := Some (Some []);
     user := None |}.

Definition user_result (who : User) : result :=
  {| wikidot_page := None; matching_pages := None; user := Some who |}.

End ResponseFixtures.

(* ===================================================================== *)
(** ** bot.py: revisiting what was replied to *)
(* ===================================================================== *)

Module Revisit.
Import Py Eff Parse Search Bot.
Local Open Scope eff_scope.

(** A dict as Python keeps it, in the order of insertion, which is the
    order [list(d.values())] reads it in. *)
Definition ordered_dict (V : Type) : Type := list (pystr * V).

Definition values {V} (d : ordered_dict V) : list V := map snd d.

(** [del d[k]], which raises KeyError when the key is not there. *)
Definition del {V} (k : pystr) (d : ordered_dict V)
    : exn + ordered_dict V :=
  if bool_decide (k ∈ map fst d)
  then inr (List.filter (fun kv => negb (bool_decide (fst kv = k))) d)
  else inl KeyError.

(** What a revisit does to the outside, in order: the fetch that the
    first attribute read of [reddit.submission(id=...)] or
    [reddit.comment(id=...)] makes, [reply.delete()], and the log line. *)
Inductive call : Type :=
| Fetch (id : pystr)
| Delete (reply : Reply)
| LogUpdated (what permalink : pystr).

(** Reddit and the clock; an answer may depend on the calls made so far.
    A datetime is a number of microseconds. *)
Record Reddit (Fresh : Type) : Type := {
  fetch : list call -> pystr -> exn + Fresh;
  delete : list call -> Reply -> exn + unit;
  now : list call -> Z;                       (* [datetime.datetime.now()] *)
  fromtimestamp : Z -> Z           (* [datetime.datetime.fromtimestamp] *)
}.
Arguments fetch {Fresh}.
Arguments delete {Fresh}.
Arguments now {Fresh}.
Arguments fromtimestamp {Fresh}.

(** The dict that is passed in, and the calls made so far. *)
Record Visit (V : Type) : Type := {
  replied : ordered_dict V;
  calls : list call
}.
Arguments replied {V}.
Arguments calls {V}.

(** A submission as [reddit.submission(id=...)] gives it, with the two
    members that only a revisit reads. *)
Record UpdatedSubmission : Type := {
  us_submission : Submission;
  us_author : option Author;
  us_removed_by_category : option pystr
}.

Definition DEFAULT_REVISIT_AGE : Z := 120000000.   (* [timedelta(minutes=2)] *)

Section Loop.
(** The two functions differ in the members they read and in the word of
    the log line; the body they share is written once. *)
Context {Item Fresh : Type}.
Variable item_id : Item -> pystr.
Variable item_created_utc : Item -> Z.
Variable item_text : Item -> pystr.
Variable item_permalink : Item -> pystr.
Variable gone : Fresh -> bool.
Variable fresh_text : Fresh -> pystr.
Variable what : pystr.
Variable reddit : Reddit Fresh.

Definition Entry : Type := Item * list SearchQuery * Reply.
Definition Revisits : Type := list (Fresh * list SearchQuery * Reply).

Definition made (c : call) : M (Visit Entry) unit :=
  modify (fun v => {| replied := replied v; calls := calls v ++ [c] |}).

Definition del_replied (k : pystr) : M (Visit Entry) unit :=
  fun v =>
    match del k (replied v) with
    | inl e => (inl e, v)
    | inr d => (inr tt, {| replied := d; calls := calls v |})
    end.

Definition fetch_updated (id : pystr) : M (Visit Entry) Fresh :=
  fun v =>
    (fetch reddit (calls v) id,
     {| replied := replied v; calls := calls v ++ [Fetch id] |}).

Definition delete_reply (reply : Reply) : M (Visit Entry) unit :=
  fun v =>
    (delete reddit (calls v) reply,
     {| replied := replied v; calls := calls v ++ [Delete reply] |}).

(** The body of the [for] loop. *)
Definition revisit_entry (cutoff_time : Z) (revisits : Revisits)
    (entry : Entry) : M (Visit Entry) Revisits :=
  let '(item, search_queries, reply) := entry in
  if (fromtimestamp reddit (item_created_utc item) <? cutoff_time)%Z then
    let* _ := del_replied (item_id item) in
    let* updated := fetch_updated (item_id item) in
    if gone updated then
      let* _ := delete_reply reply in
      ret revisits
    else if negb (bool_decide (fresh_text updated = item_text item)) then
      let* _ := made (LogUpdated what (item_permalink item)) in
      ret (revisits ++ [(updated, search_queries, reply)])
    else ret revisits
  else ret revisits.

Fixpoint revisit_loop (cutoff_time : Z) (revisits : Revisits)
    (snapshot : list Entry) : M (Visit Entry) Revisits :=
  match snapshot with
  | [] => ret revisits
  | entry :: snapshot' =>
      let* revisits' := revisit_entry cutoff_time revisits entry in
      revisit_loop cutoff_time revisits' snapshot'
  end.

Definition check_revisit (revisit_age : Z) : M (Visit Entry) Revisits :=
  let* v := get in
  let cutoff_time := (now reddit (calls v) - revisit_age)%Z in
  revisit_loop cutoff_time [] (values (replied v)).
End Loop.

Definition submission_gone (updated : UpdatedSubmission) : bool :=
  match us_author updated, us_removed_by_category updated with
  | Some _, None => false
  | _, _ => true
  end.

Definition comment_gone (updated : Comment) : bool :=
  match c_author updated, c_banned_by updated with
  | Some _, None => false
  | _, _ => true
  end.

Definition _check_revisit_submissions (reddit : Reddit UpdatedSubmission)
    (revisit_age : Z)
    : M (Visit (Submission * list SearchQuery * Reply))
        (list (UpdatedSubmission * list SearchQuery * Reply)) :=
  check_revisit s_id s_created_utc s_selftext s_permalink
                submission_gone (fun updated => s_selftext (us_submission updated))
                (py "Submission") reddit revisit_age.

Definition _check_revisit_comments (reddit : Reddit Comment)
    (revisit_age : Z)
    : M (Visit (Comment * list SearchQuery * Reply))
        (list (Comment * list SearchQuery * Reply)) :=
  check_revisit c_id c_created_utc c_body c_permalink
                comment_gone c_body (py "Comment") reddit revisit_age.

(** The dicts of [start_bot] are filled by [d[item.id] = (item, ...)]:
    every key is the id of the item stored under it, and a dict has each
    key once. *)
Definition keyed_by_id {Item : Type} (item_id : Item -> pystr)
    (d : ordered_dict (Item * list SearchQuery * Reply)) : Prop :=
  NoDup (map fst d)
  /\ Forall (fun kv => fst kv = item_id (fst (fst (snd kv)))) d.

(** The same for the dicts of the process state, and what it is for a
    dict in order to be one of them. *)
Definition world_keyed_by_id (w : World) : Prop :=
  (forall k submission search_queries reply,
      replied_text_submissions w !! k
      = Some (submission, search_queries, reply) ->
      k = s_id submission)
  /\ (forall k comment search_queries reply,
        replied_comments w !! k = Some (comment, search_queries, reply) ->
        k = c_id comment).

Definition lists {V : Type} (d : ordered_dict V) (m : gmap pystr V) : Prop :=
  NoDup (map fst d) /\ forall k v, In (k, v) d <-> m !! k = Some v.

End Revisit.

Module RevisitFixtures.
Import Py Eff Parse Search Bot Fixtures Revisit.

(** A Reddit on which the comment "removed" has lost its author, the
    comment "down" cannot be fetched, and every other comment now reads
    "See SCP-999"; it is 500 seconds after the fixtures' comments were
    made. *)
Definition later_reddit : Reddit Comment := {|
  fetch := fun _ id =>
    if bool_decide (id = py "down") then inl (OtherError "ServerError")
    else if bool_decide (id = py "removed") then
      inr {| c_id := id; c_author := None; c_body := py "[removed]";
             c_created_utc := 1700000000; c_banned_by := None;
             c_subreddit := py "SCP"; c_permalink := []; c_context := [] |}
    else
      inr {| c_id := id; c_author := Some {| name := py "regular_user" |};
             c_body := py "See SCP-999";
             c_created_utc := 1700000000; c_banned_by := None;
             c_subreddit := py "SCP"; c_permalink := []; c_context := [] |};
  delete := fun _ _ => inr tt;
  now := fun _ => 1700000500000000%Z;
  fromtimestamp := fun t => (t * 1000000)%Z
|}.

Definition remembered (id body : string)
    : pystr * (Comment * list SearchQuery * Reply) :=
  (py id, (comment_with id body, [bare "173" (py "scp-wiki.wikidot.com")],
           reply_for (py id) (py "Here is info"))).

(** A comment made ten seconds before [now] of [later_reddit]. *)
Definition fresh_comment : Comment := {|
  c_id := py "fresh";
  c_author := Some {| name := py "regular_user" |};
  c_body := py "See SCP-173";
  c_created_utc := 1700000490;
  c_banned_by := None;
  c_subreddit := py "SCP";
  c_permalink := py "/r/test/comments/abc123/comment/fresh";
  c_context := py "/r/test/comments/abc123/comment/fresh"
|}.

Definition remembered_fresh
    : pystr * (Comment * list SearchQuery * Reply) :=
  (py "fresh", (fresh_comment, [bare "173" (py "scp-wiki.wikidot.com")],
                reply_for (py "fresh") (py "Here is info"))).

Definition visit_of (d : ordered_dict (Comment * list SearchQuery * Reply))
    : Visit (Comment * list SearchQuery * Reply) :=
  {| replied := d; calls := [] |}.

Definition four_remembered
    : ordered_dict (Comment * list SearchQuery * Reply) :=
  [remembered "edited" "See SCP-173"; remembered_fresh;
   remembered "removed" "See SCP-173"; remembered "same" "See SCP-999"].

Definition three_remembered
    : ordered_dict (Comment * list SearchQuery * Reply) :=
  [remembered "edited" "See SCP-173"; remembered "down" "See SCP-173";
   remembered "same" "See SCP-999"].

End RevisitFixtures.

(* ===================================================================== *)
(** * Properties *)
(* ===================================================================== *)

Module ParseTests.
Import Re Parse Fixtures.

(** The cases of parse_test.py that exercise the stages, replayed on the
    model; the interpreter's tables are left arbitrary. *)
Section Replay.
Variable u : Unicode.
Let run (now : date) (text : string) (context : ParseContext) :=
  parse u plain_paragraph now (py text) context.

Example test_single_modern_match :
  run an_ordinary_day "Check out [[SCP-173]]" COMMENT_BODY
  = [freeform "SCP-173" primary_site].
Proof. vm_compute. reflexivity. Qed.

Example test_whitespace_only_modern_match_ignored :
  run an_ordinary_day "[[   ]]" COMMENT_BODY = [].
Proof. vm_compute. reflexivity. Qed.

Example test_modern_match_international_jp :
  run an_ordinary_day "[[SCP-173-JP]]" COMMENT_BODY
  = [freeform "SCP-173-JP" (py "http://scp-jp.wikidot.com")].
Proof. vm_compute. reflexivity. Qed.

Example test_bare_mention_with_space :
  run an_ordinary_day "SCP 173 is scary" COMMENT_BODY
  = [freeform "SCP 173" primary_site].
Proof. vm_compute. reflexivity. Qed.

Example test_bare_mention_with_suffix :
  run an_ordinary_day "SCP-049-J is funny" COMMENT_BODY
  = [freeform "SCP-049-J" primary_site].
Proof. vm_compute. reflexivity. Qed.

Example test_bare_mention_case_insensitive :
  run an_ordinary_day "scp-173 and SCP-999" COMMENT_BODY
  = [freeform "scp-173" primary_site; freeform "SCP-999" primary_site].
Proof. vm_compute. reflexivity. Qed.

Example test_five_digit_scp :
  run an_ordinary_day "SCP-10000 is cool" COMMENT_BODY = [].
Proof. vm_compute. reflexivity. Qed.

Example test_jp_branch :
  run an_ordinary_day "SCP-173-JP is cool" COMMENT_BODY
  = [bare "173-JP" (py "http://scp-jp.wikidot.com")].
Proof. vm_compute. reflexivity. Qed.

Example test_cn_branch_prefix :
  run an_ordinary_day "SCP-CN-173" COMMENT_BODY
  = [bare "CN-173" (py "http://scp-wiki-cn.wikidot.com")].
Proof. vm_compute. reflexivity. Qed.

Example test_it_branch_suffix :
  run an_ordinary_day "SCP 173-IT" COMMENT_BODY
  = [bare "173-IT" italian_site].
Proof. vm_compute. reflexivity. Qed.

Example test_it_branch_suffix_negative :
  run an_ordinary_day "SCP-173 IT IS SCARY" COMMENT_BODY
  = [freeform "SCP-173" primary_site].
Proof. vm_compute. reflexivity. Qed.

Example test_int_branch :
  run an_ordinary_day "SCP-173 INT" COMMENT_BODY
  = [bare "173 INT" (py "http://scp-int.wikidot.com")].
Proof. vm_compute. reflexivity. Qed.

Example test_url_removed :
  run an_ordinary_day "Check https://example.com/SCP-173 for info"
      COMMENT_BODY = [].
Proof. vm_compute. reflexivity. Qed.

Example test_decimal_number_not_matched :
  run an_ordinary_day "The value is 3.141 and SCP-173" COMMENT_BODY
  = [freeform "SCP-173" primary_site].
Proof. vm_compute. reflexivity. Qed.

Example test_username_mention_with_slash_removed :
  run an_ordinary_day "Hey /u/SCP-173 check this out" COMMENT_BODY = [].
Proof. vm_compute. reflexivity. Qed.

Example test_spoiler_tag_content_removed :
  run an_ordinary_day "Spoiler: >!SCP-173 is scary!<" COMMENT_BODY = [].
Proof. vm_compute. reflexivity. Qed.

Example test_modern_match_not_affected_by_false_positives :
  run an_ordinary_day "[[3.141]]" COMMENT_BODY
  = [freeform "3.141" primary_site].
Proof. vm_compute. reflexivity. Qed.

Example test_submission_title_no_markdown_sanitization :
  run an_ordinary_day "[SCP-173](url)" SUBMISSION_TITLE
  = [freeform "SCP-173" primary_site].
Proof. vm_compute. reflexivity. Qed.

Example test_scp2_on_april_fools :
  run april_first "The number 2 is interesting" COMMENT_BODY
  = [bare "2" primary_site].
Proof. vm_compute. reflexivity. Qed.

Example test_scp2_not_on_regular_day :
  run an_ordinary_day "The number 2 is interesting" COMMENT_BODY = [].
Proof. vm_compute. reflexivity. Qed.

Example test_scp2_only_in_comment_body :
  run april_first "The number 2 is interesting" SUBMISSION_TITLE = [].
Proof. vm_compute. reflexivity. Qed.

Example test_international_and_english_together :
  run an_ordinary_day "SCP-173-JP and SCP-999" COMMENT_BODY
  = [bare "173-JP" (py "http://scp-jp.wikidot.com");
     freeform "SCP-999" primary_site].
Proof. vm_compute. reflexivity. Qed.
End Replay.

End ParseTests.

(* ===================================================================== *)
(** ** The matcher, and the bare pattern on catalog numbers *)
(* ===================================================================== *)

Module ReProps.
Import Re Parse.

Section Classes.
Variable u : Unicode.

Lemma digit_is_word (c : N) : sre_digit u c = true -> sre_word u c = true.
Proof.
  unfold sre_digit, sre_word, sre_alnum.
  destruct (is_ascii c); intros ->.
  - now rewrite orb_true_r.
  - now rewrite orb_true_r.
Qed.

Lemma not_word_not_digit (c : N) : sre_word u c = false -> sre_digit u c = false.
Proof.
  intros Hw. destruct (sre_digit u c) eqn:Hd; [|reflexivity].
  apply digit_is_word in Hd. congruence.
Qed.

(** A digit is neither the hyphen nor the space. *)
Lemma digit_not_separator (c : N) :
  sre_digit u c = true -> (c =? 45)%N = false /\ (c =? 32)%N = false.
Proof.
  unfold sre_digit, is_ascii, ascii_decimal, between.
  destruct (N.ltb_spec c 128).
  - intros [H1 H2]%andb_true_iff. apply N.leb_le in H1, H2.
    split; apply N.eqb_neq; lia.
  - intros _. split; apply N.eqb_neq; lia.
Qed.

Lemma digit_set (icase : bool) (c : N) :
  set_match u icase false [IDigit] c = sre_digit u c.
Proof.
  unfold set_match. cbn [existsb item_cased item_match xorb].
  rewrite andb_false_r. now rewrite orb_false_r.
Qed.

Lemma word_set (icase : bool) (c : N) :
  set_match u icase false [IWord] c = sre_word u c.
Proof.
  unfold set_match. cbn [existsb item_cased item_match xorb].
  rewrite andb_false_r. now rewrite orb_false_r.
Qed.

Lemma separator_set (icase : bool) (c : N) :
  set_match u icase false [ILit 45; ILit 32] c
  = ((c =? 45) || (c =? 32))%N.
Proof.
  unfold set_match. cbn [existsb item_cased item_match xorb].
  replace (ascii_letter 45) with false by reflexivity.
  replace (ascii_letter 32) with false by reflexivity.
  cbn [orb]. rewrite andb_false_r. now rewrite orb_false_r.
Qed.

Lemma hyphen_lit (icase : bool) (c : N) :
  lit_match u icase 45 c = (c =? 45)%N.
Proof.
  unfold lit_match. replace (ascii_letter 45) with false by reflexivity.
  now rewrite andb_false_r.
Qed.
End Classes.


Section Engine.
Variable u : Unicode.
Variable icase : bool.

Lemma rep_loop_continues (body : mstate -> cont -> option mstate)
    (greedy : bool) (lo : nat) (hi : option nat) (fuel : nat) :
  continues body -> continues (rep_loop body greedy lo hi fuel).
Proof.
  intros Hbody. revert lo hi.
  induction fuel as [|fuel IH]; intros lo hi st k res; cbn [rep_loop].
  - destruct lo; [|discriminate]. intros Hk. exists st. split; [exact Hk|done].
  - assert (Hmore : forall r,
               match hi with
               | Some 0 => None
               | _ => body st (fun st' =>
                        rep_loop body greedy (pred lo) (option_map pred hi)
                                 fuel st' k)
               end = Some r ->
               exists st', k st' = Some r /\ suffix (rest st') (rest st)).
    { intros r Hr.
      assert (Hrun : body st (fun st' =>
                        rep_loop body greedy (pred lo) (option_map pred hi)
                                 fuel st' k) = Some r)
        by (destruct hi as [[|n]|]; [discriminate|exact Hr|exact Hr]).
      apply Hbody in Hrun as (st1 & Hloop & Hsuf1).
      apply IH in Hloop as (st' & Hk & Hsuf).
      exists st'. split; [exact Hk|]. now transitivity (rest st1). }
    assert (Hstop : forall r,
               match lo with 0 => k st | S _ => None end = Some r ->
               exists st', k st' = Some r /\ suffix (rest st') (rest st)).
    { intros r Hr. destruct lo; [|discriminate]. exists st. split; [exact Hr|done]. }
    destruct greedy.
    + destruct (match hi with Some 0 => None | _ => _ end) as [r|] eqn:Hm.
      * intros [= <-]. now apply Hmore.
      * apply Hstop.
    + destruct (match lo with 0 => k st | S _ => None end) as [r|] eqn:Hs.
      * intros [= <-]. now apply Hstop.
      * apply Hmore.
Qed.

Lemma rmatch_continues (r : regex) : continues (rmatch u icase r).
Proof.
  induction r as [| p | | negated items | a IHa b IHb | a IHa b IHb
                 | greedy lo hi a IHa | a IHa | a IHa | | ];
    intros st k res; cbn [rmatch].
  - intros Hk. exists st. split; [exact Hk|done].
  - destruct (rest st) as [|c t] eqn:Hrest; [discriminate|].
    destruct (lit_match u icase p c); [|discriminate].
    intros Hk. exists (advance st t). split; [exact Hk|].
    cbn [rest advance]. now apply suffix_cons_r.
  - destruct (rest st) as [|c t] eqn:Hrest; [discriminate|].
    intros Hk. exists (advance st t). split; [exact Hk|].
    cbn [rest advance]. now apply suffix_cons_r.
  - destruct (rest st) as [|c t] eqn:Hrest; [discriminate|].
    destruct (set_match u icase negated items c); [|discriminate].
    intros Hk. exists (advance st t). split; [exact Hk|].
    cbn [rest advance]. now apply suffix_cons_r.
  - intros Ha. apply IHa in Ha as (st1 & Hb & Hsuf1).
    apply IHb in Hb as (st' & Hk & Hsuf).
    exists st'. split; [exact Hk|]. now transitivity (rest st1).
  - destruct (rmatch u icase a st k) as [r|] eqn:Ha.
    + intros [= <-]. now apply IHa.
    + apply IHb.
  - apply rep_loop_continues. exact IHa.
  - intros Ha. apply IHa in Ha as (st1 & Hk & Hsuf).
    exists (close_group st st1). split; [exact Hk|exact Hsuf].
  - destruct (rmatch u icase a st Some); [discriminate|].
    intros Hk. exists st. split; [exact Hk|done].
  - destruct (at_start st); [|discriminate].
    intros Hk. exists st. split; [exact Hk|done].
  - intros Hk.
    assert (Hk' : k st = Some res).
    { destruct (rest st) as [|c [|c' t]]; [exact Hk| |discriminate].
      destruct (c =? 10)%N; [exact Hk|discriminate]. }
    exists st. split; [exact Hk'|done].
Qed.

(** A greedy repetition that may stop where it stands succeeds whenever
    what follows it does. *)
Lemma greedy_rep_succeeds (body : mstate -> cont -> option mstate)
    (hi : option nat) (fuel : nat) (st : mstate) (k : cont) :
  is_Some (k st) -> is_Some (rep_loop body true 0 hi fuel st k).
Proof.
  intros Hk. destruct fuel as [|fuel]; cbn [rep_loop]; [exact Hk|].
  destruct (match hi with Some 0 => None | _ => _ end); [eauto|exact Hk].
Qed.
End Engine.

Section Matches.
Variable u : Unicode.
Variable p : pattern.

Lemma consumed_splits (s r : pystr) : suffix r s -> consumed s r ++ r = s.
Proof.
  intros [front ->]. unfold consumed. rewrite length_app.
  replace (length front + length r - length r) with (length front) by lia.
  now rewrite take_app_length.
Qed.

(** A match object splits the text at which it was found. *)
Lemma match_at_splits (first : bool) (s : pystr) (m : mobj) :
  match_at u p first s = Some m -> group0 m ++ after m = s.
Proof.
  unfold match_at.
  destruct (rmatch u (p_icase p) (p_re p) (start_state first s) Some)
    as [st|] eqn:Hrun; [|discriminate].
  intros [= <-]. apply rmatch_continues in Hrun as (st' & [= ->] & Hsuf).
  cbn [to_mobj group0 after]. now apply consumed_splits.
Qed.

(** Every match [finditer] reports was found by an attempt at some place
    of the text. *)
Lemma finditer_from_sound (first : bool) (skip : nat) (s : pystr) (m : mobj) :
  In m (finditer_from u p first skip s) ->
  exists b s', suffix s' s /\ match_at u p b s' = Some m.
Proof.
  revert first skip.
  induction s as [|c s IH]; intros first skip.
  - destruct skip; cbn [finditer_from]; [|intros []].
    destruct (match_at u p first []) as [m'|] eqn:Hm; [|intros []].
    intros [<-|[]]. exists first, []. split; [done|exact Hm].
  - destruct skip as [|skip]; cbn [finditer_from].
    + destruct (match_at u p first (c :: s)) as [m'|] eqn:Hm.
      * intros [<-|Hin].
        -- exists first, (c :: s). split; [done|exact Hm].
        -- apply IH in Hin as (b & s' & Hsuf & Hs').
           exists b, s'. split; [now apply suffix_cons_r|exact Hs'].
      * intros Hin. apply IH in Hin as (b & s' & Hsuf & Hs').
        exists b, s'. split; [now apply suffix_cons_r|exact Hs'].
    + intros Hin. apply IH in Hin as (b & s' & Hsuf & Hs').
      exists b, s'. split; [now apply suffix_cons_r|exact Hs'].
Qed.
End Matches.

Ltac explicit_pattern :=
  match goal with
  | |- context [p_re ?p] =>
      let r := fresh "r" in
      set (r := p_re p); vm_compute in r; subst r
  end;
  match goal with
  | |- context [p_icase ?p] =>
      let b := fresh "b" in
      set (b := p_icase p); vm_compute in b; subst b
  end.

Ltac step :=
  cbn [rmatch rep_loop rest advance grp at_start close_group pred option_map
       length start_state fmap option_fmap];
  rewrite ?digit_set, ?word_set, ?separator_set, ?hyphen_lit.

Section Bare.
Variable u : Unicode.


(** What the group of the bare pattern holds when the pattern's last
    element lets the match through. *)
Lemma bare_group_closed (st0 st' res : mstate) :
  match
    match rest st' with
    | [] => None
    | n :: t =>
        if set_match u true false [IWord] n
        then Some (advance (close_group st0 st') t)
        else None
    end
  with
  | Some _ => None
  | None => Some (close_group st0 st')
  end = Some res ->
  res = close_group st0 st'.
Proof.
  destruct (match rest st' with [] => None | _ => _ end);
    [discriminate|]. now intros [= <-].
Qed.

Lemma prefix_of_consumed (span rest r : pystr) :
  suffix r rest -> span `prefix_of` consumed (span ++ rest) r.
Proof.
  intros [front ->]. unfold consumed. rewrite !length_app.
  replace (length span + (length front + length r) - length r)
    with (length span + length front) by lia.
  rewrite take_app_add'; [|reflexivity]. now apply prefix_app_r.
Qed.

Lemma same_option {T} (x : option T) :
  match x with Some r => Some r | None => None end = x.
Proof. now destruct x. Qed.

(** A greedy loop that may stop at once, before something that succeeds
    where the loop starts: the whole succeeds, with what follows it run
    somewhere further on. *)
Lemma greedy_tail (a : regex) (hi : option nat) (st : mstate) (k : cont) :
  is_Some (k st) ->
  exists st' res,
    rmatch u true (Rep true 0 hi a) st k = Some res
    /\ k st' = Some res
    /\ suffix (rest st') (rest st).
Proof.
  intros Hk.
  destruct (greedy_rep_succeeds (rmatch u true a) hi (length (rest st)) st k Hk)
    as [res Hres].
  destruct (rmatch_continues u true (Rep true 0 hi a) st k res Hres)
    as (st' & Hk' & Hsuf).
  eauto.
Qed.

Ltac hide_suffix_loop :=
  match goal with
  | |- context [Rep true 0 None ?a] =>
      let tail := fresh "tail" in
      set (tail := Rep true 0 None a)
  end.

(** The loop over the hyphenated suffixes, the end of the group and the
    look-ahead, once the digits are read and no word character follows. *)
Ltac run_suffix_loop Hrest :=
  match goal with
  | tail := Rep true 0 None ?a |- context [rmatch ?v true ?t ?st ?k] =>
      let st' := fresh "st'" in
      let res := fresh "res" in
      let Hrun := fresh "Hrun" in
      let Hk := fresh "Hk" in
      let Hsuf := fresh "Hsuf" in
      let Hsome := fresh "Hsome" in
      assert (Hsome : is_Some (k st))
        by (cbn [rest advance close_group]; rewrite ?word_set, ?Hrest;
            unfold is_Some; eexists; reflexivity);
      pose proof (greedy_tail a None st k Hsome)
        as (st' & res & Hrun & Hk & Hsuf);
      clear Hsome;
      fold tail in Hrun; rewrite Hrun;
      cbn [rest advance close_group] in Hk, Hsuf;
      apply bare_group_closed in Hk; subst res;
      eexists; split; [reflexivity|];
      cbn [group_1 to_mobj group1 close_group grp default from_option id rest
           start_state];
      match goal with
      | |- ?span `prefix_of` consumed _ _ =>
          apply (prefix_of_consumed span _ _ Hsuf)
      end
  end.

Lemma bare_accepts (first : bool) (s c p x : N) (digits rest : pystr) :
  lit_match u true 83 s = true -> lit_match u true 67 c = true ->
  lit_match u true 80 p = true ->
  ((x =? 45) || (x =? 32))%N = true ->
  length digits = 3 \/ length digits = 4 ->
  Forall (fun d => sre_digit u d = true) digits ->
  match rest with [] => True | n :: _ => sre_word u n = false end ->
  exists m,
    match_at u _BARE_MATCH_REGEX first (s :: c :: p :: x :: digits ++ rest)
    = Some m
    /\ (s :: c :: p :: x :: digits) `prefix_of` group_1 m.
Proof.
  intros Hs Hc Hp Hx Hlen Hdigits Hrest.
  destruct digits as [|d1 [|d2 [|d3 [|d4 [|d5 more]]]]];
    try (exfalso; simpl in Hlen; lia); clear Hlen.
  - apply Forall_cons in Hdigits as [H1 Hdigits].
    apply Forall_cons in Hdigits as [H2 Hdigits].
    apply Forall_cons in Hdigits as [H3 _].
    unfold match_at. explicit_pattern. hide_suffix_loop.
    cbn [app]. step. rewrite Hs, Hc, Hp, Hx, H1, H2, H3.
    destruct rest as [|n rest]; step;
      rewrite ?(not_word_not_digit u _ Hrest), ?same_option;
      run_suffix_loop Hrest.
  - apply Forall_cons in Hdigits as [H1 Hdigits].
    apply Forall_cons in Hdigits as [H2 Hdigits].
    apply Forall_cons in Hdigits as [H3 Hdigits].
    apply Forall_cons in Hdigits as [H4 _].
    unfold match_at. explicit_pattern. hide_suffix_loop.
    cbn [app]. step. rewrite Hs, Hc, Hp, Hx, H1, H2, H3, H4.
    destruct rest as [|n rest]; step;
      rewrite ?(not_word_not_digit u _ Hrest), ?same_option;
      run_suffix_loop Hrest.
Qed.

(** When what follows the digits is neither a word character nor a
    hyphen, the match is the prefix, the separator and the digits. *)
Lemma bare_accepts_exactly (first : bool) (s c p x : N) (digits rest : pystr) :
  lit_match u true 83 s = true -> lit_match u true 67 c = true ->
  lit_match u true 80 p = true ->
  ((x =? 45) || (x =? 32))%N = true ->
  length digits = 3 \/ length digits = 4 ->
  Forall (fun d => sre_digit u d = true) digits ->
  match rest with
  | [] => True
  | n :: _ => sre_word u n = false /\ (n =? 45)%N = false
  end ->
  exists m,
    match_at u _BARE_MATCH_REGEX first (s :: c :: p :: x :: digits ++ rest)
    = Some m
    /\ group_1 m = s :: c :: p :: x :: digits
    /\ after m = rest.
Proof.
  intros Hs Hc Hp Hx Hlen Hdigits Hrest.
  assert (Htake : forall (l r : pystr), consumed (l ++ r) r = l).
  { intros l r. unfold consumed. rewrite length_app.
    replace (length l + length r - length r) with (length l) by lia.
    apply take_app_length. }
  destruct digits as [|d1 [|d2 [|d3 [|d4 [|d5 more]]]]];
    try (exfalso; simpl in Hlen; lia); clear Hlen.
  - apply Forall_cons in Hdigits as [H1 Hdigits].
    apply Forall_cons in Hdigits as [H2 Hdigits].
    apply Forall_cons in Hdigits as [H3 _].
    unfold match_at. explicit_pattern.
    cbn [app]. step. rewrite Hs, Hc, Hp, Hx, H1, H2, H3.
    destruct rest as [|n rest]; [|destruct Hrest as [Hw Hh]]; step;
      rewrite ?(not_word_not_digit u _ Hw), ?Hh, ?Hw; step;
      (eexists; split; [reflexivity|]);
      cbn [group_1 to_mobj group1 after close_group grp default from_option
           id Re.rest start_state advance];
      (split; [|reflexivity]).
    + apply (Htake [s; c; p; x; d1; d2; d3] []).
    + apply (Htake [s; c; p; x; d1; d2; d3] (n :: rest)).
  - apply Forall_cons in Hdigits as [H1 Hdigits].
    apply Forall_cons in Hdigits as [H2 Hdigits].
    apply Forall_cons in Hdigits as [H3 Hdigits].
    apply Forall_cons in Hdigits as [H4 _].
    unfold match_at. explicit_pattern.
    cbn [app]. step. rewrite Hs, Hc, Hp, Hx, H1, H2, H3, H4.
    destruct rest as [|n rest]; [|destruct Hrest as [Hw Hh]]; step;
      rewrite ?(not_word_not_digit u _ Hw), ?Hh, ?Hw; step;
      (eexists; split; [reflexivity|]);
      cbn [group_1 to_mobj group1 after close_group grp default from_option
           id Re.rest start_state advance];
      (split; [|reflexivity]).
    + apply (Htake [s; c; p; x; d1; d2; d3; d4] []).
    + apply (Htake [s; c; p; x; d1; d2; d3; d4] (n :: rest)).
Qed.

(** Without a separator, the prefix directly followed by a digit, the
    pattern does not match. *)
Lemma bare_rejects_missing_separator (first : bool) (a b c d : N)
    (rest : pystr) :
  sre_digit u d = true ->
  match_at u _BARE_MATCH_REGEX first (a :: b :: c :: d :: rest) = None.
Proof.
  intros Hd. destruct (digit_not_separator u d Hd) as [Hh Hs].
  unfold match_at. explicit_pattern. step.
  destruct (lit_match u true 83 a); [|reflexivity].
  destruct (lit_match u true 67 b); [|reflexivity].
  destruct (lit_match u true 80 c); [|reflexivity].
  now rewrite Hh, Hs.
Qed.

(** C4, as the code has it: in the bare primary-site stage the separator
    between the prefix and the number is required.  A text that begins
    with the prefix in any mix of cases, one hyphen or space, and three or
    four digits not followed by a word character gives as its first
    Freeform query, for the primary site, one whose value begins with that
    span, and is that span when no hyphen follows either.  Nowhere does a
    match start at three characters directly followed by a digit: without
    the separator no query is emitted. *)
Theorem bare_stage_requires_the_separator :
  (forall s c p x digits rest,
      lit_match u true 83 s = true -> lit_match u true 67 c = true ->
      lit_match u true 80 p = true ->
      x = 45%N \/ x = 32%N ->
      length digits = 3 \/ length digits = 4 ->
      Forall (fun d => sre_digit u d = true) digits ->
      match rest with [] => True | n :: _ => sre_word u n = false end ->
      exists v more,
        bare_queries u (s :: c :: p :: x :: digits ++ rest)
        = {| type := FREEFORM; value := v; site_url := Some primary_site |}
            :: more
        /\ (s :: c :: p :: x :: digits) `prefix_of` v
        /\ (match rest with [] => True | n :: _ => n <> 45%N end ->
            v = s :: c :: p :: x :: digits))
  /\ (forall first a b c d rest,
      sre_digit u d = true ->
      match_at u _BARE_MATCH_REGEX first (a :: b :: c :: d :: rest) = None)
  /\ (forall text m a b c d rest,
      In m (finditer u _BARE_MATCH_REGEX text) ->
      sre_digit u d = true ->
      match_start m <> a :: b :: c :: d :: rest).
Proof.
  split; [|split].
  - intros s c p x digits rest Hs Hc Hp Hx Hlen Hdigits Hrest.
    assert (Hx' : ((x =? 45) || (x =? 32))%N = true)
      by (destruct Hx as [-> | ->]; reflexivity).
    destruct (bare_accepts true s c p x digits rest Hs Hc Hp Hx' Hlen Hdigits
                Hrest) as (m & Hm & Hprefix).
    exists (group_1 m).
    unfold bare_queries, finditer. cbn [finditer_from]. rewrite Hm.
    cbn [map]. eexists. split; [reflexivity|]. split; [exact Hprefix|].
    intros Hnext.
    destruct (bare_accepts_exactly true s c p x digits rest Hs Hc Hp Hx' Hlen
                Hdigits) as (m' & Hm' & Hvalue & _).
    { destruct rest as [|n rest']; [exact I|].
      split; [exact Hrest|]. now apply N.eqb_neq. }
    rewrite Hm in Hm'. injection Hm' as <-. exact Hvalue.
  - intros. now apply bare_rejects_missing_separator.
  - intros text m a b c d rest Hin Hd Hstart.
    apply finditer_from_sound in Hin as (first & s' & _ & Hm).
    pose proof (match_at_splits _ _ _ _ _ Hm) as Hsplit.
    unfold match_start in Hstart. rewrite Hstart in Hsplit. subst s'.
    rewrite bare_rejects_missing_separator in Hm by assumption. discriminate.
Qed.
End Bare.

End ReProps.

(* ===================================================================== *)
(** ** parse.py: the order of the stages and the sites of the queries *)
(* ===================================================================== *)

Module ParseProps.
Import Re Parse.

Section Stages.
Variable u : Unicode.
Variable sanitize_markdown : pystr -> pystr.

(** The loop over the international table only appends to [queries]. *)
Lemma international_fold_appends (table : list (pattern * pystr))
    (queries : list SearchQuery) (remaining_text : pystr) :
  fold_left (international_step u) table (queries, remaining_text)
  = (queries ++ fst (fold_left (international_step u) table ([], remaining_text)),
     snd (fold_left (international_step u) table ([], remaining_text))).
Proof.
  revert queries remaining_text.
  induction table as [|[regexp site] table IH]; intros queries remaining_text.
  - simpl. now rewrite app_nil_r.
  - simpl. destruct (findall u regexp remaining_text) as [|m ms] eqn:Hm.
    + apply IH.
    + rewrite IH. rewrite (IH (map _ _)). simpl. now rewrite <- app_assoc.
Qed.

Lemma parse_stages (today : date) (text : pystr) (context : ParseContext) :
  parse u sanitize_markdown today text context
  = explicit_stage u sanitize_markdown text context
    ++ international_stage u sanitize_markdown text context
    ++ bare_stage u sanitize_markdown text context
    ++ seasonal_stage u sanitize_markdown today text context.
Proof.
  unfold parse, explicit_stage, international_stage, bare_stage,
    seasonal_stage, text_for_bare, text_for_international, international_pass,
    text_for_brackets.
  rewrite international_fold_appends. cbv beta iota zeta.
  rewrite app_nil_l, <- !app_assoc. reflexivity.
Qed.

Lemma modern_queries_shape (remaining_text : pystr) (q : SearchQuery) :
  In q (modern_queries u remaining_text) ->
  type q = FREEFORM /\ site_url q = Some (site_of_brackets u (value q)).
Proof.
  unfold modern_queries. rewrite <- list_elem_of_In, list_elem_of_omap.
  intros (m & _ & Hq).
  destruct (sub_empty u _WHITESPACE (group_1 m)); [discriminate|].
  injection Hq as <-. auto.
Qed.


(** When no international pattern matches the whole of the bracket's
    contents, the site is the primary one. *)
Lemma site_of_brackets_default (inner : pystr) :
  (forall entry, In entry _INTERNATIONAL_REGEXES ->
                 matches u (fst entry) inner = false) ->
  site_of_brackets u inner = primary_site.
Proof.
  intros Hnone. unfold site_of_brackets.
  destruct (find _ _INTERNATIONAL_REGEXES) as [[regexp site]|] eqn:Hfind;
    [|reflexivity].
  apply find_some in Hfind as [Hin Hyes]. apply Hnone in Hin.
  simpl in *. congruence.
Qed.

Lemma international_queries_shape (table : list (pattern * pystr))
    (remaining_text : pystr) (q : SearchQuery) :
  In q (fst (fold_left (international_step u) table ([], remaining_text))) ->
  type q = BARE /\ exists site, In site (map snd table) /\ site_url q = Some site.
Proof.
  revert remaining_text.
  induction table as [|[regexp site] table IH]; intros remaining_text; simpl.
  - intros [].
  - destruct (findall u regexp remaining_text) as [|m ms] eqn:Hm.
    + intros Hq. destruct (IH _ Hq) as (? & s' & ? & ?). eauto 6.
    + rewrite international_fold_appends. simpl. rewrite in_app_iff.
      intros [Hq|Hq].
      * apply in_map_iff in Hq as (m' & <- & _). simpl. eauto.
      * destruct (IH _ Hq) as (? & s' & ? & ?). eauto 6.
Qed.

Lemma bare_queries_shape (remaining_text : pystr) (q : SearchQuery) :
  In q (bare_queries u remaining_text) ->
  type q = FREEFORM /\ site_url q = Some primary_site.
Proof.
  unfold bare_queries. intros Hq.
  apply in_map_iff in Hq as (m & <- & _). auto.
Qed.


(** C7: for every text and context, [parse] returns the queries of the
    explicit-bracket stage, then those of the international-variant stage,
    then those of the bare primary-site stage, then the seasonal query if
    any; the queries of the second stage are all Bare queries for a site of
    the international table, those of the third all Freeform queries for
    the primary site, and the fourth is at most the one Bare query "2". *)
Theorem parse_orders_queries_by_stage (today : date) (text : pystr)
    (context : ParseContext) :
  parse u sanitize_markdown today text context
  = explicit_stage u sanitize_markdown text context
    ++ international_stage u sanitize_markdown text context
    ++ bare_stage u sanitize_markdown text context
    ++ seasonal_stage u sanitize_markdown today text context
  /\ Forall (fun q => type q = FREEFORM)
            (explicit_stage u sanitize_markdown text context)
  /\ Forall (fun q => type q = BARE
                      /\ exists site, In site (map snd _INTERNATIONAL_REGEXES)
                                      /\ site_url q = Some site)
            (international_stage u sanitize_markdown text context)
  /\ Forall (fun q => type q = FREEFORM /\ site_url q = Some primary_site)
            (bare_stage u sanitize_markdown text context)
  /\ (seasonal_stage u sanitize_markdown today text context = []
      \/ seasonal_stage u sanitize_markdown today text context
         = [{| type := BARE; value := py "2";
               site_url := Some primary_site |}]).
Proof.
  split; [apply parse_stages|].
  repeat split.
  - apply List.Forall_forall. intros q Hq.
    now apply modern_queries_shape in Hq.
  - apply List.Forall_forall. intros q Hq.
    now apply international_queries_shape in Hq.
  - apply List.Forall_forall. intros q Hq.
    now apply bare_queries_shape in Hq.
  - unfold seasonal_stage, april_fools.
    destruct (decide (context = COMMENT_BODY)); [|now left].
    destruct ((day today =? 1)%nat && (month today =? 4)%nat); [|now left].
    destruct (search u _SCP2_MATCH _); [now right|now left].
Qed.



End Stages.

End ParseProps.

(* ===================================================================== *)
(** ** parse.py: texts in which nothing matches *)
(* ===================================================================== *)

Module QuietTexts.
Import Re Parse ReProps.

Section Quiet.
Variable u : Unicode.





End Quiet.

Section Digits.
Variable u : Unicode.



End Digits.

Section LongNumbers.
Variable u : Unicode.















Section Number.
Variables a b c x d1 d2 d3 d4 d5 : N.
Variable more : pystr.
Hypothesis Ha : In a [83; 115]%N.
Hypothesis Hb : In b [67; 99]%N.
Hypothesis Hc : In c [80; 112]%N.
Hypothesis Hx : In x [45; 32]%N.
Hypothesis H1 : ascii_decimal d1 = true.
Hypothesis H2 : ascii_decimal d2 = true.
Hypothesis H3 : ascii_decimal d3 = true.
Hypothesis H4 : ascii_decimal d4 = true.
Hypothesis H5 : ascii_decimal d5 = true.
Hypothesis Hmore : Forall (fun d => ascii_decimal d = true) more.




End Number.

End LongNumbers.

End QuietTexts.

(* ===================================================================== *)
(** ** crom_client.py: the two attempts of [query_batch] *)
(* ===================================================================== *)

Module CromProps.
Import Eff Crom.

Section TwoAttempts.
Variable D : Type.
Variable session : Session D.
Variable queries : list GraphQLQuery.
Variable calls : list session_call.

(** C3: when the first request fails with an expired token and the token
    is fetched again, [query_batch] sends the request a second time.  A
    clean list in answer to it is returned after these three calls.  When
    the second request fails with an expired token as well, the token is
    fetched once more, the loop is over, and [query_batch] returns [None]:
    nothing is raised to the caller. *)
Theorem query_batch_returns_none_after_two_expiries
    (Hfirst : session_post D session calls queries = inl TokenExpiredError)
    (Hrefresh : session_fetch_token D session (calls ++ [Post queries])
                = inr tt) :
  (forall items,
      session_post D session (calls ++ [Post queries; FetchToken]) queries
      = inr (BodyList items) ->
      existsb (has_errors D) items = false ->
      query_batch D session queries calls
      = (inr (Some (map (qr_data D) items)),
         calls ++ [Post queries; FetchToken; Post queries]))
  /\ (session_post D session (calls ++ [Post queries; FetchToken]) queries
      = inl TokenExpiredError ->
      session_fetch_token D session
        (calls ++ [Post queries; FetchToken; Post queries]) = inr tt ->
      query_batch D session queries calls
      = (inr None,
         calls ++ [Post queries; FetchToken; Post queries; FetchToken])).
Proof.
  assert (Hone : (calls ++ [Post queries]) ++ [FetchToken]
                 = calls ++ [Post queries; FetchToken])
    by now rewrite <- app_assoc.
  assert (Htwo : (calls ++ [Post queries; FetchToken]) ++ [Post queries]
                 = calls ++ [Post queries; FetchToken; Post queries])
    by now rewrite <- app_assoc.
  assert (Hthree :
            (calls ++ [Post queries; FetchToken; Post queries])
              ++ [FetchToken]
            = calls ++ [Post queries; FetchToken; Post queries; FetchToken])
    by now rewrite <- app_assoc.
  assert (Hexpired : is_token_expired TokenExpiredError = true)
    by reflexivity.
  unfold query_batch. cbn [query_batch_loop].
  unfold bind, try_except, post, fetch_token, ret, raise.
  rewrite Hfirst, Hexpired, Hrefresh, Hone.
  split.
  - intros items Hsecond Hclean. rewrite Hsecond, Hclean, Htwo. reflexivity.
  - intros Hsecond Hagain.
    rewrite Hsecond, Hexpired, Htwo, Hagain, Hthree. reflexivity.
Qed.
End TwoAttempts.

End CromProps.

(* ===================================================================== *)
(** ** search.py: batches and deduplication *)
(* ===================================================================== *)

Module SearchProps.
Import Eff Crom Parse Search.

Section Chunks.
Context {A : Type}.

Lemma chunks_loop_concat (n turns : nat) (lst : list A) :
  0 < n -> length lst <= turns ->
  concat (chunks_loop turns lst n) = lst.
Proof.
  intros Hn. revert lst.
  induction turns as [|turns IH]; intros lst Hlen.
  - destruct lst; [reflexivity|simpl in Hlen; lia].
  - destruct lst as [|x lst]; [reflexivity|].
    cbn [chunks_loop concat]. rewrite IH.
    + apply take_drop.
    + rewrite length_drop. simpl in *. lia.
Qed.

Lemma chunks_loop_sizes (n turns : nat) (lst : list A) :
  0 < n ->
  Forall (fun group => 1 <= length group <= n) (chunks_loop turns lst n).
Proof.
  intros Hn. revert lst.
  induction turns as [|turns IH]; intros lst; [constructor|].
  destruct lst as [|x lst]; [constructor|].
  cbn [chunks_loop]. constructor; [|apply IH].
  rewrite length_take. simpl. lia.
Qed.

(** Every group but the last is full. *)
Lemma chunks_loop_full (n turns : nat) (lst : list A) (i : nat)
    (group : list A) :
  chunks_loop turns lst n !! i = Some group ->
  S i < length (chunks_loop turns lst n) ->
  length group = n.
Proof.
  revert lst i.
  induction turns as [|turns IH]; intros lst i; [discriminate|].
  destruct lst as [|x lst]; [discriminate|].
  cbn [chunks_loop]. destruct i as [|i]; cbn [lookup list_lookup length].
  - intros [= <-] Hmore. rewrite length_take.
    destruct turns as [|turns]; [simpl in Hmore; lia|].
    destruct (drop n (x :: lst)) as [|y rest] eqn:Hdrop;
      [simpl in Hmore; lia|].
    assert (length (drop n (x :: lst)) = S (length rest))
      by now rewrite Hdrop.
    rewrite length_drop in *. lia.
  - intros Hi Hmore. apply (IH _ _ Hi). lia.
Qed.
End Chunks.

Section Uniq.
Context {A K : Type} `{Countable K}.
Variable mapper : A -> exn + K.

(** What [_uniq_by] keeps: a subsequence of the items, with keys not in
    [tracking] and pairwise different, one item for every such key among the
    items, and that item is the first one with its key. *)
Lemma uniq_loop_spec (items : list A) (tracking : gset K) (kept : list A) :
  uniq_loop mapper tracking items = inr kept ->
  sublist kept items
  /\ (forall y k, y ∈ kept -> mapper y = inr k -> k ∉ tracking)
  /\ (forall i j y z k,
        kept !! i = Some y -> kept !! j = Some z ->
        mapper y = inr k -> mapper z = inr k -> i = j)
  /\ (forall x k, x ∈ items -> mapper x = inr k -> k ∉ tracking ->
        exists y, y ∈ kept /\ mapper y = inr k)
  /\ (forall y k, y ∈ kept -> mapper y = inr k ->
        exists before after,
          items = before ++ y :: after
          /\ forall z, z ∈ before -> mapper z <> inr k).
Proof.
  revert tracking kept.
  induction items as [|item items IH]; intros tracking kept; cbn [uniq_loop].
  - intros [= <-]. split; [constructor|].
    repeat split; try (intros; exfalso; eapply elem_of_nil; eassumption).
    intros i j y z k Hi. now rewrite lookup_nil in Hi.
  - destruct (mapper item) as [e|key] eqn:Hkey; [discriminate|].
    destruct (decide (key ∈ tracking)) as [Hseen|Hfresh].
    + intros Hrest.
      destruct (IH _ _ Hrest) as (Hsub & Hnew & Hdiff & Hall & Hfirst).
      split; [now apply sublist_cons|]. split; [exact Hnew|].
      split; [exact Hdiff|]. split.
      * intros x k Hx Hk Hk'. apply elem_of_cons in Hx as [->|Hx]; [|eauto].
        congruence.
      * intros y k Hy Hk. destruct (Hfirst y k Hy Hk) as (b & a & -> & Hb).
        exists (item :: b), a. split; [reflexivity|].
        intros z Hz. apply elem_of_cons in Hz as [->|Hz]; [|auto].
        rewrite Hkey. intros [= ->]. exact (Hnew y k Hy Hk Hseen).
    + destruct (uniq_loop mapper ({[key]} ∪ tracking) items)
        as [e|kept'] eqn:Hrest; [discriminate|].
      intros [= <-].
      destruct (IH _ _ Hrest) as (Hsub & Hnew & Hdiff & Hall & Hfirst).
      split; [now apply sublist_skip|]. split; [|split; [|split]].
      * intros y k Hy Hk. apply elem_of_cons in Hy as [->|Hy].
        -- congruence.
        -- specialize (Hnew y k Hy Hk). set_solver.
      * intros [|i] [|j] y z k; cbn [lookup list_lookup]; intros Hy Hz Hk Hk'.
        -- reflexivity.
        -- injection Hy as <-. apply list_elem_of_lookup_2 in Hz.
           specialize (Hnew z k Hz Hk'). assert (k = key) by congruence.
           set_solver.
        -- injection Hz as <-. apply list_elem_of_lookup_2 in Hy.
           specialize (Hnew y k Hy Hk). assert (k = key) by congruence.
           set_solver.
        -- f_equal. eapply Hdiff; eassumption.
      * intros x k Hx Hk Hk'. destruct (decide (k = key)) as [->|Hne].
        -- exists item. split; [apply elem_of_cons; left; reflexivity|exact Hkey].
        -- apply elem_of_cons in Hx as [->|Hx]; [congruence|].
           destruct (Hall x k Hx Hk) as (y & Hy & Hyk); [set_solver|].
           exists y. split; [apply elem_of_cons; right; exact Hy|exact Hyk].
      * intros y k Hy Hk. apply elem_of_cons in Hy as [->|Hy].
        -- exists [], items. split; [reflexivity|].
           intros z Hz. now apply elem_of_nil in Hz.
        -- destruct (Hfirst y k Hy Hk) as (b & a & -> & Hb).
           exists (item :: b), a. split; [reflexivity|].
           intros z Hz. apply elem_of_cons in Hz as [->|Hz]; [|auto].
           rewrite Hkey. intros [= ->].
           specialize (Hnew y k Hy Hk). set_solver.
Qed.
End Uniq.

Section Requests.
Variable str_lower : pystr -> pystr.
Variable session : Session response.

Lemma appends_ret {T} (a : T) P : appends (ret a) P.
Proof. intros calls r calls' [= <- <-]. exists []. now rewrite app_nil_r. Qed.

Lemma appends_raise {T} (e : exn) P : appends (raise (A := T) e) P.
Proof. intros calls r calls' [= <- <-]. exists []. now rewrite app_nil_r. Qed.

Lemma appends_outcome {T} (o : exn + T) P : appends (outcome o) P.
Proof. intros calls r calls' [= <- <-]. exists []. now rewrite app_nil_r. Qed.

Lemma appends_bind {T U} (c : Client T) (k : T -> Client U) P :
  appends c P -> (forall a, appends (k a) P) -> appends (bind c k) P.
Proof.
  intros Hc Hk calls r calls'. unfold bind.
  destruct (c calls) as [[e|a] calls1] eqn:Hrun;
    destruct (Hc _ _ _ Hrun) as (new1 & -> & Hnew1).
  - intros [= <- <-]. eauto.
  - intros Hrest. destruct (Hk a _ _ _ Hrest) as (new2 & -> & Hnew2).
    exists (new1 ++ new2). rewrite app_assoc. split; [reflexivity|].
    now apply Forall_app.
Qed.

Lemma appends_try {T} (c : Client T) handles (h : exn -> Client T) P :
  appends c P -> (forall e, appends (h e) P) ->
  appends (try_except c handles h) P.
Proof.
  intros Hc Hh calls r calls'. unfold try_except.
  destruct (c calls) as [[e|a] calls1] eqn:Hrun;
    destruct (Hc _ _ _ Hrun) as (new1 & -> & Hnew1).
  - destruct (handles e).
    + intros Hrest. destruct (Hh e _ _ _ Hrest) as (new2 & -> & Hnew2).
      exists (new1 ++ new2). rewrite app_assoc. split; [reflexivity|].
      now apply Forall_app.
    + intros [= <- <-]. eauto.
  - intros [= <- <-]. eauto.
Qed.

(** [query_batch] posts its argument, and nothing else but refreshes. *)
Lemma query_batch_loop_appends (n : nat) (queries : list GraphQLQuery)
    (P : session_call -> Prop) :
  P (Post queries) -> P FetchToken ->
  appends (query_batch_loop response session n queries) P.
Proof.
  intros Hpost Hfetch.
  induction n as [|n IH]; cbn [query_batch_loop]; [apply appends_ret|].
  apply appends_bind.
  - apply appends_try.
    + apply appends_bind.
      * intros calls r calls' [= <- <-]. exists [Post queries].
        split; [reflexivity|]. now constructor.
      * intros [items|]; [|apply appends_raise].
        destruct (existsb _ items); [apply appends_raise|apply appends_ret].
    + intros e. apply appends_bind; [|intros; apply appends_ret].
      intros calls r calls' [= <- <-]. exists [FetchToken].
      split; [reflexivity|]. now constructor.
  - intros [data|]; [apply appends_ret|exact IH].
Qed.

Lemma query_groups_appends (groups : list (list SearchQuery)) :
  Forall (fun group => 1 <= length group <= 25) groups ->
  appends (query_groups str_lower session groups) batch_sized.
Proof.
  induction 1 as [|group groups Hgroup _ IH]; cbn [query_groups];
    [apply appends_ret|].
  apply appends_bind.
  - apply query_batch_loop_appends; [|exact I].
    cbn [batch_sized]. now rewrite length_map.
  - intros [data|]; [|apply appends_raise].
    apply appends_bind; [exact IH|intros; apply appends_ret].
Qed.

Lemma page_branch_appends (r : response) :
  appends (page_branch session r) batch_sized.
Proof.
  unfold page_branch. destruct (wikidotPage r); [apply appends_ret|].
  destruct (searchPages_v1 r) as [[|hit hits]|]; try apply appends_ret.
  apply appends_bind; [|intros; apply appends_ret].
  unfold query_one. apply appends_bind.
  - apply query_batch_loop_appends; [|exact I]. cbn. lia.
  - intros [[|d data]|]; [apply appends_raise|apply appends_ret|
                          apply appends_raise].
Qed.

Lemma collect_appends (search_queries : list SearchQuery) (i : nat)
    (responses : list response) :
  appends (collect str_lower session search_queries i responses) batch_sized.
Proof.
  revert i. induction responses as [|r responses IH]; intros i;
    cbn [collect]; [apply appends_ret|].
  apply appends_bind.
  - destruct (searchUsers_v1 r) as [[|first users]|];
      try apply page_branch_appends.
    destruct (search_queries !! i); [|apply appends_raise].
    destruct (decide _); [apply appends_ret|apply page_branch_appends].
  - intros here. apply appends_bind; [apply IH|intros; apply appends_ret].
Qed.

(** When [query_batch] returns a list it has posted the queries once, or
    twice with a token refresh between. *)
Lemma query_batch_answers (queries : list GraphQLQuery)
    (calls calls' : list session_call) (data : list response) :
  query_batch response session queries calls = (inr (Some data), calls') ->
  calls' = calls ++ [Post queries]
  \/ calls' = calls ++ [Post queries; FetchToken; Post queries].
Proof.
  unfold query_batch. cbn [query_batch_loop].
  unfold bind, try_except, post, fetch_token, ret, raise.
  destruct (session_post response session calls queries) as [e|[items|]].
  - destruct (is_token_expired e); [|discriminate].
    destruct (session_fetch_token response session _) as [e1|[]];
      [discriminate|].
    destruct (session_post response session _ queries) as [e2|[items|]].
    + destruct (is_token_expired e2); [|discriminate].
      destruct (session_fetch_token response session _); discriminate.
    + destruct (existsb _ items); [discriminate|].
      intros [= _ <-]. right. now rewrite <- !app_assoc.
    + destruct (is_token_expired CromAPIException) eqn:Hno;
        [discriminate Hno|discriminate].
  - destruct (existsb _ items).
    + destruct (is_token_expired CromAPIException) eqn:Hno;
        [discriminate Hno|discriminate].
    + intros [= _ <-]. now left.
  - destruct (is_token_expired CromAPIException) eqn:Hno;
      [discriminate Hno|discriminate].
Qed.

(** The first loop of [search], when it comes to its end, has posted the
    groups in order, each once or, after a token refresh, twice. *)
Lemma query_groups_requests (groups : list (list SearchQuery)) :
  forall (calls calls1 : list session_call) (responses : list response),
    query_groups str_lower session groups calls = (inr responses, calls1) ->
    exists retried : list bool,
      length retried = length groups
      /\ calls1
         = calls
           ++ concat
                (zip_with
                   (fun group again =>
                      if again : bool
                      then [Post (map (gql_of str_lower) group); FetchToken;
                            Post (map (gql_of str_lower) group)]
                      else [Post (map (gql_of str_lower) group)])
                   groups retried).
Proof.
  induction groups as [|group groups IH]; intros calls calls1 responses;
    cbn [query_groups].
  - intros [= _ <-]. exists []. split; [reflexivity|].
    cbn [zip_with concat]. now rewrite app_nil_r.
  - unfold bind at 1.
    destruct (query_batch response session (map (gql_of str_lower) group)
                calls)
      as [[e|[data|]] calls0] eqn:Hbatch; try discriminate.
    unfold bind at 1.
    destruct (query_groups str_lower session groups calls0)
      as [[e|more] calls2] eqn:Hrest; [discriminate|].
    unfold ret. intros [= _ <-].
    destruct (IH _ _ _ Hrest) as (retried & Hlen & ->).
    apply query_batch_answers in Hbatch as [-> | ->].
    + exists (false :: retried). cbn [length zip_with concat].
      split; [now rewrite Hlen|]. now rewrite <- !app_assoc.
    + exists (true :: retried). cbn [length zip_with concat].
      split; [now rewrite Hlen|]. now rewrite <- !app_assoc.
Qed.

(** C8, as the code has it.  Every request [search] posts carries between
    1 and 25 queries.  When [search] returns, its first loop has posted the
    queries in groups of 25, the last one possibly shorter, in order, each
    group once or, after a token refresh, twice; its second loop has
    turned the responses into the results; and what is returned is what
    [_uniq_by] keeps of those results under the identity of a result (the
    URL of its page, or the name of its user), compared as it is, with no
    case folding: a subsequence of the results in which no two identities
    are equal, with one result for every identity among the results, the
    first one that has it. *)
Theorem search_batches_by_25_and_dedups_by_exact_identity
    (search_queries : list SearchQuery) :
  (concat (_chunks search_queries 25) = search_queries
   /\ Forall (fun group => 1 <= length group <= 25)
             (_chunks search_queries 25)
   /\ forall i group,
        _chunks search_queries 25 !! i = Some group ->
        S i < length (_chunks search_queries 25) ->
        length group = 25)
  /\ appends (search str_lower session search_queries) batch_sized
  /\ forall calls calls' kept,
       search str_lower session search_queries calls = (inr kept, calls') ->
       exists retried responses calls1 results,
         query_groups str_lower session (_chunks search_queries 25) calls
         = (inr responses, calls1)
         /\ length retried = length (_chunks search_queries 25)
         /\ calls1
            = calls
              ++ concat
                   (zip_with
                      (fun group again =>
                         if again : bool
                         then [Post (map (gql_of str_lower) group);
                               FetchToken;
                               Post (map (gql_of str_lower) group)]
                         else [Post (map (gql_of str_lower) group)])
                      (_chunks search_queries 25) retried)
         /\ collect str_lower session search_queries 0 responses calls1
            = (inr results, calls')
         /\ _uniq_by results identity = inr kept
         /\ sublist kept results
         /\ (forall i j y z k,
               kept !! i = Some y -> kept !! j = Some z ->
               identity y = inr k -> identity z = inr k -> i = j)
         /\ (forall x k, x ∈ results -> identity x = inr k ->
               exists y, y ∈ kept /\ identity y = inr k)
         /\ (forall y k, y ∈ kept -> identity y = inr k ->
               exists before after,
                 results = before ++ y :: after
                 /\ forall z, z ∈ before -> identity z <> inr k).
Proof.
  split; [|split].
  - split; [apply chunks_loop_concat; lia|].
    split; [apply chunks_loop_sizes; lia|].
    intros i group. apply chunks_loop_full.
  - unfold search. apply appends_bind.
    + apply query_groups_appends, chunks_loop_sizes. lia.
    + intros responses. apply appends_bind; [apply collect_appends|].
      intros results. apply appends_outcome.
  - intros calls calls' kept. unfold search, bind.
    destruct (query_groups _ _ _ calls) as [[e|responses] calls1] eqn:Hgroups;
      [discriminate|].
    destruct (collect _ _ _ _ _ calls1) as [[e|results] calls2] eqn:Hcollect;
      [discriminate|].
    unfold outcome. intros [= Hkept <-].
    destruct (query_groups_requests _ _ _ _ Hgroups) as (retried & Hlen & Hc).
    exists retried, responses, calls1, results.
    split; [reflexivity|]. split; [exact Hlen|]. split; [exact Hc|].
    split; [exact Hcollect|]. split; [exact Hkept|].
    destruct (uniq_loop_spec identity results ∅ kept Hkept)
      as (Hsub & _ & Hdiff & Hall & Hfirst).
    split; [exact Hsub|]. split; [exact Hdiff|]. split; [|exact Hfirst].
    intros x k Hx Hk. apply (Hall x k Hx Hk). set_solver.
Qed.
End Requests.

End SearchProps.

(* ===================================================================== *)
(** ** bot.py: what a run leaves behind *)
(* ===================================================================== *)

Module BotProps.
Import Re Parse Eff Crom Search Bot.

Section Lifecycle.
Variable host : Host.
Variable out : Outside.



(** The resolver touches nothing but the session. *)
Lemma run_search_frame (qs : list SearchQuery) (w w' : World)
    (r : exn + list result) :
  run_search host out qs w = (r, w') ->
  events w' = events w
  /\ replied_text_submissions w' = replied_text_submissions w
  /\ replied_comments w' = replied_comments w
  /\ responses_counter w' = responses_counter w.
Proof.
  unfold run_search, zoom.
  destruct (search _ _ _ _) as [r' calls]. intros [= _ <-]. auto.
Qed.

(** The sticky step raises only before it has done anything, and never
    the permission error, which it swallows. *)
Lemma try_sticky_raises (submission : Submission) (reply : Reply)
    (w w' : World) (e : exn) :
  try_sticky out submission reply w = (inl e, w') ->
  w' = w /\ e <> Forbidden.
Proof.
  unfold try_sticky, try_except, bind, get, outcome, log, modify, ret,
    is_forbidden.
  destruct (comments_stickied out w submission) as [e1|comments].
  - destruct (bool_decide_reflect (e1 = Forbidden)); [discriminate|].
    intros [= <- <-]. auto.
  - destruct (match comments with [] => true | top :: _ => negb top end);
      [|discriminate].
    destruct (distinguish out w reply) as [e1|[]]; [|discriminate].
    destruct (bool_decide_reflect (e1 = Forbidden)); [discriminate|].
    intros [= <- <-]. auto.
Qed.

(** C10: on first contact with a submission, when the reply is posted and
    the sticky step then raises something other than the permission error,
    the handler of the item catches and logs it and the function returns
    [False]; the reply stays posted, the submission stays in the cache with
    that reply, and the counter stays incremented. *)
Theorem create_is_not_rolled_back (submission : Submission) (start_time : Z)
    (valid_netlocs : list pystr) (w w_searched : World)
    (normalized_url : pystr) (search_queries : list SearchQuery)
    (results : list result) (reply_text : pystr) (reply : Reply) (e : exn) :
  let w_replied :=
    after_first_reply submission search_queries reply_text reply w_searched in
  (start_time < s_created_utc submission)%Z ->
  submission_queries host (today out w) submission valid_netlocs
  = inr (normalized_url, search_queries) ->
  search_queries <> [] ->
  run_search host out search_queries
    (add_event (LogRequest (py "Submission") (s_permalink submission)
                           search_queries) w)
  = (inr results, w_searched) ->
  results <> [] ->
  generate_response out w_searched results true
    (if s_is_self submission then None else Some normalized_url)
  = inr reply_text ->
  reply_to out w_searched (s_id submission) reply_text = inr reply ->
  fst (try_sticky out submission reply w_replied) = inl e ->
  e <> Forbidden
  /\ _process_submission host out submission start_time valid_netlocs
                         None None w
     = (inr false, add_event (LogException e) w_replied)
  /\ In (Replied (s_id submission) reply_text reply)
        (events (add_event (LogException e) w_replied))
  /\ In (LogException e) (events (add_event (LogException e) w_replied))
  /\ replied_text_submissions (add_event (LogException e) w_replied)
       !! s_id submission
     = Some (submission, search_queries, reply)
  /\ count (py "submission") (s_subreddit submission)
           (add_event (LogException e) w_replied)
     = S (count (py "submission") (s_subreddit submission) w).
Proof.
  intros w_replied Hnew Hread Hqueries Hsearch Hresults Htext Hreply
    Hsticky.
  destruct (try_sticky out submission reply w_replied) as [r w'] eqn:Hs.
  cbn [fst] in Hsticky. subst r.
  destruct (try_sticky_raises _ _ _ _ _ Hs) as [-> Hnot].
  split; [exact Hnot|]. split; [|split; [|split; [|split]]].
  - unfold _process_submission.
    replace (s_created_utc submission <=? start_time)%Z with false
      by (symmetry; apply Z.leb_gt; exact Hnew).
    unfold bind at 1, get at 1. unfold bind at 1, outcome at 1.
    rewrite Hread. cbn [fst snd].
    destruct search_queries as [|q qs] eqn:Hqs; [congruence|].
    cbn [is_nil orb].
    rewrite bool_decide_eq_false_2 by discriminate.
    unfold bind at 1, log at 1, modify at 1.
    unfold bind at 1. rewrite Hsearch.
    destruct results as [|res ress]; [congruence|]. cbn [is_nil].
    unfold try_except, bind at 1, get at 1.
    unfold bind at 1, outcome at 1. rewrite Htext.
    unfold bind at 1, bind at 1, get at 1, bind at 1, outcome at 1.
    rewrite Hreply.
    unfold bind at 1, log at 1, modify at 1, bind at 1, modify at 1, ret at 1.
    unfold bind at 1, log at 1, modify at 1, bind at 1, modify at 1.
    unfold bind at 1.
    change (inc_counter _ _ _) with w_replied. rewrite Hs.
    unfold any_exception, bind, log, modify, ret. reflexivity.
  - cbn [events add_event after_first_reply inc_counter remember_submission
           w_replied].
    unfold w_replied, after_first_reply.
    cbn [events add_event inc_counter remember_submission].
    rewrite !in_app_iff. left. left. right. left. reflexivity.
  - cbn [events add_event]. rewrite in_app_iff. right. left. reflexivity.
  - unfold w_replied, after_first_reply.
    cbn [replied_text_submissions add_event inc_counter remember_submission].
    apply lookup_insert_eq.
  - unfold w_replied, after_first_reply, count.
    cbn [responses_counter add_event inc_counter remember_submission].
    rewrite lookup_insert_eq. cbn [default]. f_equal.
    unfold count. cbn [responses_counter add_event remember_submission].
    destruct (run_search_frame _ _ _ _ Hsearch) as (_ & _ & _ & ->).
    reflexivity.
Qed.

(** A handler for every exception that itself returns makes the whole
    [try] return. *)
Lemma try_except_any_returns {A} (c : Run A) (h : exn -> Run A) (w : World) :
  (forall e w1, exists a w2, h e w1 = (inr a, w2)) ->
  exists a w', try_except c any_exception h w = (inr a, w').
Proof.
  intros Hh. unfold try_except, any_exception.
  destruct (c w) as [[e|a] w1]; [apply Hh|eauto].
Qed.

Lemma log_then_false_returns (e : exn) (w1 : World) :
  exists a w2,
    bind (log (LogException e)) (fun _ => ret false) w1 = (inr a, w2).
Proof. unfold bind, log, modify, ret. eauto. Qed.

Ltac outer_try_returns H :=
  match type of H with
  | try_except ?c any_exception ?h ?w = _ =>
      let a := fresh "a" in
      let w2 := fresh "w" in
      let Hok := fresh "Hok" in
      destruct (try_except_any_returns c h w log_then_false_returns)
        as (a & w2 & Hok);
      rewrite Hok in H; discriminate H
  end.

Ltac dropped :=
  cbn [orb]; unfold ret;
  split; [discriminate|intros [[? _] _]; discriminate].

(** [_process_comment] raises exactly when the comment gets as far as the
    resolver and the resolver raises. *)
Lemma comment_raises_iff (comment : Comment) (kind : comment_type)
    (start_time : Z) (bot_accounts : list pystr)
    (comment_subreddits : option (list pystr))
    (previous_search_queries : option (list SearchQuery))
    (previous_reply : option Reply) (w w' : World) (e : exn) :
  _process_comment host out comment kind start_time bot_accounts
    comment_subreddits previous_search_queries previous_reply w = (inl e, w')
  <-> comment_reaches_resolver host out comment kind start_time bot_accounts
        comment_subreddits previous_search_queries w
      /\ run_search host out (comment_queries host out comment w)
           (add_event (comment_request host out comment kind w) w)
         = (inl e, w').
Proof.
  unfold _process_comment, comment_reaches_resolver, comment_is_ignored,
    comment_request.
  fold (comment_queries host out comment w).
  destruct (c_created_utc comment <=? start_time)%Z; [dropped|].
  destruct (c_author comment) as [author|]; [|dropped].
  destruct (bool_decide (str_lower host (name author) ∈ bot_accounts));
    [dropped|].
  destruct (bool_decide (kind = TComment) && truthy (c_banned_by comment));
    [dropped|].
  match goal with
  | |- context [if (bool_decide (kind = TMention) && ?b) then _ else _] =>
      destruct (bool_decide (kind = TMention) && b)
  end; [dropped|].
  cbn [orb].
  unfold bind at 1, get at 1.
  fold (comment_queries host out comment w).
  destruct (comment_queries host out comment w) as [|q qs] eqn:Hqs.
  { cbn [is_nil orb]. unfold ret.
    split; [discriminate|intros [(_ & ? & _) _]; congruence]. }
  cbn [is_nil orb].
  destruct (bool_decide_reflect (Some (q :: qs) = previous_search_queries))
    as [Hsame|Hdiff].
  { unfold ret. split; [discriminate|intros [(_ & _ & ?) _]; congruence]. }
  unfold bind at 1, log at 1, modify at 1. unfold bind at 1.
  destruct (run_search host out (q :: qs) _) as [[e1|results] w1] eqn:Hsearch.
  { split.
    - intros [= -> ->]. split; [|reflexivity]. repeat split; congruence.
    - intros [_ [= -> ->]]. reflexivity. }
  split; [|intros [_ ?]; discriminate].
  destruct results as [|res ress]; cbn [is_nil]; [unfold ret; discriminate|].
  intros Hraise. outer_try_returns Hraise.
Qed.

(** [_process_submission] raises exactly when urllib refuses the URL of
    the submission, before anything is logged, or the submission gets as
    far as the resolver and the resolver raises. *)
Lemma submission_raises_iff (submission : Submission) (start_time : Z)
    (valid_netlocs : list pystr)
    (previous_search_queries : option (list SearchQuery))
    (previous_reply : option Reply) (w w' : World) (e : exn) :
  _process_submission host out submission start_time valid_netlocs
    previous_search_queries previous_reply w = (inl e, w')
  <-> (submission_url_is_refused host out submission start_time
         valid_netlocs w e
       /\ w' = w)
      \/ exists normalized_url search_queries,
           submission_reaches_resolver host out submission start_time
             valid_netlocs previous_search_queries w normalized_url
             search_queries
           /\ run_search host out search_queries
                (add_event (submission_request submission search_queries) w)
              = (inl e, w').
Proof.
  unfold _process_submission, submission_reaches_resolver,
    submission_url_is_refused, submission_request.
  destruct (Z.leb_spec (s_created_utc submission) start_time) as [Hold|Hnew].
  { unfold ret. split; [discriminate|].
    intros [[[? _] _]|(? & ? & [? _] & _)]; lia. }
  unfold bind at 1, get at 1. unfold bind at 1, outcome at 1.
  destruct (submission_queries host (today out w) submission valid_netlocs)
    as [e1|[normalized_url search_queries]] eqn:Hread.
  { split.
    - intros [= -> ->]. left. auto.
    - intros [[[_ [= ->]] ->]|(? & ? & (_ & ? & _) & _)];
        [reflexivity|discriminate]. }
  cbn [fst snd].
  destruct search_queries as [|q qs] eqn:Hqs.
  { cbn [is_nil orb]. unfold ret. split; [discriminate|].
    intros [[[_ ?] _]|(? & ? & (_ & ? & ? & _) & _)]; congruence. }
  cbn [is_nil orb].
  destruct (bool_decide_reflect (Some (q :: qs) = previous_search_queries))
    as [Hsame|Hdiff].
  { unfold ret. split; [discriminate|].
    intros [[[_ ?] _]|(? & ? & (_ & ? & _ & ?) & _)]; congruence. }
  unfold bind at 1, log at 1, modify at 1. unfold bind at 1.
  destruct (run_search host out (q :: qs) _) as [[e1|results] w1] eqn:Hsearch.
  { split.
    - intros [= -> ->]. right. exists normalized_url, (q :: qs).
      split; [|exact Hsearch]. repeat split; congruence.
    - intros [[[_ ?] _]|(n & s & (_ & Hn & _) & Hrun)]; [discriminate|].
      injection Hn as <- <-. rewrite Hsearch in Hrun.
      now injection Hrun as -> ->. }
  split.
  - destruct results as [|res ress]; cbn [is_nil]; [unfold ret; discriminate|].
    intros Hraise. outer_try_returns Hraise.
  - intros [[[_ ?] _]|(n & s & (_ & Hn & _) & Hrun)]; [discriminate|].
    injection Hn as <- <-. rewrite Hsearch in Hrun. discriminate.
Qed.

(** An exception in the making, the posting or the editing of the reply
    to a comment is caught and logged, and the function returns [False]. *)
Lemma comment_reply_failure_is_logged (comment : Comment)
    (kind : comment_type) (start_time : Z) (bot_accounts : list pystr)
    (comment_subreddits : option (list pystr))
    (previous_search_queries : option (list SearchQuery))
    (previous_reply : option Reply) (w w1 : World) (results : list result)
    (e : exn) :
  comment_reaches_resolver host out comment kind start_time bot_accounts
    comment_subreddits previous_search_queries w ->
  run_search host out (comment_queries host out comment w)
    (add_event (comment_request host out comment kind w) w)
  = (inr results, w1) ->
  results <> [] ->
  reply_fails out (c_id comment) results false None previous_reply w1 e ->
  _process_comment host out comment kind start_time bot_accounts
    comment_subreddits previous_search_queries previous_reply w
  = (inr false, add_event (LogException e) w1).
Proof.
  unfold comment_reaches_resolver, comment_is_ignored, comment_request,
    reply_fails, _process_comment.
  fold (comment_queries host out comment w).
  intros (Hignored & Hsome & Hdiff) Hsearch Hresults Hfails.
  destruct (c_created_utc comment <=? start_time)%Z; [discriminate|].
  destruct (c_author comment) as [author|]; [|discriminate].
  destruct (bool_decide (str_lower host (name author) ∈ bot_accounts));
    [discriminate|].
  destruct (bool_decide (kind = TComment) && truthy (c_banned_by comment));
    [discriminate|].
  match goal with
  | |- context [if (bool_decide (kind = TMention) && ?b) then _ else _] =>
      destruct (bool_decide (kind = TMention) && b)
  end; [discriminate|].
  unfold bind at 1, get at 1.
  fold (comment_queries host out comment w).
  destruct (comment_queries host out comment w) as [|q qs] eqn:Hqs;
    [congruence|].
  cbn [is_nil orb]. rewrite bool_decide_eq_false_2 by exact Hdiff.
  unfold bind at 1, log at 1, modify at 1. unfold bind at 1.
  rewrite Hsearch. destruct results as [|res ress]; [congruence|].
  cbn [is_nil].
  unfold try_except, any_exception, bind, get, outcome, log, modify, ret.
  destruct Hfails as [->|(reply_text & -> & Hpost)]; [reflexivity|].
  destruct previous_reply as [previous|].
  - destruct Hpost as [Hbody Hedit].
    destruct (decide (r_body previous <> reply_text)); [|contradiction].
    cbv beta. now rewrite Hedit.
  - cbv beta. now rewrite Hpost.
Qed.

(** The same for a submission. *)
Lemma submission_reply_failure_is_logged (submission : Submission)
    (start_time : Z) (valid_netlocs : list pystr)
    (previous_search_queries : option (list SearchQuery))
    (previous_reply : option Reply) (w w1 : World)
    (normalized_url : pystr) (search_queries : list SearchQuery)
    (results : list result) (e : exn) :
  submission_reaches_resolver host out submission start_time valid_netlocs
    previous_search_queries w normalized_url search_queries ->
  run_search host out search_queries
    (add_event (submission_request submission search_queries) w)
  = (inr results, w1) ->
  results <> [] ->
  reply_fails out (s_id submission) results true
    (if s_is_self submission then None else Some normalized_url)
    previous_reply w1 e ->
  _process_submission host out submission start_time valid_netlocs
    previous_search_queries previous_reply w
  = (inr false, add_event (LogException e) w1).
Proof.
  unfold submission_reaches_resolver, submission_request, reply_fails,
    _process_submission.
  intros (Hnew & Hread & Hsome & Hdiff) Hsearch Hresults Hfails.
  replace (s_created_utc submission <=? start_time)%Z with false
    by (symmetry; apply Z.leb_gt; exact Hnew).
  unfold bind at 1, get at 1. unfold bind at 1, outcome at 1.
  rewrite Hread. cbn [fst snd].
  destruct search_queries as [|q qs]; [congruence|].
  cbn [is_nil orb]. rewrite bool_decide_eq_false_2 by exact Hdiff.
  unfold bind at 1, log at 1, modify at 1. unfold bind at 1.
  rewrite Hsearch. destruct results as [|res ress]; [congruence|].
  cbn [is_nil].
  unfold try_except at 1, any_exception, bind at 1, get at 1.
  unfold bind at 1, outcome at 1.
  destruct Hfails as [->|(reply_text & -> & Hpost)];
    [unfold bind, log, modify, ret; reflexivity|].
  destruct previous_reply as [previous|].
  - destruct Hpost as [Hbody Hedit].
    destruct (decide (r_body previous <> reply_text)); [|contradiction].
    unfold bind at 1, bind at 1, get at 1, bind at 1, outcome at 1.
    rewrite Hedit. unfold bind, log, modify, ret. reflexivity.
  - unfold bind at 1, bind at 1, get at 1, bind at 1, outcome at 1.
    rewrite Hpost. unfold bind, log, modify, ret. reflexivity.
Qed.

(** C1, as the code has it: the handler of an item covers the making, the
    posting and the editing of the reply only.  An exception raised there
    is caught and logged, and the function returns [False] with nothing
    else done.  A comment makes its processing function raise exactly when
    it gets as far as the resolver and the resolver raises; a submission
    does so then, and also when urllib refuses its URL, which happens
    before anything is logged.  Such an exception ends the batch with the
    later items unprocessed; by then at most the request has been logged:
    no reply is posted or edited, no cache entry is made, no counter moves,
    and the exception is not logged.  When the function returns, the batch
    goes on with the next item. *)
Theorem only_resolver_failures_escape :
  (forall comment kind start_time bot_accounts comment_subreddits
          previous_search_queries previous_reply w w' e,
      _process_comment host out comment kind start_time bot_accounts
        comment_subreddits previous_search_queries previous_reply w
      = (inl e, w')
      <-> comment_reaches_resolver host out comment kind start_time
            bot_accounts comment_subreddits previous_search_queries w
          /\ run_search host out (comment_queries host out comment w)
               (add_event (comment_request host out comment kind w) w)
             = (inl e, w'))
  /\ (forall submission start_time valid_netlocs previous_search_queries
             previous_reply w w' e,
      _process_submission host out submission start_time valid_netlocs
        previous_search_queries previous_reply w = (inl e, w')
      <-> (submission_url_is_refused host out submission start_time
             valid_netlocs w e
           /\ w' = w)
          \/ exists normalized_url search_queries,
               submission_reaches_resolver host out submission start_time
                 valid_netlocs previous_search_queries w normalized_url
                 search_queries
               /\ run_search host out search_queries
                    (add_event
                       (submission_request submission search_queries) w)
                  = (inl e, w'))
  /\ (forall search_queries request w w' r,
      run_search host out search_queries (add_event request w) = (r, w') ->
      events w' = events w ++ [request]
      /\ replied_text_submissions w' = replied_text_submissions w
      /\ replied_comments w' = replied_comments w
      /\ responses_counter w' = responses_counter w)
  /\ (forall comment kind start_time bot_accounts comment_subreddits
             previous_search_queries previous_reply w w1 results e,
      comment_reaches_resolver host out comment kind start_time bot_accounts
        comment_subreddits previous_search_queries w ->
      run_search host out (comment_queries host out comment w)
        (add_event (comment_request host out comment kind w) w)
      = (inr results, w1) ->
      results <> [] ->
      reply_fails out (c_id comment) results false None previous_reply w1 e ->
      _process_comment host out comment kind start_time bot_accounts
        comment_subreddits previous_search_queries previous_reply w
      = (inr false, add_event (LogException e) w1))
  /\ (forall submission start_time valid_netlocs previous_search_queries
             previous_reply w w1 normalized_url search_queries results e,
      submission_reaches_resolver host out submission start_time
        valid_netlocs previous_search_queries w normalized_url
        search_queries ->
      run_search host out search_queries
        (add_event (submission_request submission search_queries) w)
      = (inr results, w1) ->
      results <> [] ->
      reply_fails out (s_id submission) results true
        (if s_is_self submission then None else Some normalized_url)
        previous_reply w1 e ->
      _process_submission host out submission start_time valid_netlocs
        previous_search_queries previous_reply w
      = (inr false, add_event (LogException e) w1))
  /\ (forall comment later kind start_time bot_accounts comment_subreddits
             w w',
      (forall e,
          _process_comment host out comment kind start_time bot_accounts
            (Some comment_subreddits) None None w = (inl e, w') ->
          comment_batch host out (Some comment :: later) kind start_time
            bot_accounts comment_subreddits w = (inl e, w'))
      /\ (forall answered,
          _process_comment host out comment kind start_time bot_accounts
            (Some comment_subreddits) None None w = (inr answered, w') ->
          comment_batch host out (Some comment :: later) kind start_time
            bot_accounts comment_subreddits w
          = comment_batch host out later kind start_time bot_accounts
              comment_subreddits w'))
  /\ (forall submission later start_time valid_netlocs w w',
      (forall e,
          _process_submission host out submission start_time valid_netlocs
            None None w = (inl e, w') ->
          submission_batch host out (Some submission :: later) start_time
            valid_netlocs w = (inl e, w'))
      /\ (forall answered,
          _process_submission host out submission start_time valid_netlocs
            None None w = (inr answered, w') ->
          submission_batch host out (Some submission :: later) start_time
            valid_netlocs w
          = submission_batch host out later start_time valid_netlocs w')).
Proof.
  split; [intros; apply comment_raises_iff|].
  split; [intros; apply submission_raises_iff|].
  split.
  { intros qs request w w' r Hsearch.
    apply run_search_frame in Hsearch as (-> & -> & -> & ->). auto. }
  split; [intros; eapply comment_reply_failure_is_logged; eassumption|].
  split; [intros; eapply submission_reply_failure_is_logged; eassumption|].
  split.
  - intros. split; intros ? Hrun; cbn [comment_batch]; unfold bind;
      now rewrite Hrun.
  - intros. split; intros ? Hrun; cbn [submission_batch]; unfold bind;
      now rewrite Hrun.
Qed.

(** When the sticky step returns, it has at most distinguished the reply. *)
Lemma try_sticky_returns (submission : Submission) (reply : Reply)
    (w w' : World) :
  try_sticky out submission reply w = (inr tt, w') ->
  w' = w \/ w' = add_event (Distinguished reply) w.
Proof.
  unfold try_sticky, try_except, bind, get, outcome, log, modify, ret,
    is_forbidden.
  destruct (comments_stickied out w submission) as [e1|comments].
  - destruct (bool_decide (e1 = Forbidden)); [|discriminate].
    intros [= <-]. now left.
  - destruct (match comments with [] => true | top :: _ => negb top end);
      [|intros [= <-]; now left].
    destruct (distinguish out w reply) as [e1|[]].
    + destruct (bool_decide (e1 = Forbidden)); [|discriminate].
      intros [= <-]. now left.
    + intros [= <-]. now right.
Qed.

Lemma replies_posted_add (e : event) (w : World) :
  replies_posted (add_event e w)
  = replies_posted w + (if is_reply e then 1 else 0).
Proof.
  unfold replies_posted. cbn [events add_event].
  rewrite List.filter_app, length_app. cbn [List.filter].
  destruct (is_reply e); reflexivity.
Qed.

Ltac count_replies :=
  unfold replies_posted in *;
  cbn [events add_event remember_comment remember_submission inc_counter] in *;
  repeat match goal with
         | H : events _ = _ |- _ => rewrite H in *
         end;
  rewrite ?List.filter_app, ?length_app; cbn [List.filter is_reply length];
  try lia.

(** One first-contact run on a comment posts at most one reply; when it
    returns [True] it has posted exactly one and the comment is in the
    cache with that reply. *)
Lemma comment_first_contact_once (comment : Comment) (kind : comment_type)
    (start_time : Z) (bot_accounts : list pystr)
    (comment_subreddits : option (list pystr))
    (previous_search_queries : option (list SearchQuery))
    (w w' : World) (r : exn + bool) :
  _process_comment host out comment kind start_time bot_accounts
    comment_subreddits previous_search_queries None w = (r, w') ->
  replies_posted w' <= replies_posted w + 1
  /\ (r = inr true ->
      replies_posted w' = replies_posted w + 1
      /\ exists text reply,
           last (events w') = Some (LogResponse (r_permalink reply))
           /\ In (Replied (c_id comment) text reply) (events w')
           /\ replied_comments w' !! c_id comment
              = Some (comment, comment_queries host out comment w, reply)).
Proof.
  unfold _process_comment.
  destruct (c_created_utc comment <=? start_time)%Z;
    [unfold ret; intros [= <- <-]; split; [lia|discriminate]|].
  destruct (c_author comment) as [author|];
    [|unfold ret; intros [= <- <-]; split; [lia|discriminate]].
  destruct (bool_decide (str_lower host (name author) ∈ bot_accounts));
    [unfold ret; intros [= <- <-]; split; [lia|discriminate]|].
  destruct (bool_decide (kind = TComment) && truthy (c_banned_by comment));
    [unfold ret; intros [= <- <-]; split; [lia|discriminate]|].
  match goal with
  | |- context [if (bool_decide (kind = TMention) && ?b) then _ else _] =>
      destruct (bool_decide (kind = TMention) && b)
  end; [unfold ret; intros [= <- <-]; split; [lia|discriminate]|].
  unfold bind at 1, get at 1.
  fold (comment_queries host out comment w).
  destruct (is_nil (comment_queries host out comment w) || bool_decide _);
    [unfold ret; intros [= <- <-]; split; [lia|discriminate]|].
  unfold bind at 1, log at 1, modify at 1. unfold bind at 1.
  destruct (run_search host out _ _) as [[e1|results] w1] eqn:Hsearch;
    apply run_search_frame in Hsearch as (Hev & _ & _ & _);
    cbn [events add_event] in Hev.
  { intros [= <- <-]. split; [count_replies|discriminate]. }
  destruct results as [|res ress]; cbn [is_nil].
  { unfold ret. intros [= <- <-]. split; [count_replies|discriminate]. }
  unfold try_except, any_exception, bind, get, outcome, log, modify, ret.
  destruct (generate_response out w1 (res :: ress) false None)
    as [e1|reply_text].
  { intros [= <- <-]. split; [count_replies|discriminate]. }
  destruct (reply_to out w1 (c_id comment) reply_text) as [e1|reply].
  { intros [= <- <-]. split; [count_replies|discriminate]. }
  intros [= <- <-]. split; [count_replies|]. intros _.
  split; [count_replies|]. exists reply_text, reply.
  cbn [events add_event remember_comment inc_counter replied_comments].
  split; [apply last_snoc|]. split.
  - rewrite !in_app_iff. left. right. left. reflexivity.
  - apply lookup_insert_eq.
Qed.

(** The same for a submission. *)
Lemma submission_first_contact_once (submission : Submission)
    (start_time : Z) (valid_netlocs : list pystr)
    (previous_search_queries : option (list SearchQuery))
    (w w' : World) (r : exn + bool) :
  _process_submission host out submission start_time valid_netlocs
    previous_search_queries None w = (r, w') ->
  replies_posted w' <= replies_posted w + 1
  /\ (r = inr true ->
      replies_posted w' = replies_posted w + 1
      /\ exists normalized_url search_queries text reply,
           submission_queries host (today out w) submission valid_netlocs
           = inr (normalized_url, search_queries)
           /\ In (Replied (s_id submission) text reply) (events w')
           /\ replied_text_submissions w' !! s_id submission
              = Some (submission, search_queries, reply)).
Proof.
  unfold _process_submission.
  destruct (s_created_utc submission <=? start_time)%Z;
    [unfold ret; intros [= <- <-]; split; [lia|discriminate]|].
  unfold bind at 1, get at 1. unfold bind at 1, outcome at 1.
  destruct (submission_queries host (today out w) submission valid_netlocs)
    as [e0|[normalized_url search_queries]] eqn:Hread;
    [intros [= <- <-]; split; [lia|discriminate]|].
  cbn [fst snd].
  destruct (is_nil _ || bool_decide _);
    [unfold ret; intros [= <- <-]; split; [lia|discriminate]|].
  unfold bind at 1, log at 1, modify at 1. unfold bind at 1.
  destruct (run_search host out _ _) as [[e1|results] w1] eqn:Hsearch;
    apply run_search_frame in Hsearch as (Hev & _ & _ & _);
    cbn [events add_event] in Hev.
  { intros [= <- <-]. split; [count_replies|discriminate]. }
  destruct results as [|res ress]; cbn [is_nil].
  { unfold ret. intros [= <- <-]. split; [count_replies|discriminate]. }
  unfold try_except at 1, any_exception, bind at 1, get at 1.
  unfold bind at 1, outcome at 1.
  destruct (generate_response out w1 (res :: ress) true _)
    as [e1|reply_text].
  { unfold bind, log, modify, ret. intros [= <- <-].
    split; [count_replies|discriminate]. }
  unfold bind at 1, bind at 1, get at 1, bind at 1, outcome at 1.
  destruct (reply_to out w1 (s_id submission) reply_text) as [e1|reply].
  { unfold bind, log, modify, ret. intros [= <- <-].
    split; [count_replies|discriminate]. }
  unfold bind at 1, log at 1, modify at 1, bind at 1, modify at 1, ret at 1.
  unfold bind at 1, log at 1, modify at 1, bind at 1, modify at 1.
  unfold bind at 1.
  match goal with
  | |- context [try_sticky out submission reply ?w6] =>
      destruct (try_sticky out submission reply w6) as [[e1|[]] w7] eqn:Hs;
      [apply try_sticky_raises in Hs as [-> _]|]
  end.
  { unfold bind, log, modify, ret. intros [= <- <-].
    split; [count_replies|discriminate]. }
  unfold ret. intros [= <- <-].
  apply try_sticky_returns in Hs as [->| ->].
  - split; [count_replies|]. intros _. split; [count_replies|].
    exists normalized_url, search_queries, reply_text, reply.
    cbn [events add_event remember_submission inc_counter
           replied_text_submissions].
    split; [reflexivity|]. split; [|apply lookup_insert_eq].
    rewrite !in_app_iff. left. right. left. reflexivity.
  - split; [count_replies|]. intros _. split; [count_replies|].
    exists normalized_url, search_queries, reply_text, reply.
    cbn [events add_event remember_submission inc_counter
           replied_text_submissions].
    split; [reflexivity|]. split; [|apply lookup_insert_eq].
    rewrite !in_app_iff. left. left. right. left. reflexivity.
Qed.

(** C2, as the code has it: the first-contact path does not look the item
    up in the cache.  Each of two runs in succession on the same comment, or
    on the same submission, posts at most one reply, so the two post at most
    two; a run that returns [True] has posted exactly one and has put the
    item in the cache with that reply and with the queries it read,
    whatever the cache held before. *)
Theorem first_contact_runs_post_at_most_one_reply_each :
  (forall comment kind start_time bot_accounts comment_subreddits w,
      let run := _process_comment host out comment kind start_time
                   bot_accounts comment_subreddits None None in
      let first := run w in
      let second := run (snd first) in
      replies_posted (snd first) <= replies_posted w + 1
      /\ replies_posted (snd second) <= replies_posted w + 2
      /\ (fst first = inr true ->
          replies_posted (snd first) = replies_posted w + 1
          /\ exists text reply,
               In (Replied (c_id comment) text reply) (events (snd first))
               /\ replied_comments (snd first) !! c_id comment
                  = Some (comment, comment_queries host out comment w, reply))
      /\ (fst first = inr true -> fst second = inr true ->
          replies_posted (snd second) = replies_posted w + 2
          /\ exists text reply,
               last (events (snd second))
               = Some (LogResponse (r_permalink reply))
               /\ In (Replied (c_id comment) text reply) (events (snd second))
               /\ replied_comments (snd second) !! c_id comment
                  = Some (comment,
                          comment_queries host out comment (snd first),
                          reply)))
  /\ (forall submission start_time valid_netlocs w,
      let run := _process_submission host out submission start_time
                   valid_netlocs None None in
      let first := run w in
      let second := run (snd first) in
      replies_posted (snd first) <= replies_posted w + 1
      /\ replies_posted (snd second) <= replies_posted w + 2
      /\ (fst first = inr true ->
          replies_posted (snd first) = replies_posted w + 1
          /\ exists normalized_url search_queries text reply,
               submission_queries host (today out w) submission
                 valid_netlocs
               = inr (normalized_url, search_queries)
               /\ In (Replied (s_id submission) text reply)
                     (events (snd first))
               /\ replied_text_submissions (snd first) !! s_id submission
                  = Some (submission, search_queries, reply))
      /\ (fst first = inr true -> fst second = inr true ->
          replies_posted (snd second) = replies_posted w + 2
          /\ exists normalized_url search_queries text reply,
               submission_queries host (today out (snd first)) submission
                 valid_netlocs
               = inr (normalized_url, search_queries)
               /\ In (Replied (s_id submission) text reply)
                     (events (snd second))
               /\ replied_text_submissions (snd second) !! s_id submission
                  = Some (submission, search_queries, reply))).
Proof.
  split.
  - intros comment kind start_time bot_accounts comment_subreddits w run
      first second.
    destruct (comment_first_contact_once comment kind start_time bot_accounts
                comment_subreddits None w (snd first) (fst first))
      as [Hle1 Htrue1]; [apply surjective_pairing|].
    destruct (comment_first_contact_once comment kind start_time bot_accounts
                comment_subreddits None (snd first) (snd second) (fst second))
      as [Hle2 Htrue2]; [apply surjective_pairing|].
    split; [exact Hle1|]. split; [lia|]. split.
    + intros H1. destruct (Htrue1 H1) as (Hn & text & reply & _ & Hin & Hc).
      eauto.
    + intros H1 H2. destruct (Htrue1 H1) as (Hn1 & _).
      destruct (Htrue2 H2) as (Hn2 & text & reply & Hlast & Hin & Hc).
      split; [lia|]. eauto.
  - intros submission start_time valid_netlocs w run first second.
    destruct (submission_first_contact_once submission start_time
                valid_netlocs None w (snd first) (fst first))
      as [Hle1 Htrue1]; [apply surjective_pairing|].
    destruct (submission_first_contact_once submission start_time
                valid_netlocs None (snd first) (snd second) (fst second))
      as [Hle2 Htrue2]; [apply surjective_pairing|].
    split; [exact Hle1|]. split; [lia|]. split.
    + intros H1. exact (Htrue1 H1).
    + intros H1 H2. destruct (Htrue1 H1) as (Hn1 & _).
      destruct (Htrue2 H2) as (Hn2 & Hrest).
      split; [lia|exact Hrest].
Qed.
End Lifecycle.

End BotProps.

(* ===================================================================== *)
(** ** Where the code departs from the specification: concrete runs *)
(* ===================================================================== *)

Module Runs.
Import Re Parse Eff Crom Search Bot Fixtures.

(** C4, as the specification has it, fails: the prefix directly followed
    by the number, as in "SCP173", yields no query in any context, although
    no word character follows the number. *)
Lemma bare_stage_needs_separator_example :
  parse ascii_only plain_paragraph an_ordinary_day (py "SCP173")
        SUBMISSION_TITLE = []
  /\ parse ascii_only plain_paragraph an_ordinary_day (py "SCP173")
           SUBMISSION_SELFTEXT = []
  /\ parse ascii_only plain_paragraph an_ordinary_day (py "I love SCP173")
           COMMENT_BODY = [].
Proof. vm_compute. auto. Qed.


(** C8, as the specification has it, fails: two user results whose names
    differ in case only both survive deduplication. *)
Lemma dedup_keeps_names_differing_in_case :
  fst (search ascii_str_lower two_users_session
              [freeform "Foo" primary_site; freeform "foo" primary_site] [])
  = inr [UserResult user_Foo; UserResult user_foo]
  /\ ascii_str_lower (displayName user_Foo)
     = ascii_str_lower (displayName user_foo).
Proof. vm_compute. auto. Qed.

(** C1, as the specification has it, fails: the resolver's failure on the
    first comment of a batch leaves [_process_comment] as an exception, is
    not logged, and ends the batch; the second comment, which is answered
    when the batch starts with it, gets no reply. *)
Lemma resolver_failure_ends_the_batch :
  let out := outside_with flaky_session (inr tt) in
  let c1 := comment_with "c1" "[[SCP-173]]" in
  let c2 := comment_with "c2" "[[SCP-999]]" in
  let one := _process_comment host0 out c1 TComment 0 [] (Some []) None None
                              empty_world in
  let both := comment_batch host0 out [Some c1; Some c2] TComment 0 [] []
                            empty_world in
  fst one = inl (OtherError "ConnectionError")
  /\ fst both = inl (OtherError "ConnectionError")
  /\ exceptions_logged (snd both) = 0
  /\ replies_posted (snd both) = 0
  /\ replies_posted
       (snd (comment_batch host0 out [Some c2] TComment 0 [] [] (snd one))) = 1.
Proof. vm_compute. auto 10. Qed.

(** C2, as the specification has it, fails: two first-contact runs on the
    same comment, one after the other, post two replies. *)
Lemma two_first_contact_runs_post_twice :
  let out := outside_with healthy_session (inr tt) in
  let c := comment_with "xyz789" "Check out [[SCP-173]]" in
  let run := _process_comment host0 out c TComment 0 [] (Some []) None None in
  let first := run empty_world in
  let second := run (snd first) in
  fst first = inr true
  /\ fst second = inr true
  /\ replies_posted (snd first) = 1
  /\ replies_posted (snd second) = 2.
Proof. vm_compute. auto. Qed.

(** A run of C10's situation: the wiki link post is answered, the
    sticky step hits a rate limit, the function returns [False], and the one
    reply stays. *)
Lemma create_is_not_rolled_back_witness :
  let out := outside_with healthy_session (inl (OtherError "RateLimit")) in
  let run := _process_submission host0 out link_post 0
               [py "scp-wiki.wikidot.com"] None None empty_world in
  fst run = inr false
  /\ replies_posted (snd run) = 1
  /\ count (py "submission") (py "SCP") (snd run) = 1.
Proof.
  intros out run.
  pose (link := py "http://scp-wiki.wikidot.com/scp-173").
  pose (queries := [{| type := URL; value := link; site_url := None |}]).
  pose (request := LogRequest (py "Submission") (s_permalink link_post) queries).
  destruct (BotProps.create_is_not_rolled_back host0 out link_post 0
              [py "scp-wiki.wikidot.com"] empty_world
              (snd (run_search host0 out queries
                      (add_event request empty_world)))
              link queries
              [PageResult (Some page_173) (Some [])]
              (py "Here is info")
              (reply_for (py "abc123") (py "Here is info"))
              (OtherError "RateLimit"))
    as (_ & Hrun & _ & _ & _ & Hcount).
  - reflexivity.
  - vm_compute. reflexivity.
  - discriminate.
  - vm_compute. reflexivity.
  - discriminate.
  - reflexivity.
  - reflexivity.
  - vm_compute. reflexivity.
  - subst run. rewrite Hrun. split; [reflexivity|].
    split; [vm_compute; reflexivity|exact Hcount].
Defined.


(** C4's first part at "scp 3000 is deep": lower case, a space as the
    separator, four digits, then a space. *)
Lemma bare_stage_requires_the_separator_witness :
  exists more,
    bare_queries ascii_only (py "scp 3000 is deep")
    = freeform "scp 3000" primary_site :: more.
Proof.
  destruct (proj1 (ReProps.bare_stage_requires_the_separator ascii_only)
              115%N 99%N 112%N 32%N (py "3000") (py " is deep"))
    as (v & more & Hqueries & _ & Hexact).
  - reflexivity.
  - reflexivity.
  - reflexivity.
  - now right.
  - now right.
  - repeat constructor.
  - reflexivity.
  - exists more. rewrite Hexact in Hqueries by discriminate. exact Hqueries.
Defined.

(** C6: the Italian pattern takes the number and the marker with nothing
    between them: "SCP-173IT" gives a Bare query for the Italian site, in a
    title and in a comment alike, whatever the interpreter's tables. *)
Theorem italian_pattern_without_hyphen (u : Unicode)
    (sanitize : pystr -> pystr) (now : date) :
  parse u sanitize now (py "SCP-173IT") SUBMISSION_TITLE
  = [bare "173IT" italian_site]
  /\ parse u plain_paragraph now (py "I read SCP-173IT") COMMENT_BODY
     = [bare "173IT" italian_site].
Proof.
  split; [vm_compute; reflexivity|].
  destruct now as [d m]. vm_compute.
  repeat match goal with
         | |- context [match ?x with _ => _ end] => destruct x
         end; reflexivity.
Qed.

Lemma query_batch_returns_none_after_two_expiries_witness :
  query_batch response always_expired [] []
  = (inr None, [Post []; FetchToken; Post []; FetchToken]).
Proof.
  apply (proj2 (CromProps.query_batch_returns_none_after_two_expiries
                  response always_expired [] [] eq_refl eq_refl));
    reflexivity.
Defined.

(** C1 on three runs.  The first comment of the batch above got as far
    as the resolver, and when the resolver failed only the request had been
    logged.  A comment whose reply cannot be made returns [False] with the
    exception logged after the request, and nothing posted.  A link post
    whose link urllib refuses makes [_process_submission] raise and leaves
    the state as it was. *)
Lemma only_resolver_failures_escape_witness :
  let out := outside_with flaky_session (inr tt) in
  let c1 := comment_with "c1" "[[SCP-173]]" in
  let one := _process_comment host0 out c1 TComment 0 [] (Some []) None None
                              empty_world in
  let mute := outside_without_words healthy_session in
  let two := _process_comment host0 mute c1 TComment 0 [] (Some []) None None
                              empty_world in
  let three := _process_submission strict_host out broken_link_post 0 [] None
                                   None empty_world in
  (comment_reaches_resolver host0 out c1 TComment 0 [] (Some []) None
                            empty_world
   /\ events (snd one) = [comment_request host0 out c1 TComment empty_world]
   /\ replied_comments (snd one) = ∅)
  /\ (fst two = inr false
      /\ events (snd two)
         = [comment_request host0 mute c1 TComment empty_world;
            LogException KeyError]
      /\ replied_comments (snd two) = ∅)
  /\ (three = (inl (OtherError "ValueError"), empty_world)
      /\ submission_url_is_refused strict_host out broken_link_post 0 []
           empty_world (OtherError "ValueError")).
Proof.
  intros out c1 one mute two three.
  pose proof (BotProps.only_resolver_failures_escape host0 out)
    as (Hcomment & _ & Hframe & _).
  pose proof (BotProps.only_resolver_failures_escape host0 mute)
    as (_ & _ & Hframe' & Hlogged & _).
  pose proof (BotProps.only_resolver_failures_escape strict_host out)
    as (_ & Hsubmission & _).
  split; [|split].
  - assert (Hrun : _process_comment host0 out c1 TComment 0 [] (Some []) None
                                    None empty_world
                   = (inl (OtherError "ConnectionError"), snd one))
      by (vm_compute; reflexivity).
    apply Hcomment in Hrun as [Hreaches Hsearch].
    apply Hframe in Hsearch as (Hevents & _ & Hcache & _).
    split; [exact Hreaches|]. split; [exact Hevents|exact Hcache].
  - pose (searched :=
            run_search host0 mute (comment_queries host0 mute c1 empty_world)
              (add_event (comment_request host0 mute c1 TComment empty_world)
                         empty_world)).
    assert (Hsearch : searched
                      = (inr [PageResult (Some page_173) (Some [])],
                         snd searched))
      by (vm_compute; reflexivity).
    assert (Hrun : two = (inr false,
                          add_event (LogException KeyError) (snd searched))).
    { apply (Hlogged c1 TComment 0%Z [] (Some []) None None empty_world
               (snd searched) [PageResult (Some page_173) (Some [])]
               KeyError).
      - repeat split; [vm_compute; discriminate|discriminate].
      - exact Hsearch.
      - discriminate.
      - left. reflexivity. }
    apply Hframe' in Hsearch as (Hevents & _ & Hcache & _).
    rewrite Hrun. cbn [fst snd events add_event replied_comments].
    rewrite Hevents, Hcache. repeat split.
  - assert (Hrun : three = (inl (OtherError "ValueError"), empty_world))
      by (vm_compute; reflexivity).
    split; [exact Hrun|].
    apply Hsubmission in Hrun
      as [[Hrefused _]|(n & qs & (_ & Hread & _) & _)];
      [exact Hrefused|].
    vm_compute in Hread. discriminate Hread.
Defined.

(** C2 on the run above, and on the link post: both runs return [True],
    the two have posted two replies, and after each the item is in the
    cache. *)
Lemma first_contact_runs_post_at_most_one_reply_each_witness :
  let out := outside_with healthy_session (inr tt) in
  let c := comment_with "xyz789" "Check out [[SCP-173]]" in
  let run := _process_comment host0 out c TComment 0 [] (Some []) None None in
  let again := _process_submission host0 out link_post 0
                 [py "scp-wiki.wikidot.com"] None None in
  replies_posted (snd (run (snd (run empty_world)))) = 2
  /\ replies_posted (snd (again empty_world)) = 1
  /\ replies_posted (snd (again (snd (again empty_world)))) = 2
  /\ exists normalized_url search_queries text reply,
      submission_queries host0 (today out empty_world) link_post
        [py "scp-wiki.wikidot.com"]
      = inr (normalized_url, search_queries)
      /\ In (Replied (s_id link_post) text reply)
            (events (snd (again empty_world)))
      /\ replied_text_submissions (snd (again empty_world)) !! s_id link_post
         = Some (link_post, search_queries, reply).
Proof.
  intros out c run again.
  pose proof (proj1 (BotProps.first_contact_runs_post_at_most_one_reply_each
                       host0 out)
                c TComment 0%Z [] (Some []) empty_world)
    as (_ & _ & _ & Hboth).
  pose proof (proj2 (BotProps.first_contact_runs_post_at_most_one_reply_each
                       host0 out)
                link_post 0%Z [py "scp-wiki.wikidot.com"] empty_world)
    as (_ & _ & Hfirst & Hsecond).
  split; [|split; [|split]].
  - destruct Hboth as [Hcount _]; [vm_compute; reflexivity..|exact Hcount].
  - destruct Hfirst as [Hcount _]; [vm_compute; reflexivity|exact Hcount].
  - destruct Hsecond as [Hcount _]; [vm_compute; reflexivity..|exact Hcount].
  - destruct Hfirst as [_ Hcached]; [vm_compute; reflexivity|exact Hcached].
Defined.

(** C8's last part on the run above: the one group of two queries is
    posted once, and what [search] returns for the two names is what
    [_uniq_by] keeps of the results of the second loop, both of them. *)
Lemma search_batches_by_25_and_dedups_by_exact_identity_witness :
  let queries := [freeform "Foo" primary_site; freeform "foo" primary_site] in
  exists (retried : list bool) responses calls1 results,
    query_groups ascii_str_lower two_users_session (_chunks queries 25) []
    = (inr responses, calls1)
    /\ length retried = 1
    /\ collect ascii_str_lower two_users_session queries 0 responses calls1
       = (inr results, [Post (map (gql_of ascii_str_lower) queries)])
    /\ _uniq_by results identity
       = inr [UserResult user_Foo; UserResult user_foo]
    /\ forall x k, x ∈ results -> identity x = inr k ->
         exists y,
           y ∈ [UserResult user_Foo; UserResult user_foo]
           /\ identity y = inr k.
Proof.
  intros queries.
  pose proof (SearchProps.search_batches_by_25_and_dedups_by_exact_identity
                ascii_str_lower two_users_session queries)
    as (_ & _ & Hkept).
  destruct (Hkept [] [Post (map (gql_of ascii_str_lower) queries)]
              [UserResult user_Foo; UserResult user_foo])
    as (retried & responses & calls1 & results & Hgroups & Hlen & _
        & Hcollect & Huniq & _ & _ & Hall & _).
  - vm_compute. reflexivity.
  - exists retried, responses, calls1, results.
    split; [exact Hgroups|]. split; [exact Hlen|]. split; [exact Hcollect|].
    split; [exact Huniq|exact Hall].
Defined.


End Runs.

(* ===================================================================== *)
(** ** crom_client.py: which failures are retried, and what [query] returns *)
(* ===================================================================== *)

Module CromExtra.
Import Py Eff Crom.

Section QueryBatch.
Variable D : Type.
Variable session : Session D.
Variable queries : list GraphQLQuery.
Variable calls : list session_call.

Lemma expired_is_expired : is_token_expired TokenExpiredError = true.
Proof. reflexivity. Qed.

Lemma other_is_not_expired (e : exn) :
  e <> TokenExpiredError -> is_token_expired e = false.
Proof. intros He. unfold is_token_expired. now apply bool_decide_eq_false. Qed.

Lemma expired_or_not (history : list session_call) :
  session_post D session history queries = inl TokenExpiredError
  \/ session_post D session history queries <> inl TokenExpiredError.
Proof.
  destruct (session_post D session history queries) as [e|b];
    [|right; discriminate].
  destruct (decide (e = TokenExpiredError)) as [->|He];
    [now left|right; congruence].
Qed.

(** One turn of the loop of [query_batch] when the request does not report
    an expired token: the answer is final, whatever it is. *)
Lemma query_batch_loop_final (n : nat) (history : list session_call) :
  session_post D session history queries <> inl TokenExpiredError ->
  query_batch_loop D session (S n) queries history
  = (match session_post D session history queries with
     | inl e => inl e
     | inr BodyOther => inl CromAPIException
     | inr (BodyList items) =>
         if existsb (has_errors D) items then inl CromAPIException
         else inr (Some (map (qr_data D) items))
     end,
     history ++ [Post queries]).
Proof.
  intros Hfirst. cbn [query_batch_loop].
  unfold bind, try_except, post, fetch_token, ret, raise.
  destruct (session_post D session history queries) as [e|[items|]].
  - rewrite other_is_not_expired; [reflexivity|]. congruence.
  - now destruct (existsb _ items).
  - reflexivity.
Qed.

(** The other turn: the request reports an expired token; the token is
    fetched, and a failure of that is raised. *)
Lemma query_batch_loop_expired (n : nat) (history : list session_call) :
  session_post D session history queries = inl TokenExpiredError ->
  query_batch_loop D session (S n) queries history
  = match session_fetch_token D session (history ++ [Post queries]) with
    | inl e => (inl e, history ++ [Post queries; FetchToken])
    | inr _ =>
        query_batch_loop D session n queries
                         (history ++ [Post queries; FetchToken])
    end.
Proof.
  intros Hfirst. cbn [query_batch_loop].
  unfold bind, try_except, post, fetch_token, ret, raise.
  rewrite Hfirst, expired_is_expired, <- app_assoc. cbn [app].
  now destruct (session_fetch_token D session (history ++ [Post queries])).
Qed.

(** Only an expired token is retried.  Any other failure of the first
    request is raised as it is after that one request; a body that is not
    a list, or a list with an element that reports errors, raises
    CromAPIException after that one request; a clean list is returned
    element by element; and when the token has expired and fetching a new
    one fails, that failure is raised and no second request is made. *)
Theorem query_batch_retries_expiry_only :
  (forall e,
      session_post D session calls queries = inl e ->
      e <> TokenExpiredError ->
      query_batch D session queries calls = (inl e, calls ++ [Post queries]))
  /\ (session_post D session calls queries = inr BodyOther ->
      query_batch D session queries calls
      = (inl CromAPIException, calls ++ [Post queries]))
  /\ (forall items,
      session_post D session calls queries = inr (BodyList items) ->
      query_batch D session queries calls
      = (if existsb (has_errors D) items then inl CromAPIException
         else inr (Some (map (qr_data D) items)),
         calls ++ [Post queries]))
  /\ (forall e,
      session_post D session calls queries = inl TokenExpiredError ->
      session_fetch_token D session (calls ++ [Post queries]) = inl e ->
      query_batch D session queries calls
      = (inl e, calls ++ [Post queries; FetchToken])).
Proof.
  unfold query_batch. repeat split.
  - intros e He Hother. rewrite query_batch_loop_final, He; [reflexivity|].
    rewrite He. congruence.
  - intros Hbody. rewrite query_batch_loop_final, Hbody; [reflexivity|].
    rewrite Hbody. discriminate.
  - intros items Hbody. rewrite query_batch_loop_final, Hbody; [reflexivity|].
    rewrite Hbody. discriminate.
  - intros e Hfirst Hfetch. now rewrite query_batch_loop_expired, Hfetch.
Qed.

(** Whatever the session does, one call of [query_batch] makes one of four
    sequences of calls on it: a request; a request and a token fetch; these
    and a second request; or these and a second token fetch.  It returns
    [None] only after the fourth, and a list only after the first or the
    third. *)
Theorem query_batch_makes_at_most_two_requests (r : exn + option (list D))
    (calls' : list session_call) :
  query_batch D session queries calls = (r, calls') ->
  exists new,
    calls' = calls ++ new
    /\ In new [[Post queries];
               [Post queries; FetchToken];
               [Post queries; FetchToken; Post queries];
               [Post queries; FetchToken; Post queries; FetchToken]]
    /\ (r = inr None ->
        new = [Post queries; FetchToken; Post queries; FetchToken])
    /\ (forall data, r = inr (Some data) ->
        new = [Post queries]
        \/ new = [Post queries; FetchToken; Post queries]).
Proof.
  unfold query_batch.
  assert (Hfinal : forall history n r0,
             session_post D session history queries <> inl TokenExpiredError ->
             query_batch_loop D session (S n) queries history
             = (r0, history ++ [Post queries]) ->
             r0 <> inr None).
  { intros history n r0 Hne. rewrite query_batch_loop_final by exact Hne.
    intros [= <-].
    destruct (session_post D session history queries) as [e|[items|]];
      try discriminate.
    destruct (existsb _ items); discriminate. }
  destruct (expired_or_not calls) as [Hfirst|Hfirst].
  - rewrite query_batch_loop_expired by exact Hfirst.
    destruct (session_fetch_token D session (calls ++ [Post queries]))
      as [e|[]].
    + intros [= <- <-]. exists [Post queries; FetchToken].
      split; [reflexivity|]. split; [cbn; tauto|].
      split; [discriminate|]. intros data; discriminate.
    + set (history := calls ++ [Post queries; FetchToken]).
      destruct (expired_or_not history) as [Hsecond|Hsecond].
      * rewrite query_batch_loop_expired by exact Hsecond.
        unfold history. rewrite <- !app_assoc. cbn [app query_batch_loop].
        destruct (session_fetch_token D session _) as [e|[]];
          intros [= <- <-];
          exists [Post queries; FetchToken; Post queries; FetchToken];
          (split; [reflexivity|]); (split; [cbn; tauto|]);
          (split; [reflexivity|]); intros data; discriminate.
      * intros Hrun. pose proof Hrun as Hrun'.
        rewrite query_batch_loop_final in Hrun' by exact Hsecond.
        injection Hrun' as Hr Hcalls.
        exists [Post queries; FetchToken; Post queries].
        split; [subst calls'; unfold history; now rewrite <- app_assoc|].
        split; [cbn; tauto|].
        split; [|intros data _; now right].
        intros ->. exfalso.
        rewrite <- Hcalls in Hrun.
        exact (Hfinal history 0 (inr None) Hsecond Hrun eq_refl).
  - intros Hrun. pose proof Hrun as Hrun'.
    rewrite query_batch_loop_final in Hrun' by exact Hfirst.
    injection Hrun' as Hr Hcalls.
    exists [Post queries]. split; [now subst calls'|].
    split; [cbn; tauto|].
    split; [|intros data _; now left].
    intros ->. exfalso. rewrite <- Hcalls in Hrun.
    exact (Hfinal calls 1 (inr None) Hfirst Hrun eq_refl).
Qed.
End QueryBatch.

Section Query.
Variable D : Type.
Variable session : Session D.
Variable q : GraphQLQuery.
Variable calls : list session_call.

(** [query] is [query_batch([query])[0]]: of a clean list it returns the
    data of the first element, whatever follows it; an empty list in
    answer raises IndexError; and after two expired tokens, where
    [query_batch] returns [None], it raises TypeError. *)
Theorem query_takes_the_first_answer :
  (forall item more,
      session_post D session calls [q] = inr (BodyList (item :: more)) ->
      existsb (has_errors D) (item :: more) = false ->
      query_one D session q calls = (inr (qr_data D item), calls ++ [Post [q]]))
  /\ (session_post D session calls [q] = inr (BodyList []) ->
      query_one D session q calls = (inl IndexError, calls ++ [Post [q]]))
  /\ (session_post D session calls [q] = inl TokenExpiredError ->
      session_fetch_token D session (calls ++ [Post [q]]) = inr tt ->
      session_post D session (calls ++ [Post [q]; FetchToken]) [q]
      = inl TokenExpiredError ->
      session_fetch_token D session
        (calls ++ [Post [q]; FetchToken; Post [q]]) = inr tt ->
      query_one D session q calls
      = (inl TypeError,
         calls ++ [Post [q]; FetchToken; Post [q]; FetchToken])).
Proof.
  unfold query_one, bind, query_batch. repeat split.
  - intros item more Hbody Hclean.
    rewrite query_batch_loop_final, Hbody, Hclean; [reflexivity|].
    rewrite Hbody. discriminate.
  - intros Hbody.
    rewrite query_batch_loop_final, Hbody; [reflexivity|].
    rewrite Hbody. discriminate.
  - intros Hfirst Hrefresh Hsecond Hagain.
    rewrite query_batch_loop_expired, Hrefresh by exact Hfirst.
    rewrite query_batch_loop_expired by exact Hsecond.
    rewrite <- !app_assoc. cbn [app query_batch_loop].
    rewrite Hagain. reflexivity.
Qed.
End Query.

Section Witnesses.
Import Search Fixtures.

Lemma query_batch_makes_at_most_two_requests_witness :
  exists new,
    [Post []; FetchToken; Post []; FetchToken] = [] ++ new
    /\ In new [[Post []];
               [Post []; FetchToken];
               [Post []; FetchToken; Post []];
               [Post []; FetchToken; Post []; FetchToken]]
    /\ (@inr exn (option (list response)) None = inr None ->
        new = [Post []; FetchToken; Post []; FetchToken])
    /\ (forall data, @inr exn (option (list response)) None = inr (Some data) ->
        new = [Post []]
        \/ new = [Post []; FetchToken; Post []]).
Proof.
  exact (query_batch_makes_at_most_two_requests response always_expired [] []
           (inr None) [Post []; FetchToken; Post []; FetchToken] eq_refl).
Defined.

Lemma query_batch_retries_expiry_only_witness :
  query_batch response flaky_session [] []
  = (inl (OtherError "ConnectionError"), [Post []]).
Proof.
  apply (proj1 (query_batch_retries_expiry_only response flaky_session [] [])).
  - reflexivity.
  - discriminate.
Defined.

Lemma query_takes_the_first_answer_witness :
  query_one response healthy_session
            {| query := PAGE_BY_URL_QUERY; variables := [] |} []
  = (inr page_answer,
     [Post [{| query := PAGE_BY_URL_QUERY; variables := [] |}]]).
Proof.
  apply (proj1 (query_takes_the_first_answer response healthy_session
                  {| query := PAGE_BY_URL_QUERY; variables := [] |} [])
           {| qr_data := page_answer; qr_errors := None |} []);
    reflexivity.
Defined.
End Witnesses.

End CromExtra.

(* ===================================================================== *)
(** ** search.py: groups, deduplication, and the requests of [search] *)
(* ===================================================================== *)

Module SearchExtra.
Import Py Eff Crom Parse Search SearchProps.

Section Chunks.
Context {A : Type}.

Lemma chunks_loop_length (n turns : nat) (lst : list A) :
  0 < n -> length lst <= turns ->
  length (chunks_loop turns lst n) = (length lst + n - 1) / n.
Proof.
  intros Hn. revert lst.
  induction turns as [|turns IH]; intros lst Hlen.
  - destruct lst; [|simpl in Hlen; lia].
    cbn [chunks_loop length]. symmetry. apply Nat.div_small. lia.
  - destruct lst as [|x lst].
    + cbn [chunks_loop length]. symmetry. apply Nat.div_small. lia.
    + cbn [chunks_loop length].
      rewrite IH by (rewrite length_drop; simpl in *; lia).
      rewrite length_drop. cbn [length]. set (len := S (length lst)).
      destruct (le_lt_dec len n) as [Hshort|Hlong].
      * replace (len - n + n - 1) with (n - 1) by lia.
        rewrite (Nat.div_small (n - 1) n) by lia.
        apply (Nat.div_unique _ _ _ (len - 1)); lia.
      * replace (len + n - 1) with (len - n + n - 1 + 1 * n) by lia.
        rewrite Nat.div_add by lia. lia.
Qed.

(** [_chunks(lst, n)] for a positive [n] cuts [lst] into the least number
    of groups of at most [n]: their number is the length divided by [n],
    rounded up; put back together they are [lst]; none is empty; and a
    list that fits in one group is that group. *)
Theorem chunks_are_as_few_as_possible (lst : list A) (n : nat) :
  0 < n ->
  length (_chunks lst n) = (length lst + n - 1) / n
  /\ concat (_chunks lst n) = lst
  /\ Forall (fun group => 1 <= length group <= n) (_chunks lst n)
  /\ (1 <= length lst <= n -> _chunks lst n = [lst])
  /\ (lst = [] -> _chunks lst n = []).
Proof.
  intros Hn. unfold _chunks.
  split; [now apply chunks_loop_length|].
  split; [now apply chunks_loop_concat|].
  split; [now apply chunks_loop_sizes|].
  split.
  - intros [Hone Hfit]. destruct lst as [|x lst]; [simpl in Hone; lia|].
    cbn [length chunks_loop].
    rewrite take_ge by exact Hfit. rewrite drop_ge by exact Hfit.
    now destruct (length lst).
  - now intros ->.
Qed.
End Chunks.

Section Uniq.
Context {A K : Type} `{Countable K}.
Variable mapper : A -> exn + K.

Lemma uniq_loop_again (items : list A) (tracking : gset K) (kept : list A) :
  uniq_loop mapper tracking items = inr kept ->
  uniq_loop mapper tracking kept = inr kept.
Proof.
  revert tracking kept.
  induction items as [|x items IH]; intros tracking kept; cbn [uniq_loop].
  - now intros [= <-].
  - destruct (mapper x) as [e|k] eqn:Hx; [discriminate|].
    destruct (decide (k ∈ tracking)) as [Hin|Hout]; [apply IH|].
    destruct (uniq_loop mapper ({[k]} ∪ tracking) items) as [e|kept']
      eqn:Hrest; [discriminate|].
    intros [= <-]. cbn [uniq_loop]. rewrite Hx.
    destruct (decide (k ∈ tracking)); [contradiction|].
    now rewrite (IH _ _ Hrest).
Qed.

Lemma uniq_loop_fails (items : list A) (tracking : gset K) (e : exn) :
  uniq_loop mapper tracking items = inl e
  <-> exists before x after,
        items = before ++ x :: after
        /\ mapper x = inl e
        /\ Forall (fun y => exists k, mapper y = inr k) before.
Proof.
  revert tracking.
  induction items as [|x items IH]; intros tracking; cbn [uniq_loop].
  - split; [discriminate|].
    intros (before & y & after & Hsplit & _). now destruct before.
  - destruct (mapper x) as [e'|k] eqn:Hx.
    + split.
      * intros [= ->]. exists [], x, items. repeat split; [exact Hx|constructor].
      * intros (before & y & after & Hsplit & Hy & Hbefore).
        destruct before as [|b before]; cbn [app] in Hsplit.
        -- injection Hsplit as -> ->. congruence.
        -- injection Hsplit as -> ->.
           apply Forall_cons in Hbefore as [[k Hk] _]. congruence.
    + assert (Hlater : forall tracking',
                 uniq_loop mapper tracking' items = inl e
                 <-> exists before y after,
                       x :: items = before ++ y :: after
                       /\ mapper y = inl e
                       /\ Forall (fun y => exists k, mapper y = inr k) before).
      { intros tracking'. rewrite IH. split.
        - intros (before & y & after & -> & Hy & Hbefore).
          exists (x :: before), y, after. repeat split; [exact Hy|].
          constructor; [now exists k|exact Hbefore].
        - intros (before & y & after & Hsplit & Hy & Hbefore).
          destruct before as [|b before]; cbn [app] in Hsplit.
          + injection Hsplit as -> ->. congruence.
          + injection Hsplit as -> ->.
            apply Forall_cons in Hbefore as [_ Hbefore].
            now exists before, y, after. }
      destruct (decide (k ∈ tracking)); [apply Hlater|].
      rewrite <- (Hlater ({[k]} ∪ tracking)).
      destruct (uniq_loop mapper ({[k]} ∪ tracking) items);
        split; congruence.
Qed.

(** [_uniq_by] run over its own output changes nothing; a list whose keys
    are pairwise different comes back as it is; and the call fails exactly
    when the mapper fails on an item, with the failure of the first such
    item. *)
Theorem uniq_by_is_idempotent (items : list A) :
  (forall kept,
      _uniq_by items mapper = inr kept -> _uniq_by kept mapper = inr kept)
  /\ (forall keys,
      Forall2 (fun x k => mapper x = inr k) items keys -> NoDup keys ->
      _uniq_by items mapper = inr items)
  /\ (forall e,
      _uniq_by items mapper = inl e
      <-> exists before x after,
            items = before ++ x :: after
            /\ mapper x = inl e
            /\ Forall (fun y => exists k, mapper y = inr k) before).
Proof.
  unfold _uniq_by. split; [intros kept; apply uniq_loop_again|].
  split; [|intros e; apply uniq_loop_fails].
  intros keys Hkeys Hnodup.
  assert (Hgen : forall tracking,
             (forall k, k ∈ keys -> k ∉ tracking) ->
             uniq_loop mapper tracking items = inr items).
  { induction Hkeys as [|x k items keys Hx Hrest IH]; intros tracking Hfresh;
      cbn [uniq_loop]; [reflexivity|].
    apply NoDup_cons in Hnodup as [Hk Hnodup].
    rewrite Hx. destruct (decide (k ∈ tracking)) as [Hin|_].
    - exfalso. apply (Hfresh k); [apply elem_of_cons; now left|exact Hin].
    - rewrite IH; [reflexivity|exact Hnodup|].
      intros k' Hk' [->%elem_of_singleton|Hin]%elem_of_union.
      + contradiction.
      + apply (Hfresh k'); [apply elem_of_cons; now right|exact Hin]. }
  apply Hgen. intros k _. apply not_elem_of_empty.
Qed.
End Uniq.

Section Requests.
Variable str_lower : pystr -> pystr.
Variable session : Session response.

Lemma collect_length (search_queries : list SearchQuery) (i : nat)
    (responses : list response) (calls calls' : list session_call)
    (results : list result) :
  collect str_lower session search_queries i responses calls
  = (inr results, calls') ->
  length results <= length responses.
Proof.
  revert i calls calls' results.
  induction responses as [|r responses IH]; intros i calls calls' results;
    cbn [collect]; unfold bind, ret.
  - intros [= <- _]. reflexivity.
  - assert (Hbranch : forall history out history',
               page_branch session r history = (inr out, history') ->
               length out <= 1).
    { intros history out history'. unfold page_branch, bind, ret.
      destruct (wikidotPage r); [intros [= <- _]; cbn; lia|].
      destruct (searchPages_v1 r) as [[|hit hits]|];
        try (intros [= <- _]; cbn; lia).
      destruct (query_one _ _ _ _) as [[e|full] history1];
        [discriminate|intros [= <- _]; cbn; lia]. }
    match goal with
    | |- context [match ?c calls with pair _ _ => _ end] =>
        destruct (c calls) as [[e|here] calls1] eqn:Hhere; [discriminate|]
    end.
    assert (Hone : length here <= 1).
    { destruct (searchUsers_v1 r) as [[|first users]|];
        try exact (Hbranch _ _ _ Hhere).
      destruct (search_queries !! i); [|discriminate].
      destruct (decide _); [|exact (Hbranch _ _ _ Hhere)].
      injection Hhere as <- _. reflexivity. }
    destruct (collect _ _ _ _ _ calls1) as [[e|more] calls2] eqn:Hmore;
      [discriminate|].
    intros [= <- _]. rewrite length_app. cbn [length].
    apply IH in Hmore. lia.
Qed.

Lemma uniq_loop_key_error (results : list result) (tracking : gset pystr)
    (matching_pages : option (list WikidotPage)) :
  PageResult None matching_pages ∈ results ->
  uniq_loop identity tracking results = inl KeyError.
Proof.
  revert tracking. induction results as [|x results IH]; intros tracking Hin;
    [now apply elem_of_nil in Hin|].
  cbn [uniq_loop].
  destruct x as [user|[page|] pages]; cbn [identity]; [| |reflexivity].
  - apply elem_of_cons in Hin as [Hin|Hin]; [discriminate|].
    destruct (decide _); [now apply IH|]. now rewrite IH.
  - apply elem_of_cons in Hin as [Hin|Hin]; [discriminate|].
    destruct (decide _); [now apply IH|]. now rewrite IH.
Qed.

(** [search] returns at most one result for each response of the API, and
    never a page result without a page: when the second look-up of a page
    found by free text comes back with no page, so that a result holds
    [None] for its page, the call ends in a KeyError. *)
Theorem search_returns_no_result_without_a_page
    (search_queries : list SearchQuery) (calls : list session_call) :
  (forall kept calls',
      search str_lower session search_queries calls = (inr kept, calls') ->
      Forall (fun r => forall matching_pages,
                r <> PageResult None matching_pages) kept
      /\ exists responses calls1,
           query_groups str_lower session (_chunks search_queries 25) calls
           = (inr responses, calls1)
           /\ length kept <= length responses)
  /\ (forall responses calls1 results calls2 matching_pages,
      query_groups str_lower session (_chunks search_queries 25) calls
      = (inr responses, calls1) ->
      collect str_lower session search_queries 0 responses calls1
      = (inr results, calls2) ->
      PageResult None matching_pages ∈ results ->
      search str_lower session search_queries calls = (inl KeyError, calls2)).
Proof.
  split.
  - intros kept calls'. unfold search, bind.
    destruct (query_groups _ _ _ calls) as [[e|responses] calls1];
      [discriminate|].
    destruct (collect _ _ _ _ _ calls1) as [[e|results] calls2] eqn:Hcollect;
      [discriminate|].
    unfold outcome. intros [= Hkept <-].
    destruct (uniq_loop_spec identity results ∅ kept Hkept) as (Hsub & _).
    split.
    + apply Forall_forall. intros r Hr matching_pages ->.
      assert (Hin : PageResult None matching_pages ∈ results)
        by (eapply elem_of_sublist; eassumption).
      unfold _uniq_by in Hkept.
      rewrite (uniq_loop_key_error _ _ _ Hin) in Hkept. discriminate.
    + exists responses, calls1. split; [reflexivity|].
      apply sublist_length in Hsub. apply collect_length in Hcollect. lia.
  - intros responses calls1 results calls2 matching_pages Hgroups Hcollect Hin.
    unfold search, bind, outcome, _uniq_by.
    now rewrite Hgroups, Hcollect, (uniq_loop_key_error _ _ _ Hin).
Qed.

(** On a session that answers every request with a clean list. *)
Section Healthy.
Hypothesis Hhealthy :
  forall history batch,
    exists items,
      session_post response session history batch = inr (BodyList items)
      /\ existsb (has_errors response) items = false.

Lemma query_batch_healthy (batch : list GraphQLQuery)
    (calls : list session_call) :
  exists data,
    query_batch response session batch calls
    = (inr (Some data), calls ++ [Post batch]).
Proof using Hhealthy.
  destruct (Hhealthy calls batch) as (items & Hpost & Hclean).
  exists (map (qr_data response) items). unfold query_batch.
  rewrite CromExtra.query_batch_loop_final, Hpost, Hclean; [reflexivity|].
  rewrite Hpost. discriminate.
Qed.

Lemma query_groups_healthy (groups : list (list SearchQuery))
    (calls : list session_call) :
  exists responses,
    query_groups str_lower session groups calls
    = (inr responses,
       calls ++ map (fun group => Post (map (gql_of str_lower) group)) groups).
Proof using Hhealthy.
  revert calls. induction groups as [|group groups IH]; intros calls;
    cbn [query_groups map]; unfold bind, ret.
  - exists []. now rewrite app_nil_r.
  - destruct (query_batch_healthy (map (gql_of str_lower) group) calls)
      as (data & ->).
    destruct (IH (calls ++ [Post (map (gql_of str_lower) group)]))
      as (more & ->).
    exists (data ++ more). now rewrite <- app_assoc.
Qed.

Lemma page_branch_healthy (r : response) (calls : list session_call) :
  exists out new,
    page_branch session r calls = (out, calls ++ new)
    /\ Forall (fun c => exists hit,
                 c = Post [{| query := PAGE_BY_URL_QUERY;
                              variables := [(py "pageUrl", Some hit)] |}])
              new.
Proof using Hhealthy.
  unfold page_branch, query_one, bind, ret, raise.
  destruct (wikidotPage r);
    [eexists _, []; rewrite app_nil_r; split; [reflexivity|constructor]|].
  destruct (searchPages_v1 r) as [[|hit hits]|];
    try (eexists _, []; rewrite app_nil_r; split; [reflexivity|constructor]).
  destruct (query_batch_healthy
              [{| query := PAGE_BY_URL_QUERY;
                  variables := [(py "pageUrl", Some hit)] |}] calls)
    as (data & ->).
  destruct data as [|d data]; eexists _, [_];
    (split; [reflexivity|]); repeat constructor; now exists hit.
Qed.

Lemma collect_healthy (search_queries : list SearchQuery) (i : nat)
    (responses : list response) (calls : list session_call) :
  exists out new,
    collect str_lower session search_queries i responses calls
    = (out, calls ++ new)
    /\ Forall (fun c => exists hit,
                 c = Post [{| query := PAGE_BY_URL_QUERY;
                              variables := [(py "pageUrl", Some hit)] |}])
              new.
Proof using Hhealthy.
  revert i calls. induction responses as [|r responses IH]; intros i calls;
    cbn [collect]; unfold bind, ret.
  - eexists _, []. rewrite app_nil_r. split; [reflexivity|constructor].
  - match goal with
    | |- context [match ?here calls with pair _ _ => _ end] =>
        assert (Hhere : exists out new,
                   here calls = (out, calls ++ new)
                   /\ Forall (fun c => exists hit,
                                c = Post [{| query := PAGE_BY_URL_QUERY;
                                             variables :=
                                               [(py "pageUrl", Some hit)] |}])
                             new)
    end.
    { destruct (searchUsers_v1 r) as [[|first users]|];
        try apply page_branch_healthy.
      destruct (search_queries !! i);
        [|eexists _, []; rewrite app_nil_r; split; [reflexivity|constructor]].
      destruct (decide _); [|apply page_branch_healthy].
      eexists _, []. rewrite app_nil_r. split; [reflexivity|constructor]. }
    destruct Hhere as (out & new & -> & Hnew).
    destruct out as [e|here]; [now exists (inl e), new|].
    destruct (IH (S i) (calls ++ new)) as (out' & new' & -> & Hnew').
    rewrite <- app_assoc.
    destruct out' as [e|more]; eexists _, (new ++ new');
      (split; [reflexivity|now apply Forall_app]).
Qed.

(** On such a session [search] fetches no token and sends one request for
    every group of 25 queries, in order, each with the group's queries
    turned into GraphQL queries; after them it sends only requests of one
    query each, the second look-ups of pages found by free text.  The
    number of group requests is the number of queries divided by 25,
    rounded up. *)
Theorem search_requests_on_a_healthy_session
    (search_queries : list SearchQuery) (calls calls' : list session_call)
    (r : exn + list result) :
  search str_lower session search_queries calls = (r, calls') ->
  exists follow_ups,
    calls' = calls
             ++ map (fun group => Post (map (gql_of str_lower) group))
                    (_chunks search_queries 25)
             ++ follow_ups
    /\ Forall (fun c => exists hit,
                 c = Post [{| query := PAGE_BY_URL_QUERY;
                              variables := [(py "pageUrl", Some hit)] |}])
              follow_ups
    /\ length (_chunks search_queries 25) = (length search_queries + 24) / 25.
Proof using Hhealthy.
  unfold search, bind, outcome.
  destruct (query_groups_healthy (_chunks search_queries 25) calls)
    as (responses & ->).
  destruct (collect_healthy search_queries 0 responses
              (calls ++ map (fun group => Post (map (gql_of str_lower) group))
                            (_chunks search_queries 25)))
    as (out & follow_ups & -> & Hfollow).
  intros Hrun. exists follow_ups.
  split; [|split; [exact Hfollow|]].
  - rewrite app_assoc. destruct out; now injection Hrun as _ <-.
  - unfold _chunks. rewrite chunks_loop_length by lia. f_equal. lia.
Qed.
End Healthy.
End Requests.

Section Witnesses.
Import Fixtures MoreFixtures.

Lemma chunks_are_as_few_as_possible_witness :
  length (_chunks [1; 2; 3; 4; 5] 2) = 3
  /\ _chunks [1; 2] 2 = [[1; 2]].
Proof.
  destruct (chunks_are_as_few_as_possible [1; 2; 3; 4; 5] 2) as (Hn & _);
    [lia|].
  destruct (chunks_are_as_few_as_possible [1; 2] 2) as (_ & _ & _ & Hone & _);
    [lia|].
  split; [exact Hn|]. apply Hone. cbn. lia.
Defined.

Lemma uniq_by_is_idempotent_witness :
  _uniq_by [UserResult user_Foo] identity = inr [UserResult user_Foo].
Proof.
  apply (proj1 (uniq_by_is_idempotent identity
                  [UserResult user_Foo; UserResult user_Foo])).
  vm_compute. reflexivity.
Defined.

Lemma search_returns_no_result_without_a_page_witness :
  search ascii_str_lower lost_page_session
         [freeform "the sculpture" primary_site] []
  = (inl KeyError,
     [Post [gql_of ascii_str_lower (freeform "the sculpture" primary_site)];
      Post [{| query := PAGE_BY_URL_QUERY;
               variables :=
                 [(py "pageUrl",
                   Some (py "http://scp-wiki.wikidot.com/scp-173"))] |}]]).
Proof.
  apply (proj2 (search_returns_no_result_without_a_page ascii_str_lower
                  lost_page_session [freeform "the sculpture" primary_site] [])
           [found_by_text]
           [Post [gql_of ascii_str_lower
                         (freeform "the sculpture" primary_site)]]
           [PageResult None None] _ None).
  - reflexivity.
  - reflexivity.
  - apply elem_of_cons. now left.
Defined.

Lemma healthy_session_answers_cleanly (history : list session_call)
    (batch : list GraphQLQuery) :
  exists items,
    session_post response healthy_session history batch
    = inr (BodyList items)
    /\ existsb (has_errors response) items = false.
Proof.
  eexists. split; [reflexivity|].
  induction batch as [|q batch IH]; [reflexivity|exact IH].
Qed.

Lemma search_requests_on_a_healthy_session_witness :
  exists follow_ups,
    [Post [gql_of ascii_str_lower (freeform "scp-173" primary_site)]]
    = [] ++ map (fun group => Post (map (gql_of ascii_str_lower) group))
                (_chunks [freeform "scp-173" primary_site] 25)
         ++ follow_ups
    /\ Forall (fun c => exists hit,
                 c = Post [{| query := PAGE_BY_URL_QUERY;
                              variables := [(py "pageUrl", Some hit)] |}])
              follow_ups
    /\ length (_chunks [freeform "scp-173" primary_site] 25) = (1 + 24) / 25.
Proof.
  exact (search_requests_on_a_healthy_session ascii_str_lower healthy_session
           healthy_session_answers_cleanly
           [freeform "scp-173" primary_site] []
           [Post [gql_of ascii_str_lower (freeform "scp-173" primary_site)]]
           (inr [PageResult (Some page_173) (Some [])]) eq_refl).
Defined.
End Witnesses.

End SearchExtra.

(* ===================================================================== *)
(** ** bot.py: what a run can do to the state *)
(* ===================================================================== *)

Module BotExtra.
Import Py Eff Crom Parse Search Bot BotProps.

Section Runs.
Variable host : Host.
Variable out : Outside.

(** Every way a run of [_process_comment] can go. *)
Lemma comment_run_cases (comment : Comment) (kind : comment_type)
    (start_time : Z) (bot_accounts : list pystr)
    (comment_subreddits : option (list pystr))
    (previous_search_queries : option (list SearchQuery))
    (previous_reply : option Reply) (w w' : World) (r : exn + bool) :
  _process_comment host out comment kind start_time bot_accounts
    comment_subreddits previous_search_queries previous_reply w = (r, w') ->
  (~ comment_reaches_resolver host out comment kind start_time bot_accounts
       comment_subreddits previous_search_queries w
   /\ r = inr false /\ w' = w)
  \/ (comment_reaches_resolver host out comment kind start_time bot_accounts
        comment_subreddits previous_search_queries w
      /\ exists res w1,
           run_search host out (comment_queries host out comment w)
             (add_event (comment_request host out comment kind w) w)
           = (res, w1)
           /\ ((exists e, res = inl e /\ r = inl e /\ w' = w1)
               \/ (res = inr [] /\ r = inr false /\ w' = w1)
               \/ (exists results,
                     res = inr results /\ results <> []
                     /\ ((exists e, r = inr false
                                    /\ w' = add_event (LogException e) w1)
                         \/ (exists previous,
                               previous_reply = Some previous
                               /\ generate_response out w1 results false None
                                  = inr (r_body previous)
                               /\ r = inr false /\ w' = w1)
                         \/ (exists text reply,
                               previous_reply = None
                               /\ reply_to out w1 (c_id comment) text
                                  = inr reply
                               /\ r = inr true
                               /\ w' = inc_counter (type_label kind)
                                         (c_subreddit comment)
                                         (add_event
                                            (LogResponse (r_permalink reply))
                                            (remember_comment comment
                                               (comment_queries host out
                                                  comment w) reply
                                               (add_event
                                                  (Replied (c_id comment) text
                                                           reply) w1))))
                         \/ (exists text previous,
                               previous_reply = Some previous
                               /\ r_body previous <> text
                               /\ r = inr true
                               /\ w' = inc_counter (type_label kind)
                                         (c_subreddit comment)
                                         (add_event
                                            (LogResponse
                                               (r_permalink previous))
                                            (add_event (Edited previous text)
                                                       w1))))))).
Proof.
  unfold _process_comment, comment_reaches_resolver, comment_is_ignored,
    comment_request.
  fold (comment_queries host out comment w).
  destruct (c_created_utc comment <=? start_time)%Z.
  { unfold ret. intros [= <- <-]. left.
    split; [intros [? _]; discriminate|auto]. }
  destruct (c_author comment) as [author|].
  2: { unfold ret. intros [= <- <-]. left.
       split; [intros [? _]; discriminate|auto]. }
  destruct (bool_decide (str_lower host (name author) ∈ bot_accounts)).
  { unfold ret. intros [= <- <-]. left.
    split; [intros [? _]; discriminate|auto]. }
  destruct (bool_decide (kind = TComment) && truthy (c_banned_by comment)).
  { unfold ret. intros [= <- <-]. left.
    split; [intros [? _]; discriminate|auto]. }
  match goal with
  | |- context [if (bool_decide (kind = TMention) && ?b) then _ else _] =>
      destruct (bool_decide (kind = TMention) && b)
  end.
  { unfold ret. intros [= <- <-]. left.
    split; [intros [? _]; discriminate|auto]. }
  cbn [orb].
  unfold bind at 1, get at 1.
  fold (comment_queries host out comment w).
  destruct (comment_queries host out comment w) as [|q qs] eqn:Hqs.
  { cbn [is_nil orb]. unfold ret. intros [= <- <-]. left.
    split; [intros (_ & ? & _); congruence|auto]. }
  cbn [is_nil orb].
  destruct (bool_decide_reflect (Some (q :: qs) = previous_search_queries))
    as [Hsame|Hdiff].
  { unfold ret. intros [= <- <-]. left.
    split; [intros (_ & _ & ?); congruence|auto]. }
  intros Hrun. right.
  split; [repeat split; congruence|].
  revert Hrun.
  unfold bind at 1, log at 1, modify at 1. unfold bind at 1.
  destruct (run_search host out (q :: qs) _) as [[e1|results] w1] eqn:Hsearch.
  { intros [= <- <-]. exists (inl e1), w1. split; [reflexivity|].
    left. now exists e1. }
  exists (inr results), w1. split; [reflexivity|]. right.
  destruct results as [|res ress]; cbn [is_nil] in Hrun.
  { unfold ret in Hrun. injection Hrun as <- <-. now left. }
  right. exists (res :: ress). split; [reflexivity|]. split; [discriminate|].
  revert Hrun.
  unfold try_except, any_exception, bind, get, outcome, log, modify, ret.
  destruct (generate_response out w1 (res :: ress) false None)
    as [e1|reply_text] eqn:Hgen.
  { intros [= <- <-]. left. now exists e1. }
  destruct previous_reply as [previous|].
  - destruct (decide (r_body previous <> reply_text)) as [Hnew|Hold].
    + destruct (edit out w1 previous reply_text) as [e1|[]].
      * intros [= <- <-]. left. now exists e1.
      * intros [= <- <-]. right. right. right.
        now exists reply_text, previous.
    + intros [= <- <-]. right. left. exists previous.
      apply dec_stable in Hold. now subst reply_text.
  - destruct (reply_to out w1 (c_id comment) reply_text) as [e1|reply] eqn:Hr.
    + intros [= <- <-]. left. now exists e1.
    + intros [= <- <-]. right. right. left. now exists reply_text, reply.
Qed.

(** Every way a run of [_process_submission] can go. *)
Lemma submission_run_cases (submission : Submission) (start_time : Z)
    (valid_netlocs : list pystr)
    (previous_search_queries : option (list SearchQuery))
    (previous_reply : option Reply) (w w' : World) (r : exn + bool) :
  _process_submission host out submission start_time valid_netlocs
    previous_search_queries previous_reply w = (r, w') ->
  (submission_is_skipped host out submission start_time valid_netlocs
     previous_search_queries w
   /\ r = inr false /\ w' = w)
  \/ (exists e,
        submission_url_is_refused host out submission start_time
          valid_netlocs w e
        /\ r = inl e /\ w' = w)
  \/ (exists normalized_url search_queries,
      submission_reaches_resolver host out submission start_time
        valid_netlocs previous_search_queries w normalized_url search_queries
      /\ exists res w1,
           run_search host out search_queries
             (add_event (submission_request submission search_queries) w)
           = (res, w1)
           /\ ((exists e, res = inl e /\ r = inl e /\ w' = w1)
               \/ (res = inr [] /\ r = inr false /\ w' = w1)
               \/ (exists results,
                     res = inr results /\ results <> []
                     /\ ((exists e, r = inr false
                                    /\ w' = add_event (LogException e) w1)
                         \/ (exists previous,
                               previous_reply = Some previous
                               /\ r = inr false /\ w' = w1)
                         \/ (exists text reply w6,
                               ((previous_reply = None
                                 /\ reply_to out w1 (s_id submission) text
                                    = inr reply
                                 /\ w6 = after_first_reply submission
                                           search_queries text reply w1)
                                \/ (previous_reply = Some reply
                                    /\ r_body reply <> text
                                    /\ w6 = inc_counter (py "submission")
                                              (s_subreddit submission)
                                              (add_event
                                                 (LogResponse
                                                    (r_permalink reply))
                                                 (add_event
                                                    (Edited reply text) w1))))
                               /\ ((r = inr true
                                    /\ (w' = w6
                                        \/ w' = add_event
                                                  (Distinguished reply) w6))
                                   \/ (exists e,
                                         e <> Forbidden /\ r = inr false
                                         /\ w' = add_event (LogException e)
                                                           w6))))))).
Proof.
  unfold _process_submission, submission_reaches_resolver,
    submission_is_skipped, submission_url_is_refused, submission_request.
  destruct (Z.leb_spec (s_created_utc submission) start_time) as [Hold|Hnew].
  { unfold ret. intros [= <- <-]. left. auto. }
  unfold bind at 1, get at 1. unfold bind at 1, outcome at 1.
  destruct (submission_queries host (today out w) submission valid_netlocs)
    as [e0|[normalized_url search_queries]] eqn:Hread.
  { intros [= <- <-]. right. left. exists e0. auto. }
  cbn [fst snd].
  destruct search_queries as [|q qs] eqn:Hqs.
  { cbn [is_nil orb]. unfold ret. intros [= <- <-]. left.
    split; [|auto]. right. exists normalized_url, []. auto. }
  cbn [is_nil orb].
  destruct (bool_decide_reflect (Some (q :: qs) = previous_search_queries))
    as [Hsame|Hdiff].
  { unfold ret. intros [= <- <-]. left.
    split; [|auto]. right. exists normalized_url, (q :: qs). auto. }
  intros Hrun. right. right. exists normalized_url, (q :: qs).
  split; [repeat split; [exact Hnew|discriminate|exact Hdiff]|].
  revert Hrun.
  unfold bind at 1, log at 1, modify at 1. unfold bind at 1.
  destruct (run_search host out (q :: qs) _) as [[e1|results] w1] eqn:Hsearch.
  { intros [= <- <-]. exists (inl e1), w1. split; [reflexivity|].
    left. now exists e1. }
  intros Hrun. exists (inr results), w1. split; [reflexivity|]. right.
  destruct results as [|res ress]; cbn [is_nil] in Hrun.
  { unfold ret in Hrun. injection Hrun as <- <-. now left. }
  right. exists (res :: ress). split; [reflexivity|]. split; [discriminate|].
  revert Hrun.
  unfold try_except at 1, any_exception, bind at 1, get at 1.
  unfold bind at 1, outcome at 1.
  destruct (generate_response out w1 (res :: ress) true _)
    as [e1|reply_text].
  { unfold bind, log, modify, ret. intros [= <- <-]. left. now exists e1. }
  assert (Hsticky : forall reply w6 (r0 : exn + bool) w0,
             (let (r1, s') :=
                bind (try_sticky out submission reply) (fun _ => ret true) w6
              in
              match r1 with
              | inl e =>
                  bind (log (LogException e)) (fun _ => ret false) s'
              | inr a => (inr a, s')
              end) = (r0, w0) ->
             (r0 = inr true
              /\ (w0 = w6 \/ w0 = add_event (Distinguished reply) w6))
             \/ (exists e,
                   e <> Forbidden /\ r0 = inr false
                   /\ w0 = add_event (LogException e) w6)).
  { intros reply w6 r0 w0. unfold bind at 1.
    destruct (try_sticky out submission reply w6) as [[e1|[]] w7] eqn:Hs.
    - apply try_sticky_raises in Hs as [-> Hnot].
      unfold bind, log, modify, ret. intros [= <- <-]. right. now exists e1.
    - unfold ret. intros [= <- <-]. left. split; [reflexivity|].
      now apply try_sticky_returns in Hs. }
  destruct previous_reply as [previous|].
  - destruct (decide (r_body previous <> reply_text)) as [Hnew'|Hold'].
    + unfold bind at 1, bind at 1, get at 1, bind at 1, outcome at 1.
      destruct (edit out w1 previous reply_text) as [e1|[]].
      * unfold bind, log, modify, ret. intros [= <- <-]. left. now exists e1.
      * unfold bind at 1, log at 1, modify at 1, ret at 1.
        unfold bind at 1, log at 1, modify at 1, bind at 1, modify at 1.
        intros Hrun. apply Hsticky in Hrun.
        right. right. eexists reply_text, previous, _.
        split; [right; split; [reflexivity|split; [exact Hnew'|reflexivity]]
              |exact Hrun].
    + unfold bind, ret. intros [= <- <-]. right. left. now exists previous.
  - unfold bind at 1, bind at 1, get at 1, bind at 1, outcome at 1.
    destruct (reply_to out w1 (s_id submission) reply_text)
      as [e1|reply] eqn:Hr.
    + unfold bind, log, modify, ret. intros [= <- <-]. left. now exists e1.
    + unfold bind at 1, log at 1, modify at 1, bind at 1, modify at 1,
        ret at 1.
      unfold bind at 1, log at 1, modify at 1, bind at 1, modify at 1.
      intros Hrun. apply Hsticky in Hrun.
      right. right. eexists reply_text, reply, _.
      split; [left; split; [reflexivity|split; [exact Hr|reflexivity]]
            |exact Hrun].
Qed.
Ltac tally :=
  unfold replies_posted, comment_request, submission_request in *;
  cbn [events add_event remember_comment remember_submission inc_counter] in *;
  repeat match goal with
         | H : events _ = _ |- _ => rewrite H in *
         end;
  rewrite ?List.filter_app, ?length_app; cbn [List.filter is_reply length];
  try lia.

Lemma events_add (e : event) (w0 : World) :
  events (add_event e w0) = events w0 ++ [e].
Proof. reflexivity. Qed.

(** An item leaves the state as it was exactly when it does not get as far
    as the resolver.  A comment that does not get there makes the function
    return [False].  A submission that does not get there is skipped, and
    the function returns [False], or urllib refuses its URL, and the
    function raises what urllib raised; in both cases nothing has been
    logged, requested, posted or counted.  An item that gets as far as the
    resolver has had its request logged first. *)
Theorem skipped_items_leave_no_trace :
  (forall comment kind start_time bot_accounts comment_subreddits
          previous_search_queries previous_reply w r w',
      _process_comment host out comment kind start_time bot_accounts
        comment_subreddits previous_search_queries previous_reply w
      = (r, w') ->
      (~ comment_reaches_resolver host out comment kind start_time
           bot_accounts comment_subreddits previous_search_queries w ->
       r = inr false /\ w' = w)
      /\ (comment_reaches_resolver host out comment kind start_time
            bot_accounts comment_subreddits previous_search_queries w ->
          exists more,
            events w'
            = events w ++ comment_request host out comment kind w :: more))
  /\ (forall submission start_time valid_netlocs previous_search_queries
             previous_reply w r w',
      _process_submission host out submission start_time valid_netlocs
        previous_search_queries previous_reply w = (r, w') ->
      (submission_is_skipped host out submission start_time valid_netlocs
         previous_search_queries w
       \/ (exists e,
             submission_url_is_refused host out submission start_time
               valid_netlocs w e)
       \/ exists normalized_url search_queries,
            submission_reaches_resolver host out submission start_time
              valid_netlocs previous_search_queries w normalized_url
              search_queries)
      /\ (submission_is_skipped host out submission start_time valid_netlocs
            previous_search_queries w ->
          r = inr false /\ w' = w)
      /\ (forall e,
            submission_url_is_refused host out submission start_time
              valid_netlocs w e ->
            r = inl e /\ w' = w)
      /\ (forall normalized_url search_queries,
            submission_reaches_resolver host out submission start_time
              valid_netlocs previous_search_queries w normalized_url
              search_queries ->
            exists more,
              events w'
              = events w
                ++ submission_request submission search_queries :: more)).
Proof.
  split.
  - intros comment kind start_time bot_accounts comment_subreddits
           previous_search_queries previous_reply w r w' Hrun.
    apply comment_run_cases in Hrun
      as [(Hnot & -> & ->)|(Hreach & res & w1 & Hsearch & Hcases)].
    { split; [auto|contradiction]. }
    split; [contradiction|]. intros _.
    apply run_search_frame in Hsearch as (Hev & _).
    rewrite events_add in Hev.
    destruct Hcases as [(e & _ & _ & ->)|[(_ & _ & ->)|
      (results & _ & _ & [(e & _ & ->)|[(previous & _ & _ & _ & ->)|
        [(text & reply & _ & _ & _ & ->)|(text & previous & _ & _ & _ & ->)]]])]];
      cbn [events add_event inc_counter remember_comment]; rewrite Hev;
      rewrite <- ?app_assoc; cbn [app]; eauto.
  - intros submission start_time valid_netlocs previous_search_queries
           previous_reply w r w' Hrun.
    assert (Hone : forall n qs (P : Prop),
               submission_is_skipped host out submission start_time
                 valid_netlocs previous_search_queries w ->
               submission_reaches_resolver host out submission start_time
                 valid_netlocs previous_search_queries w n qs -> P).
    { intros n qs P [Hold|(n' & qs' & Hread' & Hnone)]
             (Hnew & Hread & Hsome & Hdiff); [lia|].
      rewrite Hread in Hread'. injection Hread' as <- <-.
      destruct Hnone; contradiction. }
    assert (Htwo : forall e (P : Prop),
               submission_url_is_refused host out submission start_time
                 valid_netlocs w e ->
               submission_is_skipped host out submission start_time
                 valid_netlocs previous_search_queries w
               \/ (exists n qs,
                     submission_reaches_resolver host out submission
                       start_time valid_netlocs previous_search_queries w
                       n qs) -> P).
    { intros e P [Hnew Hread]
             [[Hold|(n & qs & Hread' & _)]|(n & qs & _ & Hread' & _)];
        [lia|rewrite Hread in Hread'; discriminate..]. }
    apply submission_run_cases in Hrun
      as [(Hskip & -> & ->)
         |[(e0 & Hrefused & -> & ->)
          |(normalized_url & search_queries & Hreach & res & w1 & Hsearch
            & Hcases)]].
    { split; [now left|]. split; [auto|]. split.
      - intros e He. eapply Htwo; [exact He|left; exact Hskip].
      - intros n qs Hreach. eapply Hone; eassumption. }
    { split; [right; left; now exists e0|]. split.
      - intros Hskip. eapply Htwo; [exact Hrefused|left; exact Hskip].
      - split.
        + intros e [_ He]. destruct Hrefused as [_ He0].
          rewrite He0 in He. injection He as ->. auto.
        + intros n qs Hreach. eapply Htwo; [exact Hrefused|].
          right. now exists n, qs. }
    split; [right; right; now exists normalized_url, search_queries|].
    split; [intros Hskip; eapply Hone; eassumption|].
    split.
    { intros e He. eapply Htwo; [exact He|].
      right. now exists normalized_url, search_queries. }
    intros n qs (_ & Hread' & _).
    destruct Hreach as (_ & Hread & _).
    rewrite Hread in Hread'. injection Hread' as <- <-.
    apply run_search_frame in Hsearch as (Hev & _).
    rewrite events_add in Hev.
    destruct Hcases as [(e & _ & _ & ->)|[(_ & _ & ->)|
      (results & _ & _ & [(e & _ & ->)|[(previous & _ & _ & ->)|
        (text & reply & w6 & Hw6 & Hend)]])]];
      try (cbn [events add_event]; rewrite Hev;
           rewrite <- ?app_assoc; cbn [app]; eauto; fail).
    assert (H6 : exists more6,
                 events w6
                 = events w
                   ++ submission_request submission search_queries :: more6).
    { destruct Hw6 as [(_ & _ & ->)|(_ & _ & ->)];
        unfold after_first_reply;
        cbn [events add_event inc_counter remember_submission];
        rewrite Hev; rewrite <- ?app_assoc; cbn [app]; eauto. }
    destruct H6 as (more6 & H6).
    destruct Hend as [(_ & [->| ->])|(e & _ & _ & ->)];
      cbn [events add_event]; rewrite H6;
      rewrite <- ?app_assoc; cbn [app]; eauto.
Qed.

(** With a previous reply at hand, the revisit path, a run never posts a
    reply and never touches either cache; it returns [True] only after
    that reply has been edited to a text other than its body. *)
Theorem revisits_never_post_or_cache :
  (forall comment kind start_time bot_accounts comment_subreddits
          previous_search_queries previous w r w',
      _process_comment host out comment kind start_time bot_accounts
        comment_subreddits previous_search_queries (Some previous) w
      = (r, w') ->
      replies_posted w' = replies_posted w
      /\ replied_comments w' = replied_comments w
      /\ replied_text_submissions w' = replied_text_submissions w
      /\ (r = inr true ->
          exists text,
            text <> r_body previous
            /\ In (Edited previous text) (events w')))
  /\ (forall submission start_time valid_netlocs previous_search_queries
             previous w r w',
      _process_submission host out submission start_time valid_netlocs
        previous_search_queries (Some previous) w = (r, w') ->
      replies_posted w' = replies_posted w
      /\ replied_comments w' = replied_comments w
      /\ replied_text_submissions w' = replied_text_submissions w
      /\ (r = inr true ->
          exists text,
            text <> r_body previous
            /\ In (Edited previous text) (events w'))).
Proof.
  split.
  - intros comment kind start_time bot_accounts comment_subreddits
           previous_search_queries previous w r w' Hrun.
    apply comment_run_cases in Hrun
      as [(Hnot & -> & ->)|(Hreach & res & w1 & Hsearch & Hcases)].
    { repeat split; discriminate. }
    apply run_search_frame in Hsearch as (Hev & Hsub & Hcom & _).
    rewrite events_add in Hev.
    destruct Hcases as [(e & _ & -> & ->)|[(_ & -> & ->)|
      (results & _ & _ & [(e & -> & ->)|[(p & _ & _ & -> & ->)|
        [(text & reply & [=] & _)|(text & p & [= <-] & Hnew & -> & ->)]]])]];
      (split; [tally|]);
      cbn [replied_comments replied_text_submissions add_event inc_counter];
      (split; [exact Hcom|]); (split; [exact Hsub|]); try discriminate.
    intros _. exists text. split; [congruence|].
    cbn [events add_event inc_counter]. rewrite !in_app_iff.
    left. right. now left.
  - intros submission start_time valid_netlocs previous_search_queries
           previous w r w' Hrun.
    apply submission_run_cases in Hrun
      as [(Hskip & -> & ->)
         |[(e0 & Hrefused & -> & ->)
          |(normalized_url & search_queries & Hreach & res & w1 & Hsearch
            & Hcases)]].
    { repeat split; discriminate. }
    { repeat split; discriminate. }
    apply run_search_frame in Hsearch as (Hev & Hsub & Hcom & _).
    rewrite events_add in Hev.
    destruct Hcases as [(e & _ & -> & ->)|[(_ & -> & ->)|
      (results & _ & _ & [(e & -> & ->)|[(p & _ & -> & ->)|
        (text & reply & w6 & [([=] & _)|([= <-] & Hnew & ->)] & Hend)]])]];
      try ((split; [tally|]);
           cbn [replied_comments replied_text_submissions add_event];
           (split; [exact Hcom|]); (split; [exact Hsub|]); discriminate).
    destruct Hend as [(-> & [->| ->])|(e & _ & -> & ->)];
      (split; [tally|]);
      cbn [replied_comments replied_text_submissions add_event inc_counter];
      (split; [exact Hcom|]); (split; [exact Hsub|]); try discriminate;
      intros _; exists text; (split; [congruence|]);
      cbn [events add_event inc_counter]; rewrite !in_app_iff.
    + left. right. now left.
    + left. left. right. now left.
Qed.
Lemma counter_after (label subreddit : pystr) (w0 w1 : World) :
  responses_counter w1 = responses_counter w0 ->
  responses_counter (inc_counter label subreddit w1)
  = <[(label, subreddit) := S (count label subreddit w0)]>
      (responses_counter w0).
Proof.
  intros Hsame. unfold inc_counter, count. cbn [responses_counter].
  now rewrite Hsame.
Qed.

Ltac no_response_in new :=
  exists new; split;
  [ cbn [events add_event]; rewrite <- ?app_assoc; reflexivity
  | intros ?; cbn [In]; intuition discriminate ].

(** The response counter moves with the log of responses.  A run on a
    comment returns [True] exactly when it has logged a response as its
    last act and has added one to the counter of its type and subreddit;
    otherwise it has logged no response and the counters are as they
    were.  A run on a submission has added one to the counter of
    submissions of its subreddit exactly when it has logged a response,
    also when it then returns [False]. *)
Theorem counter_moves_with_logged_response :
  (forall comment kind start_time bot_accounts comment_subreddits
          previous_search_queries previous_reply w r w',
      _process_comment host out comment kind start_time bot_accounts
        comment_subreddits previous_search_queries previous_reply w
      = (r, w') ->
      (r = inr true
       /\ responses_counter w'
          = <[(type_label kind, c_subreddit comment)
              := S (count (type_label kind) (c_subreddit comment) w)]>
              (responses_counter w)
       /\ exists p, last (events w') = Some (LogResponse p))
      \/ (r <> inr true
          /\ responses_counter w' = responses_counter w
          /\ exists new,
               events w' = events w ++ new
               /\ forall p, ~ In (LogResponse p) new))
  /\ (forall submission start_time valid_netlocs previous_search_queries
             previous_reply w r w',
      _process_submission host out submission start_time valid_netlocs
        previous_search_queries previous_reply w = (r, w') ->
      exists new,
        events w' = events w ++ new
        /\ ((responses_counter w'
             = <[(py "submission", s_subreddit submission)
                 := S (count (py "submission") (s_subreddit submission) w)]>
                 (responses_counter w)
             /\ exists p, In (LogResponse p) new)
            \/ (r <> inr true
                /\ responses_counter w' = responses_counter w
                /\ forall p, ~ In (LogResponse p) new))).
Proof.
  split.
  - intros comment kind start_time bot_accounts comment_subreddits
           previous_search_queries previous_reply w r w' Hrun.
    apply comment_run_cases in Hrun
      as [(Hnot & -> & ->)|(Hreach & res & w1 & Hsearch & Hcases)].
    { right. split; [discriminate|]. split; [reflexivity|].
      exists []. split; [now rewrite app_nil_r|intros p []]. }
    apply run_search_frame in Hsearch as (Hev & _ & _ & Hcount).
    rewrite events_add in Hev. cbn [responses_counter add_event] in Hcount.
    unfold comment_request in Hev.
    destruct Hcases as [(e & _ & -> & ->)|[(_ & -> & ->)|
      (results & _ & _ & [(e & -> & ->)|[(p & _ & _ & -> & ->)|
        [(text & reply & _ & _ & -> & ->)|(text & p & _ & _ & -> & ->)]]])]].
    + right. split; [discriminate|]. split; [exact Hcount|].
      rewrite Hev. no_response_in [LogRequest
        (match kind with TComment => py "Comment" | TMention => py "Mention" end)
        (match kind with
         | TComment => c_permalink comment
         | TMention => c_context comment
         end) (comment_queries host out comment w)].
    + right. split; [discriminate|]. split; [exact Hcount|].
      rewrite Hev. no_response_in [LogRequest
        (match kind with TComment => py "Comment" | TMention => py "Mention" end)
        (match kind with
         | TComment => c_permalink comment
         | TMention => c_context comment
         end) (comment_queries host out comment w)].
    + right. split; [discriminate|]. split; [exact Hcount|].
      cbn [events add_event]. rewrite Hev. no_response_in [LogRequest
        (match kind with TComment => py "Comment" | TMention => py "Mention" end)
        (match kind with
         | TComment => c_permalink comment
         | TMention => c_context comment
         end) (comment_queries host out comment w); LogException e].
    + right. split; [discriminate|]. split; [exact Hcount|].
      rewrite Hev. no_response_in [LogRequest
        (match kind with TComment => py "Comment" | TMention => py "Mention" end)
        (match kind with
         | TComment => c_permalink comment
         | TMention => c_context comment
         end) (comment_queries host out comment w)].
    + left. split; [reflexivity|]. split.
      * apply counter_after. exact Hcount.
      * exists (r_permalink reply). cbn [events inc_counter add_event].
        apply last_snoc.
    + left. split; [reflexivity|]. split.
      * apply counter_after. exact Hcount.
      * exists (r_permalink p). cbn [events inc_counter add_event].
        apply last_snoc.
  - intros submission start_time valid_netlocs previous_search_queries
           previous_reply w r w' Hrun.
    apply submission_run_cases in Hrun
      as [(Hskip & -> & ->)
         |[(e0 & Hrefused & -> & ->)
          |(normalized_url & search_queries & Hreach & res & w1 & Hsearch
            & Hcases)]].
    { exists []. split; [now rewrite app_nil_r|]. right.
      split; [discriminate|]. split; [reflexivity|intros p []]. }
    { exists []. split; [now rewrite app_nil_r|]. right.
      split; [discriminate|]. split; [reflexivity|intros p []]. }
    apply run_search_frame in Hsearch as (Hev & _ & _ & Hcount).
    rewrite events_add in Hev. cbn [responses_counter add_event] in Hcount.
    unfold submission_request in Hev.
    set (request := LogRequest (py "Submission") (s_permalink submission)
                      search_queries) in *.
    destruct Hcases as [(e & _ & -> & ->)|[(_ & -> & ->)|
      (results & _ & _ & [(e & -> & ->)|[(p & _ & -> & ->)|
        (text & reply & w6 & Hw6 & Hend)]])]].
    + exists [request]. split; [exact Hev|]. right.
      split; [discriminate|]. split; [exact Hcount|].
      intros ?; cbn [In]; unfold request; intuition discriminate.
    + exists [request]. split; [exact Hev|]. right.
      split; [discriminate|]. split; [exact Hcount|].
      intros ?; cbn [In]; unfold request; intuition discriminate.
    + exists [request; LogException e].
      split; [cbn [events add_event]; rewrite Hev, <- app_assoc; reflexivity|].
      right. split; [discriminate|]. split; [exact Hcount|].
      intros ?; cbn [In]; unfold request; intuition discriminate.
    + exists [request]. split; [exact Hev|]. right.
      split; [discriminate|]. split; [exact Hcount|].
      intros ?; cbn [In]; unfold request; intuition discriminate.
    + assert (H6 : exists new6,
                 events w6 = events w ++ new6
                 /\ In (LogResponse (r_permalink reply)) new6
                 /\ responses_counter w6
                    = <[(py "submission", s_subreddit submission)
                        := S (count (py "submission")
                                    (s_subreddit submission) w)]>
                        (responses_counter w)).
      { destruct Hw6 as [(_ & _ & ->)|(_ & _ & ->)];
          unfold after_first_reply.
        - exists [request; Replied (s_id submission) text reply;
                  LogResponse (r_permalink reply)].
          split; [cbn [events add_event inc_counter remember_submission];
                  rewrite Hev, <- !app_assoc; reflexivity|].
          split; [cbn [In]; auto|]. now apply counter_after.
        - exists [request; Edited reply text;
                  LogResponse (r_permalink reply)].
          split; [cbn [events add_event inc_counter];
                  rewrite Hev, <- !app_assoc; reflexivity|].
          split; [cbn [In]; auto|]. now apply counter_after. }
      destruct H6 as (new6 & Hev6 & Hin6 & Hcount6).
      destruct Hend as [(_ & [->| ->])|(e & _ & _ & ->)].
      * exists new6. split; [exact Hev6|]. left. split; [exact Hcount6|eauto].
      * exists (new6 ++ [Distinguished reply]).
        split; [cbn [events add_event]; now rewrite Hev6, <- app_assoc|].
        left. split; [exact Hcount6|].
        exists (r_permalink reply). apply in_app_iff. now left.
      * exists (new6 ++ [LogException e]).
        split; [cbn [events add_event]; now rewrite Hev6, <- app_assoc|].
        left. split; [exact Hcount6|].
        exists (r_permalink reply). apply in_app_iff. now left.
Qed.

(** A first contact with a submission, up to the sticky step. *)
Lemma first_contact_then_sticky (submission : Submission) (start_time : Z)
    (valid_netlocs : list pystr) (w w_searched : World)
    (normalized_url : pystr) (search_queries : list SearchQuery)
    (results : list result) (reply_text : pystr) (reply : Reply) :
  let w_replied :=
    after_first_reply submission search_queries reply_text reply w_searched in
  (start_time < s_created_utc submission)%Z ->
  submission_queries host (today out w) submission valid_netlocs
  = inr (normalized_url, search_queries) ->
  search_queries <> [] ->
  run_search host out search_queries
    (add_event (LogRequest (py "Submission") (s_permalink submission)
                           search_queries) w)
  = (inr results, w_searched) ->
  results <> [] ->
  generate_response out w_searched results true
    (if s_is_self submission then None else Some normalized_url)
  = inr reply_text ->
  reply_to out w_searched (s_id submission) reply_text = inr reply ->
  _process_submission host out submission start_time valid_netlocs
                      None None w
  = match try_sticky out submission reply w_replied with
    | (inl e, w') => (inr false, add_event (LogException e) w')
    | (inr _, w') => (inr true, w')
    end.
Proof.
  intros w_replied Hnew Hread Hqueries Hsearch Hresults Htext Hreply.
  unfold _process_submission.
  replace (s_created_utc submission <=? start_time)%Z with false
    by (symmetry; apply Z.leb_gt; exact Hnew).
  unfold bind at 1, get at 1. unfold bind at 1, outcome at 1.
  rewrite Hread. cbn [fst snd].
  destruct search_queries as [|q qs] eqn:Hqs; [congruence|].
  cbn [is_nil orb].
  rewrite bool_decide_eq_false_2 by discriminate.
  unfold bind at 1, log at 1, modify at 1.
  unfold bind at 1. rewrite Hsearch.
  destruct results as [|res ress]; [congruence|]. cbn [is_nil].
  unfold try_except, bind at 1, get at 1.
  unfold bind at 1, outcome at 1. rewrite Htext.
  unfold bind at 1, bind at 1, get at 1, bind at 1, outcome at 1.
  rewrite Hreply.
  unfold bind at 1, log at 1, modify at 1, bind at 1, modify at 1, ret at 1.
  unfold bind at 1, log at 1, modify at 1, bind at 1, modify at 1.
  unfold bind at 1.
  change (inc_counter _ _ _) with w_replied.
  destruct (try_sticky out submission reply w_replied) as [[e|[]] w7];
    unfold any_exception, bind, log, modify, ret; reflexivity.
Qed.

(** The sticky step is best effort.  After a first reply to a submission
    has been posted, the function returns [True] with the reply posted,
    cached and counted, and the reply not distinguished, in each of these
    cases: reading the submission's comments is forbidden; a stickied
    comment is already on top, and then distinguishing is not tried; or
    distinguishing is tried and is forbidden. *)
Theorem sticky_step_is_best_effort (submission : Submission) (start_time : Z)
    (valid_netlocs : list pystr) (w w_searched : World)
    (normalized_url : pystr) (search_queries : list SearchQuery)
    (results : list result) (reply_text : pystr) (reply : Reply) :
  let w_replied :=
    after_first_reply submission search_queries reply_text reply w_searched in
  (start_time < s_created_utc submission)%Z ->
  submission_queries host (today out w) submission valid_netlocs
  = inr (normalized_url, search_queries) ->
  search_queries <> [] ->
  run_search host out search_queries
    (add_event (LogRequest (py "Submission") (s_permalink submission)
                           search_queries) w)
  = (inr results, w_searched) ->
  results <> [] ->
  generate_response out w_searched results true
    (if s_is_self submission then None else Some normalized_url)
  = inr reply_text ->
  reply_to out w_searched (s_id submission) reply_text = inr reply ->
  comments_stickied out w_replied submission = inl Forbidden
  \/ (exists others,
        comments_stickied out w_replied submission = inr (true :: others))
  \/ (exists comments,
        comments_stickied out w_replied submission = inr comments
        /\ match comments with [] => True | top :: _ => top = false end
        /\ distinguish out w_replied reply = inl Forbidden) ->
  _process_submission host out submission start_time valid_netlocs
                      None None w
  = (inr true, w_replied)
  /\ events w_replied
     = events w
       ++ [LogRequest (py "Submission") (s_permalink submission)
                      search_queries;
           Replied (s_id submission) reply_text reply;
           LogResponse (r_permalink reply)].
Proof.
  intros w_replied Hnew Hread Hqueries Hsearch Hresults Htext Hreply
    Hsticky.
  split.
  - rewrite (first_contact_then_sticky submission start_time valid_netlocs w
               w_searched normalized_url search_queries results reply_text
               reply Hnew Hread Hqueries Hsearch Hresults Htext Hreply).
    fold w_replied.
    unfold try_sticky, try_except, bind, get, outcome, log, modify, ret,
      is_forbidden.
    destruct Hsticky as [->|[(others & ->)|(comments & -> & Htop & Hd)]].
    + reflexivity.
    + reflexivity.
    + destruct comments as [|top others]; [|subst top]; cbn [negb];
        rewrite Hd; reflexivity.
  - apply run_search_frame in Hsearch as (Hev & _).
    unfold w_replied, after_first_reply.
    cbn [events add_event inc_counter remember_submission].
    rewrite Hev. cbn [events add_event]. now rewrite <- !app_assoc.
Qed.

(** The pause marker ends a batch: what comes after the first [None] of a
    stream is not processed in that batch. *)
Theorem batch_stops_at_the_pause_marker :
  (forall comments later kind start_time bot_accounts comment_subreddits w,
      comment_batch host out (map Some comments ++ None :: later) kind
        start_time bot_accounts comment_subreddits w
      = comment_batch host out (map Some comments) kind start_time
          bot_accounts comment_subreddits w)
  /\ (forall submissions later start_time valid_netlocs w,
      submission_batch host out (map Some submissions ++ None :: later)
        start_time valid_netlocs w
      = submission_batch host out (map Some submissions) start_time
          valid_netlocs w).
Proof.
  split.
  - intros comments later kind start_time bot_accounts comment_subreddits.
    induction comments as [|c comments IH]; intros w; [reflexivity|].
    cbn [map app comment_batch]. unfold bind.
    destruct (_process_comment _ _ _ _ _ _ _ _ _ w) as [[e|answered] w1];
      [reflexivity|apply IH].
  - intros submissions later start_time valid_netlocs.
    induction submissions as [|s submissions IH]; intros w; [reflexivity|].
    cbn [map app submission_batch]. unfold bind.
    destruct (_process_submission _ _ _ _ _ _ _ w) as [[e|answered] w1];
      [reflexivity|apply IH].
Qed.
End Runs.

Section Witnesses.
Import Fixtures.

Lemma skipped_items_leave_no_trace_witness :
  let out := outside_with healthy_session (inr tt) in
  let c := comment_with "c1" "[[SCP-173]]" in
  _process_comment host0 out c TComment 0 [py "regular_user"] (Some [])
                   None None empty_world
  = (inr false, empty_world)
  /\ _process_submission strict_host out broken_link_post 0 [] None None
                         empty_world
     = (inl (OtherError "ValueError"), empty_world)
  /\ _process_submission host0 out link_post 1700000000 [] None None
                         empty_world
     = (inr false, empty_world).
Proof.
  intros out c. split; [|split].
  - destruct (_process_comment host0 out c TComment 0 [py "regular_user"]
                (Some []) None None empty_world) as [r w'] eqn:Hrun.
    destruct (proj1 (proj1 (skipped_items_leave_no_trace host0 out)
                       c TComment 0%Z [py "regular_user"] (Some []) None None
                       empty_world r w' Hrun)) as [-> ->].
    + intros [Hignored _]. vm_compute in Hignored. discriminate.
    + reflexivity.
  - destruct (_process_submission strict_host out broken_link_post 0 [] None
                None empty_world) as [r w'] eqn:Hrun.
    destruct (proj2 (skipped_items_leave_no_trace strict_host out)
                broken_link_post 0%Z [] None None empty_world r w' Hrun)
      as (_ & _ & Hrefused & _).
    destruct (Hrefused (OtherError "ValueError")) as [-> ->];
      [|reflexivity].
    split; [reflexivity|vm_compute; reflexivity].
  - destruct (_process_submission host0 out link_post 1700000000 [] None None
                empty_world) as [r w'] eqn:Hrun.
    destruct (proj2 (skipped_items_leave_no_trace host0 out)
                link_post 1700000000%Z [] None None empty_world r w' Hrun)
      as (_ & Hskipped & _).
    destruct Hskipped as [-> ->]; [|reflexivity].
    left. vm_compute. discriminate.
Defined.

Lemma revisits_never_post_or_cache_witness :
  let out := outside_with healthy_session (inr tt) in
  let c := comment_with "xyz789" "Check out [[SCP-173]]" in
  let run := _process_comment host0 out c TComment 0 [] (Some []) None
               (Some (reply_for (py "xyz789") (py "An older text")))
               empty_world in
  fst run = inr true
  /\ replies_posted (snd run) = 0
  /\ replied_comments (snd run) = ∅.
Proof.
  intros out c run.
  destruct (proj1 (revisits_never_post_or_cache host0 out)
              c TComment 0%Z [] (Some []) None
              (reply_for (py "xyz789") (py "An older text"))
              empty_world (fst run) (snd run))
    as (Hposted & Hcache & _).
  - unfold run. apply surjective_pairing.
  - split; [vm_compute; reflexivity|]. split; [exact Hposted|exact Hcache].
Defined.

Lemma counter_moves_with_logged_response_witness :
  let out := outside_with healthy_session (inr tt) in
  let c := comment_with "xyz789" "Check out [[SCP-173]]" in
  let run := _process_comment host0 out c TComment 0 [] (Some []) None None
               empty_world in
  responses_counter (snd run)
  = <[(py "comment", py "SCP") := 1]> (responses_counter empty_world).
Proof.
  intros out c run.
  destruct (proj1 (counter_moves_with_logged_response host0 out)
              c TComment 0%Z [] (Some []) None None
              empty_world (fst run) (snd run))
    as [(_ & Hcounter & _)|(Hfalse & _)].
  - unfold run. apply surjective_pairing.
  - exact Hcounter.
  - exfalso. apply Hfalse. vm_compute. reflexivity.
Defined.

Lemma sticky_step_is_best_effort_witness :
  let out := outside_with healthy_session (inl Forbidden) in
  fst (_process_submission host0 out link_post 0
         [py "scp-wiki.wikidot.com"] None None empty_world)
  = inr true.
Proof.
  intros out.
  pose (link := py "http://scp-wiki.wikidot.com/scp-173").
  pose (queries := [{| type := URL; value := link; site_url := None |}]).
  pose (request := LogRequest (py "Submission") (s_permalink link_post) queries).
  destruct (sticky_step_is_best_effort host0 out link_post 0
              [py "scp-wiki.wikidot.com"] empty_world
              (snd (run_search host0 out queries
                      (add_event request empty_world)))
              link queries
              [PageResult (Some page_173) (Some [])]
              (py "Here is info")
              (reply_for (py "abc123") (py "Here is info")))
    as (Hrun & _).
  - reflexivity.
  - vm_compute. reflexivity.
  - discriminate.
  - vm_compute. reflexivity.
  - discriminate.
  - reflexivity.
  - reflexivity.
  - right. right. exists []. split; [reflexivity|]. split; [exact I|reflexivity].
  - rewrite Hrun. reflexivity.
Defined.
End Witnesses.

End BotExtra.

(* ===================================================================== *)
(** ** parse.py: what the bracket and the bare stages read *)
(* ===================================================================== *)

Module ParseExtra.
Import Py Re Parse ReProps ParseProps.

Section Engine.
Variable u : Unicode.
Variable icase : bool.

(** What a loop over one character class has read when it succeeds: a run
    of characters of the class, after which the continuation succeeded. *)
Lemma class_loop_reads_a_run (negated : bool) (items : list citem)
    (greedy : bool) (fuel lo : nat) (hi : option nat) (st : mstate)
    (k : cont) (res : mstate) :
  rep_loop (rmatch u icase (CSet negated items)) greedy lo hi fuel st k
  = Some res ->
  exists run t,
    rest st = run ++ t
    /\ Forall (fun c => set_match u icase negated items c = true) run
    /\ lo <= length run
    /\ k (match run with
          | [] => st
          | _ :: _ => advance st t
          end) = Some res.
Proof.
  revert lo hi st.
  induction fuel as [|fuel IH]; intros lo hi st; cbn [rep_loop].
  - destruct lo; [|discriminate]. intros Hk.
    exists [], (rest st). repeat split; [constructor|reflexivity|exact Hk].
  - assert (Hstop : match lo with 0 => k st | S _ => None end = Some res ->
                    exists run t,
                      rest st = run ++ t
                      /\ Forall (fun c => set_match u icase negated items c
                                          = true) run
                      /\ lo <= length run
                      /\ k (match run with
                            | [] => st
                            | _ :: _ => advance st t
                            end) = Some res).
    { destruct lo; [|discriminate]. intros Hk.
      exists [], (rest st). repeat split; [constructor|reflexivity|exact Hk]. }
    assert (Hmore : match hi with
                    | Some 0 => None
                    | _ => rmatch u icase (CSet negated items) st
                             (fun st' =>
                                rep_loop (rmatch u icase (CSet negated items))
                                  greedy (pred lo) (option_map pred hi)
                                  fuel st' k)
                    end = Some res ->
                    exists run t,
                      rest st = run ++ t
                      /\ Forall (fun c => set_match u icase negated items c
                                          = true) run
                      /\ lo <= length run
                      /\ k (match run with
                            | [] => st
                            | _ :: _ => advance st t
                            end) = Some res).
    { intros Hrun.
      assert (Hbody : rmatch u icase (CSet negated items) st
                        (fun st' =>
                           rep_loop (rmatch u icase (CSet negated items))
                             greedy (pred lo) (option_map pred hi)
                             fuel st' k) = Some res)
        by (destruct hi as [[|n]|]; [discriminate|exact Hrun|exact Hrun]).
      clear Hrun. cbn [rmatch] in Hbody.
      destruct (rest st) as [|c t] eqn:Hrest; [discriminate|].
      destruct (set_match u icase negated items c) eqn:Hc; [|discriminate].
      apply IH in Hbody as (run & t' & Ht & Hrun & Hlo & Hk).
      cbn [rest advance] in Ht. subst t.
      exists (c :: run), t'. split; [reflexivity|].
      split; [now constructor|]. split; [cbn [length]; lia|].
      destruct run as [|c' run]; exact Hk. }
    destruct greedy.
    + destruct (match hi with Some 0 => None | _ => _ end) as [r|] eqn:Hm.
      * intros [= <-]. now apply Hmore.
      * exact Hstop.
    + destruct (match lo with 0 => k st | S _ => None end) as [r|] eqn:Hs.
      * intros [= <-]. now apply Hstop.
      * exact Hmore.
Qed.
End Engine.

Section Brackets.
Variable u : Unicode.

Lemma plain_lit (p c : N) : lit_match u false p c = (c =? p)%N.
Proof. reflexivity. Qed.

Lemma not_closing_set (c : N) :
  set_match u false true [ILit 93] c = negb (c =? 93)%N.
Proof.
  unfold set_match. cbn [andb existsb item_match xorb].
  now rewrite orb_false_r.
Qed.

Lemma consumed_app (l r : pystr) : consumed (l ++ r) r = l.
Proof.
  unfold consumed. rewrite length_app.
  replace (length l + length r - length r) with (length l) by lia.
  apply take_app_length.
Qed.

(** What the bracket pattern matches at a place: two opening brackets, a
    run of characters other than the closing bracket, which is group 1,
    and two closing brackets. *)
Lemma modern_match_sound (first : bool) (s : pystr) (m : mobj) :
  match_at u _MODERN_MATCH_REGEX first s = Some m ->
  exists inner after,
    s = 91%N :: 91%N :: inner ++ 93%N :: 93%N :: after
    /\ Forall (fun c => c <> 93%N) inner
    /\ m = {| group0 := 91%N :: 91%N :: inner ++ [93%N; 93%N];
              group1 := Some inner;
              after := after |}.
Proof.
  unfold match_at. explicit_pattern.
  cbn [rmatch rest start_state].
  destruct s as [|a [|b t]]; try discriminate.
  { rewrite plain_lit. destruct (a =? 91)%N; discriminate. }
  rewrite plain_lit. destruct (N.eqb_spec a 91) as [->|]; [|discriminate].
  cbn [rest advance]. rewrite plain_lit.
  destruct (N.eqb_spec b 91) as [->|]; [|discriminate].
  cbn [rest advance length].
  destruct (rep_loop _ _ _ _ _ _ _) as [res|] eqn:Hloop; [|discriminate].
  intros [= <-].
  apply class_loop_reads_a_run in Hloop as (run & t' & Ht & Hrun & _ & Hk).
  cbn [rest advance] in Ht. subst t.
  assert (Hinner : Forall (fun c => c <> 93%N) run).
  { eapply Forall_impl; [exact Hrun|]. intros c Hc.
    cbv beta in Hc. rewrite not_closing_set in Hc.
    apply negb_true_iff, N.eqb_neq in Hc.
    exact Hc. }
  assert (Hrest : rest (match run with
                        | [] => advance (advance (start_state first
                                   (91%N :: 91%N :: run ++ t')) (91%N :: run ++ t'))
                                   (run ++ t')
                        | _ :: _ =>
                            advance (advance (advance (start_state first
                                   (91%N :: 91%N :: run ++ t')) (91%N :: run ++ t'))
                                   (run ++ t')) t'
                        end) = t')
    by now destruct run.
  cbn [rmatch rest close_group] in Hk. rewrite Hrest in Hk.
  destruct t' as [|c1 [|c2 after]]; try discriminate.
  { rewrite plain_lit in Hk. destruct (c1 =? 93)%N; discriminate. }
  rewrite plain_lit in Hk.
  destruct (N.eqb_spec c1 93) as [->|]; [|discriminate].
  cbn [rest advance] in Hk. rewrite plain_lit in Hk.
  destruct (N.eqb_spec c2 93) as [->|]; [|discriminate].
  injection Hk as <-.
  exists run, after. split; [reflexivity|]. split; [exact Hinner|].
  unfold to_mobj. cbn [rest advance grp close_group]. rewrite Hrest.
  f_equal.
  - transitivity (consumed ((91%N :: 91%N :: run ++ [93%N; 93%N]) ++ after)
                           after); [|apply consumed_app].
    f_equal. cbn [app]. now rewrite <- app_assoc.
  - f_equal. apply (consumed_app run (93%N :: 93%N :: after)).
Qed.
Lemma lazy_loop_stops_at_the_first_success (inner tail : pystr) (fuel : nat)
    (st : mstate) (k : cont) (res : mstate) :
  length inner <= fuel ->
  rest st = inner ++ tail ->
  Forall (fun c => c <> 93%N) inner ->
  (forall st1 c t, rest st1 = c :: t -> c <> 93%N -> k st1 = None) ->
  k (match inner with [] => st | _ :: _ => advance st tail end) = Some res ->
  rep_loop (rmatch u false (CSet true [ILit 93])) false 0 None fuel st k
  = Some res.
Proof.
  revert fuel st.
  induction inner as [|c inner IH]; intros fuel st Hfuel Hrest Hinner Hfail Hk.
  - destruct fuel; cbn [rep_loop]; now rewrite Hk.
  - destruct fuel as [|fuel]; [cbn [length] in Hfuel; lia|].
    apply Forall_cons in Hinner as [Hc Hinner].
    cbn [rep_loop]. cbn [app] in Hrest.
    rewrite (Hfail st c (inner ++ tail) Hrest Hc).
    cbn [rmatch pred option_map]. rewrite Hrest, not_closing_set.
    replace (c =? 93)%N with false by (symmetry; now apply N.eqb_neq).
    cbn [negb]. apply IH.
    + cbn [length] in Hfuel. lia.
    + reflexivity.
    + exact Hinner.
    + exact Hfail.
    + destruct inner; exact Hk.
Qed.

(** And the pattern does match there, with that run as group 1. *)
Lemma modern_match_complete (first : bool) (inner after : pystr) :
  Forall (fun c => c <> 93%N) inner ->
  match_at u _MODERN_MATCH_REGEX first
           (91%N :: 91%N :: inner ++ 93%N :: 93%N :: after)
  = Some {| group0 := 91%N :: 91%N :: inner ++ [93%N; 93%N];
            group1 := Some inner;
            after := after |}.
Proof.
  intros Hinner. unfold match_at. explicit_pattern.
  cbn [rmatch rest start_state advance]. rewrite !plain_lit.
  cbn [N.eqb Pos.eqb rest advance].
  set (st2 := advance (advance (start_state first _) _) _).
  rewrite (lazy_loop_stops_at_the_first_success inner
             (93%N :: 93%N :: after) _ st2 _
             (advance
                (advance
                   (close_group st2
                      (match inner with
                       | [] => st2
                       | _ :: _ => advance st2 (93%N :: 93%N :: after)
                       end))
                   (93%N :: after))
                after)).
  - cbn [fmap option_fmap option_map]. f_equal. unfold to_mobj.
    assert (Hrest : rest (match inner with
                          | [] => st2
                          | _ :: _ => advance st2 (93%N :: 93%N :: after)
                          end) = 93%N :: 93%N :: after)
      by (destruct inner; [|reflexivity]; reflexivity).
    cbn [rest advance grp close_group]. rewrite Hrest.
    f_equal.
    + transitivity (consumed ((91%N :: 91%N :: inner ++ [93%N; 93%N]) ++ after)
                             after); [|apply consumed_app].
      f_equal. cbn [app]. now rewrite <- app_assoc.
    + f_equal. unfold st2. cbn [rest advance].
      apply (consumed_app inner (93%N :: 93%N :: after)).
  - unfold st2. cbn [rest advance]. rewrite length_app. lia.
  - reflexivity.
  - exact Hinner.
  - intros st1 c t Hst1 Hc. cbn [rmatch rest close_group]. rewrite Hst1.
    rewrite plain_lit.
    now replace (c =? 93)%N with false by (symmetry; now apply N.eqb_neq).
  - assert (Hrest : rest (match inner with
                          | [] => st2
                          | _ :: _ => advance st2 (93%N :: 93%N :: after)
                          end) = 93%N :: 93%N :: after)
      by (destruct inner; [|reflexivity]; reflexivity).
    cbn [rmatch rest close_group advance]. rewrite Hrest, ?plain_lit.
    cbn [N.eqb Pos.eqb rest advance]. rewrite ?plain_lit. reflexivity.
Qed.
(** [re.sub(r"\s", "", s)] keeps the characters that are not white space. *)
Lemma whitespace_sub (first : bool) (s : pystr) :
  sub_from u _WHITESPACE first 0 s
  = List.filter (fun c => negb (sre_space u c)) s.
Proof.
  revert first. induction s as [|c s IH]; intros first; [reflexivity|].
  cbn [sub_from List.filter]. unfold match_at. explicit_pattern.
  cbn [rmatch rest start_state]. unfold set_match.
  cbn [andb existsb item_match xorb]. rewrite orb_false_r.
  destruct (sre_space u c); cbn [negb fmap option_fmap option_map].
  - unfold to_mobj. cbn [group0 rest advance].
    replace (consumed (c :: s) s) with [c] by (symmetry; apply (consumed_app [c] s)).
    cbn [length]. apply IH.
  - f_equal. apply IH.
Qed.

Lemma some_character_is_kept (s : pystr) :
  sub_empty u _WHITESPACE s <> []
  <-> exists c, In c s /\ sre_space u c = false.
Proof.
  unfold sub_empty. rewrite whitespace_sub. split.
  - intros Hkept.
    destruct (List.filter _ s) as [|c kept] eqn:Hfilter; [congruence|].
    assert (Hin : In c (List.filter (fun c => negb (sre_space u c)) s))
      by (rewrite Hfilter; now left).
    apply filter_In in Hin as [Hin Hc]. exists c. split; [exact Hin|].
    now apply negb_true_iff.
  - intros (c & Hin & Hc) Hnone.
    assert (Hkept : In c (List.filter (fun c => negb (sre_space u c)) s))
      by (apply filter_In; split; [exact Hin|now rewrite Hc]).
    now rewrite Hnone in Hkept.
Qed.

Section Stage.
Variable sanitize_markdown : pystr -> pystr.

(** Every query of the explicit-bracket stage is a Freeform query whose
    value stands in the text that stage reads between two opening and two
    closing brackets, holds no closing bracket, and has a character that is
    not white space. *)
Theorem bracket_calls_are_read_between_brackets (text : pystr)
    (context : ParseContext) :
  Forall (fun q =>
            type q = FREEFORM
            /\ (exists before after,
                  text_for_brackets sanitize_markdown text context
                  = before ++ py "[[" ++ value q ++ py "]]" ++ after)
            /\ Forall (fun c => c <> 93%N) (value q)
            /\ exists c, In c (value q) /\ sre_space u c = false)
         (explicit_stage u sanitize_markdown text context).
Proof.
  unfold explicit_stage, modern_queries.
  set (read := text_for_brackets sanitize_markdown text context).
  apply Forall_forall. intros q Hq.
  apply list_elem_of_omap in Hq as (m & Hm & Hq).
  apply list_elem_of_In, finditer_from_sound in Hm
    as (first & s' & [before Hsuf] & Hm).
  apply modern_match_sound in Hm as (inner & after & -> & Hinner & ->).
  unfold group_1 in Hq. cbn [group1 default from_option id] in Hq.
  destruct (sub_empty u _WHITESPACE inner) as [|c kept] eqn:Hkept;
    [discriminate|].
  injection Hq as <-. cbn [type value].
  split; [reflexivity|]. split; [|split; [exact Hinner|]].
  - exists before, after. rewrite Hsuf. reflexivity.
  - apply some_character_is_kept. now rewrite Hkept.
Qed.
Lemma finditer_skips_the_match (p : pattern) (s : pystr) :
  match_at u p false [] = None ->
  finditer_from u p false (length s) s = [].
Proof.
  intros Hend. induction s as [|c s IH]; cbn [length finditer_from].
  - now rewrite Hend.
  - exact IH.
Qed.

Lemma sub_skips_the_match (p : pattern) (s : pystr) :
  sub_from u p false (length s) s = [].
Proof.
  induction s as [|c s IH]; cbn [length sub_from]; [|exact IH].
  now destruct (match_at u p false []).
Qed.

(** A text that is one bracket call and nothing else: when the call holds
    a character that is not white space, [parse] returns the one Freeform
    query with what stands between the brackets as its value; when it
    holds white space only, or nothing, [parse] returns no query. *)
Theorem a_bracket_call_alone (today : date) (text inner : pystr)
    (context : ParseContext) :
  Forall (fun c => c <> 93%N) inner ->
  text_for_brackets sanitize_markdown text context
  = py "[[" ++ inner ++ py "]]" ->
  ((exists c, In c inner /\ sre_space u c = false) ->
   parse u sanitize_markdown today text context
   = [{| type := FREEFORM; value := inner;
         site_url := Some (site_of_brackets u inner) |}])
  /\ (Forall (fun c => sre_space u c = true) inner ->
      parse u sanitize_markdown today text context = []).
Proof.
  intros Hinner Hread.
  assert (Hfound : finditer u _MODERN_MATCH_REGEX (py "[[" ++ inner ++ py "]]")
                   = [{| group0 := 91%N :: 91%N :: inner ++ [93%N; 93%N];
                         group1 := Some inner; after := [] |}]).
  { unfold finditer.
    change (py "[[" ++ inner ++ py "]]")
      with (91%N :: 91%N :: inner ++ 93%N :: 93%N :: []).
    cbn [finditer_from]. rewrite modern_match_complete by exact Hinner.
    f_equal. cbn [group0 length pred].
    replace (length (inner ++ [93%N; 93%N]))
      with (length (inner ++ [93%N; 93%N]) + 0) by lia.
    cbn [length]. rewrite Nat.add_0_r.
    apply (finditer_skips_the_match _MODERN_MATCH_REGEX
             (91%N :: inner ++ [93%N; 93%N])).
    reflexivity. }
  assert (Hcut : sub_empty u _MODERN_MATCH_REGEX (py "[[" ++ inner ++ py "]]")
                 = []).
  { unfold sub_empty.
    change (py "[[" ++ inner ++ py "]]")
      with (91%N :: 91%N :: inner ++ 93%N :: 93%N :: []).
    cbn [sub_from]. rewrite modern_match_complete by exact Hinner.
    cbn [group0 length].
    apply (sub_skips_the_match _MODERN_MATCH_REGEX
             (91%N :: inner ++ [93%N; 93%N])). }
  rewrite parse_stages.
  unfold explicit_stage, international_stage, bare_stage, seasonal_stage,
    text_for_bare, text_for_international.
  rewrite Hread, Hcut.
  assert (Hnothing : remove_false_positives u [] = []) by reflexivity.
  rewrite Hnothing.
  assert (Hpass : international_pass u [] = ([], []))
    by (vm_compute; reflexivity).
  rewrite Hpass. cbn [fst snd].
  assert (Hbare : bare_queries u [] = []) by (vm_compute; reflexivity).
  assert (Hseason : april_fools u today context [] = []).
  { unfold april_fools. destruct (decide _); [|reflexivity].
    destruct (_ && _); [|reflexivity]. vm_compute. reflexivity. }
  rewrite Hbare, Hseason, !app_nil_r.
  unfold modern_queries. rewrite Hfound. cbn [omap list_omap].
  unfold group_1. cbn [group1 default from_option id].
  split.
  - intros Hsome. apply some_character_is_kept in Hsome.
    destruct (sub_empty u _WHITESPACE inner); [congruence|reflexivity].
  - intros Hspace.
    assert (Hnone : sub_empty u _WHITESPACE inner = []).
    { destruct (sub_empty u _WHITESPACE inner) as [|c kept] eqn:Hkept;
        [reflexivity|].
      assert (Hsome : sub_empty u _WHITESPACE inner <> [])
        by (rewrite Hkept; discriminate).
      apply some_character_is_kept in Hsome as (c' & Hin & Hc').
      rewrite Forall_forall in Hspace.
      apply list_elem_of_In in Hin. apply Hspace in Hin. congruence. }
    now rewrite Hnone.
Qed.
End Stage.
End Brackets.

Section BareShape.
Variable u : Unicode.

(** What the bare pattern matches at a place: the prefix, a hyphen or a
    space, three digits, and possibly more; group 1 is the whole match,
    and no word character follows it. *)
Lemma bare_match_sound (first : bool) (s : pystr) (m : mobj) :
  match_at u _BARE_MATCH_REGEX first s = Some m ->
  exists a b c x d1 d2 d3 more,
    group0 m = a :: b :: c :: x :: d1 :: d2 :: d3 :: more
    /\ s = group0 m ++ after m
    /\ group1 m = Some (group0 m)
    /\ lit_match u true 83 a = true /\ lit_match u true 67 b = true
    /\ lit_match u true 80 c = true
    /\ (x = 45%N \/ x = 32%N)
    /\ sre_digit u d1 = true /\ sre_digit u d2 = true
    /\ sre_digit u d3 = true
    /\ match after m with [] => True | n :: _ => sre_word u n = false end.
Proof.
  unfold match_at. explicit_pattern.
  match goal with
  | |- context [Rep true 0 None ?a] => set (tail := Rep true 0 None a)
  end.
  destruct s as [|a [|b [|c [|x [|d1 [|d2 [|d3 t]]]]]]]; step;
    try discriminate.
  all: try (repeat match goal with
                   | |- context [if ?test then _ else _] =>
                       lazymatch test with
                       | context [if _ then _ else _] => fail
                       | _ => destruct test; try discriminate
                       end
                   end; discriminate).
  destruct (lit_match u true 83 a) eqn:Ha; [|discriminate].
  destruct (lit_match u true 67 b) eqn:Hb; [|discriminate].
  destruct (lit_match u true 80 c) eqn:Hc; [|discriminate].
  destruct ((x =? 45) || (x =? 32))%N eqn:Hx; [|discriminate].
  destruct (sre_digit u d1) eqn:H1; [|discriminate].
  destruct (sre_digit u d2) eqn:H2; [|discriminate].
  destruct (sre_digit u d3) eqn:H3; [|discriminate].
  rewrite !same_option.
  set (s := a :: b :: c :: x :: d1 :: d2 :: d3 :: t).
  destruct (rep_loop _ _ _ _ _ _ _) as [res|] eqn:Hloop; [|discriminate].
  intros [= <-].
  apply (rep_loop_continues (rmatch u true (CSet false [IDigit])) true 0
           (Some 1) (length t) (rmatch_continues u true _))
    in Hloop as (st8 & Htail & Hsuf8).
  apply rmatch_continues in Htail as (st9 & Hk & Hsuf9).
  cbn [rest advance] in Hsuf8.
  assert (Hsuf : suffix (rest st9) t) by now transitivity (rest st8).
  destruct Hsuf as [front Hfront].
  assert (Hres : res = close_group (start_state first s) st9
                 /\ match rest st9 with
                    | [] => True
                    | n :: _ => sre_word u n = false
                    end).
  { destruct (rest st9) as [|n after'].
    - now injection Hk as <-.
    - rewrite word_set in Hk. destruct (sre_word u n); [discriminate|].
      now injection Hk as <-. }
  destruct Hres as [-> Hahead].
  assert (Hwhole : consumed s (rest st9)
                   = a :: b :: c :: x :: d1 :: d2 :: d3 :: front).
  { unfold s. rewrite Hfront.
    apply (consumed_app (a :: b :: c :: x :: d1 :: d2 :: d3 :: front)
                        (rest st9)). }
  exists a, b, c, x, d1, d2, d3, front.
  unfold to_mobj. cbn [group0 group1 after rest grp close_group start_state].
  fold s. rewrite Hwhole.
  split; [reflexivity|]. split; [unfold s; now rewrite Hfront|].
  split; [reflexivity|].
  repeat (split; [assumption|]).
  split; [|repeat (split; [assumption|]); exact Hahead].
  apply orb_true_iff in Hx as [Hx|Hx]; apply N.eqb_eq in Hx; auto.
Qed.
Section Stage.
Variable sanitize_markdown : pystr -> pystr.

(** Every query of the bare primary-site stage is a Freeform query for the
    primary site whose value is a span of the text that stage reads: the
    prefix in any mix of cases, a hyphen or a space, and at least three
    digits, with no word character after the span. *)
Theorem bare_queries_name_a_catalog_number (text : pystr)
    (context : ParseContext) :
  Forall (fun q =>
            type q = FREEFORM /\ site_url q = Some primary_site
            /\ (exists a b c x d1 d2 d3 more,
                  value q = a :: b :: c :: x :: d1 :: d2 :: d3 :: more
                  /\ lit_match u true 83 a = true
                  /\ lit_match u true 67 b = true
                  /\ lit_match u true 80 c = true
                  /\ (x = 45%N \/ x = 32%N)
                  /\ sre_digit u d1 = true /\ sre_digit u d2 = true
                  /\ sre_digit u d3 = true)
            /\ exists before after,
                 text_for_bare u sanitize_markdown text context
                 = before ++ value q ++ after
                 /\ match after with
                    | [] => True
                    | n :: _ => sre_word u n = false
                    end)
         (bare_stage u sanitize_markdown text context).
Proof.
  unfold bare_stage, bare_queries.
  set (read := text_for_bare u sanitize_markdown text context).
  apply Forall_forall. intros q Hq.
  apply list_elem_of_In, in_map_iff in Hq as (m & <- & Hm).
  apply finditer_from_sound in Hm as (first & s' & [before Hsuf] & Hm).
  apply bare_match_sound in Hm
    as (a & b & c & x & d1 & d2 & d3 & more & Hwhole & Hsplit & Hgroup
        & Ha & Hb & Hc & Hx & H1 & H2 & H3 & Hahead).
  cbn [type site_url value]. unfold group_1. rewrite Hgroup.
  cbn [default from_option id].
  split; [reflexivity|]. split; [reflexivity|]. split.
  - exists a, b, c, x, d1, d2, d3, more. auto 12.
  - exists before, (after m). split; [|exact Hahead].
    now rewrite Hsuf, Hsplit.
Qed.

(** The contexts differ in two things only.  The text of a title is read
    as it is and that of a selftext or a comment after sanitizing, so a
    selftext gives what its sanitized text gives as a title; and a comment
    gives what a selftext gives, whatever the day, followed on the first
    of April by at most the one seasonal query. *)
Theorem contexts_differ_by_sanitizing_and_the_season (text : pystr)
    (today other_day : date) :
  parse u sanitize_markdown today text SUBMISSION_TITLE
  = parse u sanitize_markdown other_day text SUBMISSION_TITLE
  /\ parse u sanitize_markdown today text SUBMISSION_SELFTEXT
     = parse u sanitize_markdown other_day (sanitize_markdown text)
             SUBMISSION_TITLE
  /\ (day today <> 1 \/ month today <> 4 ->
      parse u sanitize_markdown today text COMMENT_BODY
      = parse u sanitize_markdown other_day text SUBMISSION_SELFTEXT)
  /\ (parse u sanitize_markdown today text COMMENT_BODY
      = parse u sanitize_markdown other_day text SUBMISSION_SELFTEXT
      \/ parse u sanitize_markdown today text COMMENT_BODY
         = parse u sanitize_markdown other_day text SUBMISSION_SELFTEXT
           ++ [{| type := BARE; value := py "2";
                  site_url := Some primary_site |}]).
Proof.
  rewrite !parse_stages.
  unfold explicit_stage, international_stage, bare_stage, seasonal_stage,
    text_for_bare, text_for_international, text_for_brackets, april_fools.
  repeat match goal with
         | |- context [decide ?P] =>
             destruct (decide P) as [Hyes|Hno];
             [ try (exfalso; congruence)
             | try (exfalso; apply Hno; discriminate);
               try (exfalso; congruence) ]
         end.
  rewrite !app_nil_r.
  split; [reflexivity|]. split; [reflexivity|]. split.
  - intros Hday.
    replace ((day today =? 1) && (month today =? 4)) with false;
      [now rewrite !app_nil_r|].
    symmetry. apply andb_false_iff.
    destruct Hday; [left|right]; now apply Nat.eqb_neq.
  - destruct (_ && _); [|left; now rewrite !app_nil_r].
    destruct (search _ _ _); [right|left; now rewrite !app_nil_r].
    now rewrite !app_assoc.
Qed.
End Stage.
End BareShape.

Section Witnesses.
Import Fixtures.

Lemma a_bracket_call_alone_witness :
  parse ascii_only plain_paragraph an_ordinary_day (py "[[SCP-049]]")
        SUBMISSION_TITLE
  = [{| type := FREEFORM; value := py "SCP-049";
        site_url := Some (site_of_brackets ascii_only (py "SCP-049")) |}].
Proof.
  apply (proj1 (a_bracket_call_alone ascii_only plain_paragraph
                  an_ordinary_day (py "[[SCP-049]]") (py "SCP-049")
                  SUBMISSION_TITLE
                  ltac:(repeat constructor; discriminate) eq_refl)).
  exists 83%N. split; [vm_compute; tauto|reflexivity].
Defined.

Lemma contexts_differ_by_sanitizing_and_the_season_witness :
  parse ascii_only plain_paragraph an_ordinary_day (py "SCP-173 and 2")
        COMMENT_BODY
  = parse ascii_only plain_paragraph april_first (py "SCP-173 and 2")
          SUBMISSION_SELFTEXT.
Proof.
  apply (contexts_differ_by_sanitizing_and_the_season ascii_only
           plain_paragraph (py "SCP-173 and 2") an_ordinary_day april_first).
  left. discriminate.
Defined.
End Witnesses.

End ParseExtra.

(* ===================================================================== *)
(** ** response.py: what a reply looks like *)
(* ===================================================================== *)

Module ResponseExtra.
Import Py Re Eff Response ReProps.

Section Numbers.

Lemma py_inj (s t : string) : py s = py t -> s = t.
Proof.
  revert t. induction s as [|a s IH]; intros [|b t]; cbn [py];
    try discriminate; [reflexivity|].
  intros [= Hab Hst]. f_equal; [|now apply IH].
  rewrite <- (ascii_N_embedding a), <- (ascii_N_embedding b). now rewrite Hab.
Qed.

Lemma to_int_is_written (n : Z) :
  NilZero.int_of_string (NilZero.string_of_int (Z.to_int n))
  = Some (Z.to_int n).
Proof.
  apply NilZero.isi; destruct n as [|p|p]; cbn [Z.to_int]; try discriminate.
  - intros [= Hnil]. now apply (Unsigned.to_uint_nonnil p).
  - intros [= Hnil]. now apply (Unsigned.to_uint_nonnil p).
Qed.

Lemma str_of_int_inj (a b : Z) : str_of_int a = str_of_int b -> a = b.
Proof.
  unfold str_of_int. intros Heq%py_inj.
  apply DecimalZ.to_int_inj.
  assert (Hsome : Some (Z.to_int a) = Some (Z.to_int b))
    by now rewrite <- !to_int_is_written, Heq.
  now injection Hsome.
Qed.

Lemma str_of_negative (n : Z) :
  (n < 0)%Z -> exists digits, str_of_int n = 45%N :: digits.
Proof.
  destruct n as [|p|p]; try lia. intros _. unfold str_of_int.
  cbn [Z.to_int NilZero.string_of_int py]. eexists. reflexivity.
Qed.

(** [_format_rating] always writes the sign: a plus for a rating that is
    not negative, the minus of the number for one that is; and ratings that
    differ are written differently. *)
Theorem format_rating_writes_the_sign (rating : Z) :
  (exists digits,
      _format_rating rating
      = (if (0 <=? rating)%Z then 43%N else 45%N) :: digits)
  /\ forall other,
       _format_rating rating = _format_rating other -> rating = other.
Proof.
  split.
  - unfold _format_rating. destruct (Z.leb_spec 0 rating) as [Hpos|Hneg].
    + eexists. reflexivity.
    + exact (str_of_negative rating Hneg).
  - intros other. unfold _format_rating.
    destruct (Z.leb_spec 0 rating) as [Hpos|Hneg],
             (Z.leb_spec 0 other) as [Hpos'|Hneg'].
    + intros [= Heq]. now apply str_of_int_inj.
    + destruct (str_of_negative other Hneg') as (digits & ->). discriminate.
    + destruct (str_of_negative rating Hneg) as (digits & ->). discriminate.
    + apply str_of_int_inj.
Qed.
End Numbers.

Section Https.
Variable u : Unicode.

(** A literal text, matched as it is: the subject must begin with it. *)
Lemma lits_match (l : pystr) (st : mstate) (k : cont) :
  l <> [] ->
  rmatch u false (lits l) st k
  = if Bot.starts_with l (rest st)
    then k (advance st (drop (length l) (rest st)))
    else None.
Proof.
  revert st. induction l as [|p l IH]; intros st Hl; [congruence|].
  destruct l as [|q l].
  - cbn [lits rmatch Bot.starts_with length drop].
    destruct (rest st) as [|c t]; [reflexivity|].
    unfold lit_match. cbn [andb]. rewrite N.eqb_sym, andb_true_r.
    reflexivity.
  - change (lits (p :: q :: l)) with (Seq (Lit p) (lits (q :: l))).
    cbn [rmatch]. destruct (rest st) as [|c t] eqn:Hrest.
    + reflexivity.
    + change (Bot.starts_with (p :: q :: l) (c :: t))
        with ((p =? c)%N && Bot.starts_with (q :: l) t).
      unfold lit_match at 1. cbn [andb].
      rewrite N.eqb_sym. destruct (p =? c)%N; [|reflexivity].
      rewrite IH by discriminate. cbn [andb]. reflexivity.
Qed.

Lemma anchored_never_matches_later (l repl s : pystr) (skip : nat) :
  sub_with u {| p_icase := false; p_re := Seq Bol (lits l) |} repl false
           skip s
  = drop skip s.
Proof.
  revert skip. induction s as [|c s IH]; intros [|skip]; cbn [sub_with drop];
    try reflexivity.
  - unfold match_at. cbn [p_re p_icase rmatch at_start start_state].
    cbn [fmap option_fmap option_map]. f_equal. apply (IH 0).
  - apply IH.
Qed.

(** [_httpsify] replaces a leading [http://] by [https://] and nothing
    else. *)
Lemma httpsify_spec (url : pystr) :
  _httpsify u url
  = if Bot.starts_with (py "http://") url
    then py "https://" ++ drop 7 url
    else url.
Proof.
  unfold _httpsify.
  change (str "http://") with (lits (py "http://")).
  destruct url as [|c t].
  - reflexivity.
  - cbn [sub_with]. unfold match_at at 1.
    cbn [p_re p_icase rmatch at_start start_state].
    rewrite lits_match by discriminate. cbn [rest start_state].
    destruct (Bot.starts_with (py "http://") (c :: t)) eqn:Hstarts.
    + cbn [fmap option_fmap option_map]. unfold to_mobj.
      cbn [group0 rest advance].
      assert (Hlen : 7 <= length (c :: t)).
      { clear -Hstarts. revert Hstarts.
        destruct t as [|c1 [|c2 [|c3 [|c4 [|c5 [|c6 t]]]]]];
          cbn [Bot.starts_with py]; rewrite ?andb_false_r;
          try discriminate; intros _; cbn [length]; lia. }
      assert (Hconsumed : length (consumed (c :: t)
                                    (drop (length (py "http://")) (c :: t)))
                          = 7).
      { unfold consumed. rewrite length_take, length_drop.
        change (length (py "http://")) with 7. lia. }
      rewrite Hconsumed. rewrite anchored_never_matches_later. reflexivity.
    + cbn [fmap option_fmap option_map]. f_equal.
      rewrite (anchored_never_matches_later _ _ t 0). apply drop_0.
Qed.

Lemma starts_with_app (prefix rest : pystr) :
  Bot.starts_with prefix (prefix ++ rest) = true.
Proof.
  induction prefix as [|p prefix IH]; [reflexivity|].
  cbn [app Bot.starts_with]. now rewrite N.eqb_refl, IH.
Qed.

(** [_httpsify] turns a leading [http://] into [https://] and leaves the
    rest of the URL, and every other URL, as it is; its result never
    begins with [http://], and applying it again changes nothing. *)
Theorem httpsify_only_changes_the_scheme (url : pystr) :
  (forall rest, url = py "http://" ++ rest ->
                _httpsify u url = py "https://" ++ rest)
  /\ (Bot.starts_with (py "http://") url = false -> _httpsify u url = url)
  /\ Bot.starts_with (py "http://") (_httpsify u url) = false
  /\ _httpsify u (_httpsify u url) = _httpsify u url.
Proof.
  assert (Hnever : Bot.starts_with (py "http://") (_httpsify u url) = false).
  { rewrite httpsify_spec.
    destruct (Bot.starts_with (py "http://") url) eqn:Hstarts;
      [reflexivity|exact Hstarts]. }
  split; [|split; [|split; [exact Hnever|]]].
  - intros rest ->. rewrite httpsify_spec, starts_with_app.
    f_equal.
  - intros Hother. now rewrite httpsify_spec, Hother.
  - now rewrite (httpsify_spec (_httpsify u url)), Hnever.
Qed.
End Https.

Section Sorting.
Context {A : Type}.
Variable key : A -> exn + nat.

Lemma keyed_spec (items : list A) (pairs : list (nat * A)) :
  keyed key items = inr pairs ->
  map snd pairs = items
  /\ Forall (fun p => key (snd p) = inr (fst p)) pairs.
Proof.
  revert pairs. induction items as [|item items IH]; intros pairs;
    cbn [keyed].
  - intros [= <-]. split; [reflexivity|constructor].
  - destruct (key item) as [e|k] eqn:Hk; [discriminate|].
    destruct (keyed key items) as [e|rest]; [discriminate|].
    intros [= <-]. destruct (IH rest eq_refl) as [Hitems Hkeys].
    split; [cbn [map snd]; now rewrite Hitems|].
    constructor; [exact Hk|exact Hkeys].
Qed.

Lemma keyed_fails (items : list A) (e : exn) :
  keyed key items = inl e ->
  exists item, In item items /\ key item = inl e.
Proof.
  induction items as [|item items IH]; cbn [keyed]; [discriminate|].
  destruct (key item) as [e'|k] eqn:Hk.
  - intros [= ->]. exists item. split; [now left|exact Hk].
  - destruct (keyed key items) as [e'|rest]; [|discriminate].
    intros [= ->]. destruct (IH eq_refl) as (item' & Hin & Hfail).
    exists item'. split; [now right|exact Hfail].
Qed.

Lemma keyed_succeeds (items : list A) :
  (forall item, In item items -> exists k, key item = inr k) ->
  exists pairs, keyed key items = inr pairs.
Proof.
  induction items as [|item items IH]; intros Hall; cbn [keyed];
    [now exists []|].
  destruct (Hall item (or_introl eq_refl)) as (k & ->).
  destruct IH as (rest & ->); [intros; apply Hall; now right|].
  eauto.
Qed.

Lemma insert_sorted_permutation (x : nat * A) (l : list (nat * A)) :
  Permutation (insert_sorted x l) (x :: l).
Proof.
  induction l as [|y l IH]; cbn [insert_sorted]; [reflexivity|].
  destruct (fst x <=? fst y)%nat; [reflexivity|].
  rewrite IH. apply perm_swap.
Qed.

Lemma insert_sorted_sorted (x : nat * A) (l : list (nat * A)) :
  StronglySorted (fun p q => fst p <= fst q) l ->
  StronglySorted (fun p q => fst p <= fst q) (insert_sorted x l).
Proof.
  induction l as [|y l IH]; cbn [insert_sorted]; intros Hsorted.
  - repeat constructor.
  - destruct (Nat.leb_spec (fst x) (fst y)) as [Hle|Hgt].
    + constructor; [exact Hsorted|].
      apply StronglySorted_inv in Hsorted as [_ Hy].
      constructor; [exact Hle|].
      eapply Forall_impl; [exact Hy|]. cbv beta. intros; lia.
    + apply StronglySorted_inv in Hsorted as [Hsorted Hy].
      constructor; [now apply IH|].
      rewrite (insert_sorted_permutation x l).
      constructor; [lia|exact Hy].
Qed.

Lemma insert_sorted_is_stable (k : nat) (x : nat * A) (l : list (nat * A)) :
  List.filter (fun p => (fst p =? k)%nat) (insert_sorted x l)
  = List.filter (fun p => (fst p =? k)%nat) (x :: l).
Proof.
  induction l as [|y l IH]; cbn [insert_sorted]; [reflexivity|].
  destruct (Nat.leb_spec (fst x) (fst y)) as [Hle|Hgt]; [reflexivity|].
  cbn [List.filter] in *. rewrite IH.
  destruct (Nat.eqb_spec (fst x) k), (Nat.eqb_spec (fst y) k);
    try reflexivity; lia.
Qed.

Lemma sort_pairs (pairs : list (nat * A)) :
  Permutation (foldr insert_sorted [] pairs) pairs
  /\ StronglySorted (fun p q => fst p <= fst q)
                    (foldr insert_sorted [] pairs)
  /\ forall k,
       List.filter (fun p => (fst p =? k)%nat) (foldr insert_sorted [] pairs)
       = List.filter (fun p => (fst p =? k)%nat) pairs.
Proof.
  induction pairs as [|x pairs (Hperm & Hsorted & Hstable)]; cbn [foldr].
  - repeat split; constructor.
  - split; [|split].
    + rewrite insert_sorted_permutation. now constructor.
    + now apply insert_sorted_sorted.
    + intros k. rewrite insert_sorted_is_stable. cbn [List.filter].
      now rewrite Hstable.
Qed.
Lemma filter_of_map {B C} (f : C -> bool) (g : B -> C) (l : list B) :
  List.filter f (map g l) = map g (List.filter (fun b => f (g b)) l).
Proof.
  induction l as [|b l IH]; cbn [map List.filter]; [reflexivity|].
  destruct (f (g b)); cbn [map]; now rewrite IH.
Qed.

Lemma sorted_spec (items l : list A) :
  sorted items key = inr l ->
  Permutation l items
  /\ StronglySorted (fun a b => exists i j,
                        key a = inr i /\ key b = inr j /\ i <= j) l
  /\ forall k,
       List.filter (fun a => match key a with
                             | inr i => (i =? k)%nat
                             | inl _ => false
                             end) l
       = List.filter (fun a => match key a with
                               | inr i => (i =? k)%nat
                               | inl _ => false
                               end) items.
Proof.
  unfold sorted. destruct (keyed key items) as [e|pairs] eqn:Hkeyed;
    [discriminate|].
  intros [= <-]. destruct (keyed_spec _ _ Hkeyed) as [Hitems Hkeys].
  destruct (sort_pairs pairs) as (Hperm & Hsorted & Hstable).
  assert (Hkeys' : Forall (fun p => key (snd p) = inr (fst p))
                          (foldr insert_sorted [] pairs))
    by now rewrite Hperm.
  assert (Hext : forall k (ps : list (nat * A)),
             Forall (fun p => key (snd p) = inr (fst p)) ps ->
             List.filter (fun p => match key (snd p) with
                                   | inr i => (i =? k)%nat
                                   | inl _ => false
                                   end) ps
             = List.filter (fun p => (fst p =? k)%nat) ps).
  { intros k ps Hps. apply List.filter_ext_in. intros p Hp.
    rewrite Forall_forall in Hps. cbv beta.
    rewrite (Hps p); [reflexivity|]. now apply list_elem_of_In. }
  split; [|split].
  - rewrite <- Hitems. now apply fmap_Permutation.
  - clear Hperm Hstable. induction Hsorted as [|p ps Hps IH Hp];
      cbn [map]; [constructor|].
    apply Forall_cons in Hkeys' as [Hk Hkeys']. constructor; [now apply IH|].
    rewrite Forall_forall in Hp, Hkeys'. apply Forall_forall. intros b Hb.
    apply list_elem_of_fmap in Hb as (q & -> & Hq).
    exists (fst p), (fst q). split; [exact Hk|]. split; [now apply Hkeys'|].
    now apply Hp.
  - intros k. rewrite <- Hitems, !filter_of_map, !Hext by assumption.
    now rewrite Hstable.
Qed.

Lemma sorted_fails (items : list A) (e : exn) :
  sorted items key = inl e ->
  exists item, In item items /\ key item = inl e.
Proof.
  unfold sorted. destruct (keyed key items) as [e'|pairs] eqn:Hkeyed;
    [|discriminate].
  intros [= ->]. now apply keyed_fails.
Qed.
End Sorting.

Section Attributions.

Lemma index_found (l : list pystr) (x : pystr) (i : nat) :
  index l x = inr i -> l !! i = Some x.
Proof.
  revert i. induction l as [|y l IH]; intros i; cbn [index];
    [discriminate|].
  destruct (decide (y = x)) as [->|_]; [now intros [= <-]|].
  destruct (index l x) as [e|j]; [discriminate|].
  intros [= <-]. now apply IH.
Qed.

Lemma index_missing (l : list pystr) (x : pystr) (e : exn) :
  index l x = inl e -> e = OtherError "ValueError" /\ ~ In x l.
Proof.
  induction l as [|y l IH]; cbn [index].
  - intros [= <-]. split; [reflexivity|intros []].
  - destruct (decide (y = x)) as [->|Hne]; [discriminate|].
    destruct (index l x) as [e'|j]; [|discriminate].
    intros [= ->]. destruct (IH eq_refl) as [-> Hout].
    split; [reflexivity|]. now intros [?|?].
Qed.

Lemma index_of_member (l : list pystr) (x : pystr) :
  In x l -> exists i, index l x = inr i.
Proof.
  intros Hin. destruct (index l x) as [e|i] eqn:Hi; [|now exists i].
  now destruct (index_missing _ _ _ Hi).
Qed.

(** [sorted(attributions, key=ATTRIBUTION_ORDER.index(type))] returns
    the attributions it was given, those of an earlier type of
    ATTRIBUTION_ORDER first and those of one type in the order they came
    in; it raises ValueError exactly when a type is not in
    ATTRIBUTION_ORDER. *)
Theorem attributions_are_put_in_type_order (attrs : list Attribution) :
  match sorted attrs attribution_rank with
  | inr l =>
      Permutation l attrs
      /\ StronglySorted
           (fun a b => exists i j,
                ATTRIBUTION_ORDER !! i = Some (a_type a)
                /\ ATTRIBUTION_ORDER !! j = Some (a_type b) /\ i <= j) l
      /\ (forall ty,
            List.filter (fun a => bool_decide (a_type a = ty)) l
            = List.filter (fun a => bool_decide (a_type a = ty)) attrs)
      /\ (forall a, In a attrs -> In (a_type a) ATTRIBUTION_ORDER)
  | inl e =>
      e = OtherError "ValueError"
      /\ exists a, In a attrs /\ ~ In (a_type a) ATTRIBUTION_ORDER
  end.
Proof.
  destruct (sorted attrs attribution_rank) as [e|l] eqn:Hsorted.
  - apply sorted_fails in Hsorted as (a & Hin & Hfail).
    apply index_missing in Hfail as [-> Hout]. eauto.
  - pose proof (sorted_spec _ _ _ Hsorted) as (Hperm & Hordered & Hstable).
    assert (Hknown : forall a, In a attrs ->
                               exists i, attribution_rank a = inr i).
    { unfold sorted in Hsorted.
      destruct (keyed attribution_rank attrs) as [e|pairs] eqn:Hkeyed;
        [discriminate|].
      destruct (keyed_spec _ _ _ Hkeyed) as [Hitems Hkeys].
      intros a Hin. rewrite <- Hitems in Hin.
      apply in_map_iff in Hin as (p & <- & Hp).
      rewrite Forall_forall in Hkeys. exists (fst p). apply Hkeys.
      now apply list_elem_of_In. }
    assert (Hknown' : forall a, In a l ->
                                exists i, attribution_rank a = inr i).
    { intros a Hin. apply Hknown. apply list_elem_of_In.
      rewrite <- Hperm. now apply list_elem_of_In. }
    split; [exact Hperm|]. split; [|split].
    + clear -Hordered. induction Hordered as [|a l Hl IH Ha];
        constructor; [exact IH|].
      eapply Forall_impl; [exact Ha|]. cbv beta.
      intros b (i & j & Hi & Hj & Hle). exists i, j.
      split; [now apply index_found|]. split; [now apply index_found|].
      exact Hle.
    + intros ty.
      assert (Hsame : forall k (items : list Attribution),
                 index ATTRIBUTION_ORDER ty = inr k ->
                 (forall a, In a items ->
                            exists i, attribution_rank a = inr i) ->
                 List.filter (fun a => bool_decide (a_type a = ty)) items
                 = List.filter
                     (fun a => match attribution_rank a with
                               | inr i => (i =? k)%nat
                               | inl _ => false
                               end) items).
      { intros k items Hk Hitems. apply List.filter_ext_in. intros a Hin.
        destruct (Hitems a Hin) as (i & Hi). rewrite Hi.
        unfold attribution_rank in Hi.
        destruct (Nat.eqb_spec i k) as [->|Hne].
        - apply bool_decide_eq_true. apply index_found in Hi, Hk.
          congruence.
        - apply bool_decide_eq_false. intros Heq. congruence. }
      assert (Hnone : forall e (items : list Attribution),
                 index ATTRIBUTION_ORDER ty = inl e ->
                 (forall a, In a items ->
                            exists i, attribution_rank a = inr i) ->
                 List.filter (fun a => bool_decide (a_type a = ty)) items
                 = []).
      { intros e items He Hitems.
        induction items as [|a items IH]; [reflexivity|].
        cbn [List.filter]. destruct (Hitems a (or_introl eq_refl)) as (i & Hi).
        rewrite bool_decide_eq_false_2.
        - apply IH. intros; apply Hitems; now right.
        - intros Heq. unfold attribution_rank in Hi. congruence. }
      destruct (index ATTRIBUTION_ORDER ty) as [e|k] eqn:Hty.
      * now rewrite !(Hnone e).
      * now rewrite !(Hsame k), Hstable.
    + intros a Hin. destruct (Hknown a Hin) as (i & Hi).
      apply index_found in Hi. apply list_elem_of_In.
      eapply list_elem_of_lookup_2. exact Hi.
Qed.
End Attributions.

Section Names.

Lemma dict_keys_from (names keys : list pystr) :
  NoDup keys ->
  exists more,
    fold_left (fun keys name =>
                 if bool_decide (name ∈ keys) then keys else keys ++ [name])
              names keys = keys ++ more
    /\ NoDup (keys ++ more)
    /\ sublist more names
    /\ forall name, name ∈ names -> name ∈ keys ++ more.
Proof.
  revert keys. induction names as [|name names IH]; intros keys Hkeys;
    cbn [fold_left].
  - exists []. rewrite app_nil_r. repeat split; [exact Hkeys|constructor|].
    intros name Hin. now apply elem_of_nil in Hin.
  - destruct (bool_decide_reflect (name ∈ keys)) as [Hin|Hout].
    + destruct (IH keys Hkeys) as (more & -> & Hnodup & Hsub & Hall).
      exists more. repeat split; [exact Hnodup|now constructor|].
      intros name' [->|Hin']%elem_of_cons; [|now apply Hall].
      apply elem_of_app. now left.
    + destruct (IH (keys ++ [name])) as (more & -> & Hnodup & Hsub & Hall).
      { apply NoDup_app. repeat split; [exact Hkeys| |apply NoDup_singleton].
        intros x Hx ->%list_elem_of_singleton. contradiction. }
      exists (name :: more). rewrite <- app_assoc in *. cbn [app] in *.
      repeat split; [exact Hnodup|now constructor|].
      intros name' [->|Hin']%elem_of_cons; [|now apply Hall].
      apply elem_of_app. right. now left.
Qed.

Lemma dict_keys_spec (names : list pystr) :
  NoDup (dict_keys names)
  /\ sublist (dict_keys names) names
  /\ forall name, name ∈ dict_keys names <-> name ∈ names.
Proof.
  destruct (dict_keys_from names [] (NoDup_nil_2 (A:=pystr)))
    as (more & Hkeys & Hnodup & Hsub & Hall).
  unfold dict_keys. rewrite Hkeys. cbn [app] in *.
  repeat split; [exact Hnodup|exact Hsub| |apply Hall].
  intros Hin. eapply elem_of_sublist; [exact Hin|exact Hsub].
Qed.

(** The names after "by": each name once, in the order of the sorted
    attributions.  Outside a translation they are the names of all the
    attributions; in a translation they are the translators' names when
    there is a translator, and everybody's when there is none. *)
Theorem names_after_by_are_distinct (is_translation : bool)
    (attrs : list Attribution) :
  let names := attribution_names is_translation attrs in
  let translators :=
    List.filter (fun a => bool_decide (a_type a = py "TRANSLATOR")) attrs in
  NoDup names
  /\ sublist names (map a_user attrs)
  /\ forall name,
       name ∈ names <->
       name ∈ map a_user (if is_translation
                          then match translators with
                               | [] => attrs
                               | _ :: _ => translators
                               end
                          else attrs).
Proof.
  intros names translators. subst names. unfold attribution_names.
  fold translators.
  pose proof (dict_keys_spec (map a_user attrs)) as (Hd & Hs & Hm).
  pose proof (dict_keys_spec (map a_user translators)) as (Hd' & Hs' & Hm').
  assert (Hsub : sublist (map a_user translators) (map a_user attrs)).
  { subst translators. clear.
    induction attrs as [|a attrs IH]; cbn [List.filter map]; [constructor|].
    destruct (bool_decide _); cbn [map];
      [apply sublist_skip|apply sublist_cons]; exact IH. }
  destruct is_translation; [|now repeat split; try apply Hm].
  destruct translators as [|a translators'] eqn:Htr.
  - cbn [map dict_keys fold_left]. repeat split; try apply Hm; assumption.
  - destruct (dict_keys (map a_user (a :: translators'))) as [|n ns] eqn:Hk.
    + exfalso. assert (Hin : a_user a ∈ @nil pystr)
        by (apply Hm'; cbn [map]; now left).
      now apply elem_of_nil in Hin.
    + repeat split; try apply Hm'; [assumption|].
      now transitivity (map a_user (a :: translators')).
Qed.
End Names.

Section Pages.
Variable u : Unicode.
Variable env : Env.

Lemma find_spec {A} (f : A -> bool) (l : list A) :
  match find f l with
  | Some x => exists before after,
        l = before ++ x :: after /\ f x = true
        /\ forall y, In y before -> f y = false
  | None => forall y, In y l -> f y = false
  end.
Proof.
  induction l as [|a l IH]; cbn [find]; [now intros ?|].
  destruct (f a) eqn:Hfa.
  - exists [], l. repeat split; [exact Hfa|now intros ?].
  - destruct (find f l) as [x|].
    + destruct IH as (before & after & -> & Hx & Hbefore).
      exists (a :: before), after. repeat split; [exact Hx|].
      intros y [<-|Hy]; [exact Hfa|now apply Hbefore].
    + intros y [<-|Hy]; [exact Hfa|now apply IH].
Qed.

Lemma inner_call_calls_nothing (r1 r2 : Page -> Clock pystr) (page : Page)
    (as_list_item is_submission_url is_translation : bool) :
  page_response_with u env r1 page None as_list_item is_submission_url
                     is_translation
  = page_response_with u env r2 page None as_list_item is_submission_url
                       is_translation.
Proof. reflexivity. Qed.

(** The translation that is shown is the first matching page on
    scp-wiki.wikidot.com, or without one the first on scp-int.wikidot.com;
    the page's response is then its own response with, before the final
    newline, a new line "Translated: " and the translation's response as
    a translation.  A page of scp-wiki.wikidot.com, or one without such a
    matching page, gets its own response only. *)
Theorem translation_line_follows_the_page (page : Page)
    (pages : list Page)
    (as_list_item is_submission_url is_translation : bool) (n : nat) :
  match english_translation env pages with
  | Some t =>
      exists before after,
        pages = before ++ t :: after
        /\ (netloc env (url t) = py "scp-wiki.wikidot.com"
            /\ (forall p, In p before ->
                           netloc env (url p) <> py "scp-wiki.wikidot.com")
            \/ netloc env (url t) = py "scp-int.wikidot.com"
               /\ (forall p, In p before ->
                              netloc env (url p) <> py "scp-int.wikidot.com")
               /\ forall p, In p pages ->
                             netloc env (url p) <> py "scp-wiki.wikidot.com")
  | None =>
      forall p, In p pages ->
                netloc env (url p) <> py "scp-wiki.wikidot.com"
                /\ netloc env (url p) <> py "scp-int.wikidot.com"
  end
  /\ _generate_page_response u env page (Some pages) as_list_item
                             is_submission_url is_translation n
     = match _generate_page_response u env page None as_list_item
                                     is_submission_url is_translation n with
       | (inl e, n1) => (inl e, n1)
       | (inr own, n1) =>
           match english_translation env pages with
           | Some t =>
               if bool_decide (netloc env (url page)
                               = py "scp-wiki.wikidot.com")
               then (inr own, n1)
               else
                 match _generate_page_response u env t None false false true
                                               n1 with
                 | (inl e, n2) => (inl e, n2)
                 | (inr inner, n2) =>
                     (inr (removelast own ++ newline
                           ++ (if as_list_item then py "  - " else newline)
                           ++ py "Translated: " ++ inner ++ newline), n2)
                 end
           | None => (inr own, n1)
           end
       end.
Proof.
  split.
  - unfold english_translation.
    pose proof (find_spec (fun t => bool_decide
                             (netloc env (url t) = py "scp-wiki.wikidot.com"))
                          pages) as Hen.
    pose proof (find_spec (fun t => bool_decide
                             (netloc env (url t) = py "scp-int.wikidot.com"))
                          pages) as Hint.
    destruct (find _ pages) as [t|].
    + destruct Hen as (before & after & -> & Ht & Hbefore).
      exists before, after. split; [reflexivity|]. left.
      split; [now apply bool_decide_eq_true in Ht|].
      intros p Hp. apply (bool_decide_eq_false_1 _). now apply Hbefore.
    + destruct (find _ pages) as [t|].
      * destruct Hint as (before & after & Hpages & Ht & Hbefore).
        exists before, after. split; [exact Hpages|]. right.
        split; [now apply bool_decide_eq_true in Ht|]. split.
        -- intros p Hp. apply (bool_decide_eq_false_1 _).
           now apply Hbefore.
        -- intros p Hp. apply (bool_decide_eq_false_1 _). now apply Hen.
      * intros p Hp.
        split; apply (bool_decide_eq_false_1 _);
          [now apply Hen|now apply Hint].
  - unfold _generate_page_response, translation_response.
    unfold page_response_with, bind, ret, outcome, read_clock.
    cbv beta zeta.
    destruct (fromisoformat env _) as [e|created_at]; [reflexivity|].
    destruct (sorted _ _) as [e|sorted_attributions]; [reflexivity|].
    destruct (bool_decide (netloc env (url page) = _)); cbn [negb].
    + destruct sorted_attributions; [|destruct (_ <? _)%Z];
        now destruct (english_translation env pages).
    + destruct (english_translation env pages) as [t|].
      * destruct sorted_attributions; [|destruct (_ <? _)%Z];
          (destruct (fromisoformat env (removelast (createdAt t)));
           [reflexivity|]);
          (destruct (sorted (attributions t) _) as [?|ts]; [reflexivity|]);
          (destruct ts; [|destruct (_ <? _)%Z]);
          unfold newline; rewrite removelast_last;
          destruct as_list_item; do 2 f_equal;
          rewrite <- ?app_assoc; reflexivity.
      * destruct sorted_attributions; [|destruct (_ <? _)%Z]; reflexivity.
Qed.
Lemma returned {A} (a b : A) (n n' : nat) :
  (inr a : exn + A, n) = (inr b, n') -> a = b.
Proof. now intros [= -> _]. Qed.

Lemma page_response_shape (page : Page) (matching_pages : option (list Page))
    (as_list_item is_submission_url is_translation : bool)
    (n n' : nat) (text : pystr) :
  _generate_page_response u env page matching_pages as_list_item
                          is_submission_url is_translation n
  = (inr text, n') ->
  (exists rest,
      text = (if as_list_item then py "- " else []) ++ py "[**"
             ++ title page ++ rest)
  /\ last text = Some 10%N
  /\ (exists created_at,
        fromisoformat env (removelast (createdAt page)) = inr created_at)
  /\ forall a, In a (attributions page) ->
                In (a_type a) ATTRIBUTION_ORDER.
Proof.
  intros Hrun.
  pose proof (attributions_are_put_in_type_order (attributions page))
    as Hsorted.
  unfold _generate_page_response, page_response_with, bind, ret, outcome
    in Hrun.
  destruct (fromisoformat env _) as [e|created_at]; [discriminate|].
  destruct (sorted _ _) as [e|sorted_attributions]; [discriminate|].
  destruct Hsorted as (_ & _ & _ & Hknown).
  cbv zeta in Hrun.
  match type of Hrun with
  | (let '(r, s) := ?base n in _) = _ =>
      destruct (base n) as [[e|comment] n1] eqn:Hbase
  end; [discriminate|].
  assert (Hhead : exists rest,
             comment = (if as_list_item then py "- " else []) ++ py "[**"
                       ++ title page ++ rest).
  { destruct sorted_attributions as [|a l].
    - apply returned in Hbase as <-.
      destruct (Bot.truthy _ && _), (negb is_submission_url);
        rewrite <- ?app_assoc; eauto.
    - unfold read_clock in Hbase.
      destruct (_ <? _)%Z; apply returned in Hbase as <-;
        destruct (Bot.truthy _ && _), (negb is_submission_url);
        rewrite <- ?app_assoc; eauto. }
  clear Hbase. destruct Hhead as (rest & ->).
  assert (Htext : exists more,
             text = ((if as_list_item then py "- " else []) ++ py "[**"
                     ++ title page ++ rest ++ more) ++ newline).
  { destruct matching_pages as [pages|].
    - destruct (negb _).
      + destruct (english_translation env pages) as [t|].
        * destruct (translation_response u env t n1) as [[e|inner] n2];
            [discriminate|].
          apply returned in Hrun as <-.
          exists (newline ++ (if as_list_item then py "  - " else newline)
                  ++ py "Translated: " ++ inner).
          destruct as_list_item; rewrite <- !app_assoc; reflexivity.
        * apply returned in Hrun as <-. exists []. now rewrite !app_nil_r.
      + apply returned in Hrun as <-. exists []. now rewrite !app_nil_r.
    - apply returned in Hrun as <-. exists []. now rewrite !app_nil_r. }
  destruct Htext as (more & ->).
  split; [|split; [|split]].
  - rewrite <- !app_assoc. eauto.
  - apply last_snoc.
  - eauto.
  - exact Hknown.
Qed.

Lemma user_response_shape (who : User) (as_list_item : bool) (text : pystr) :
  _generate_user_response u who as_list_item = inr text ->
  (exists rest,
      text = (if as_list_item then py "- " else []) ++ py "**" ++ rest)
  /\ last text = Some 10%N
  /\ userPage who <> NullUserPage.
Proof.
  unfold _generate_user_response, user_page_url.
  destruct (userPage who) as [| |page_url] eqn:Hpage; [|discriminate|];
    intros [= <-]; (split; [|split; [apply last_snoc|discriminate]]);
    cbv zeta; try destruct (Bot.truthy page_url);
    rewrite <- ?app_assoc; eauto.
Qed.

Lemma response_loop_blocks (submission_url : option pystr)
    (as_list_item : bool) (results : list result) :
  forall (comment : pystr) (n n' : nat) (text : pystr),
    response_loop u env submission_url as_list_item comment results n
    = (inr text, n') ->
    exists blocks,
      text = comment ++ concat blocks
      /\ Forall2 (fun r block =>
                    exists n1 n2,
                      response_block u env submission_url as_list_item r n1
                      = (inr block, n2))
                 results blocks.
Proof.
  induction results as [|r results IH]; intros comment n n' text;
    cbn [response_loop].
  - intros [= <- _]. exists []. cbn [concat]. rewrite app_nil_r.
    split; [reflexivity|constructor].
  - unfold bind at 1.
    destruct (response_block u env submission_url as_list_item r n)
      as [[e|block] n1] eqn:Hblock; [discriminate|].
    intros Hrest. destruct (IH _ _ _ _ Hrest) as (blocks & -> & Hblocks).
    exists (block :: blocks). cbn [concat]. rewrite app_assoc.
    split; [reflexivity|]. constructor; [eauto|exact Hblocks].
Qed.

(** The long form is the header of a submission, if it is one, followed
    by one block for each result in order.  The block of a page starts
    with the title in a bold link and that of a user with the bold name,
    each after a list marker exactly when there is more than one result,
    and each ends with a newline; a result with neither a page nor a user
    adds nothing. *)
Theorem long_form_is_one_block_per_result (results : list result)
    (is_submission : bool) (submission_url : option pystr) (n n' : nat)
    (text : pystr) :
  (length results <= 10 \/ is_submission = true) ->
  generate_response u env results is_submission submission_url n
  = (inr text, n') ->
  let marker := if (1 <? length results)%nat then py "- " else [] in
  exists blocks,
    text = (if is_submission then submission_header else [])
           ++ concat blocks
    /\ Forall2 (fun r block =>
                  match wikidot_page r, user r with
                  | Some (Some page), _ =>
                      (exists rest,
                          block = marker ++ py "[**" ++ title page ++ rest)
                      /\ last block = Some 10%N
                  | Some None, _ => False
                  | None, Some who =>
                      (exists rest, block = marker ++ py "**" ++ rest)
                      /\ last block = Some 10%N
                  | None, None => block = []
                  end)
               results blocks.
Proof.
  intros Hlong Hrun marker. unfold generate_response in Hrun.
  replace ((10 <? length results)%nat && negb is_submission) with false
    in Hrun.
  2:{ destruct Hlong as [Hfew| ->]; [|now rewrite andb_false_r].
      apply Nat.ltb_ge in Hfew. now rewrite Hfew. }
  cbv zeta in Hrun.
  apply response_loop_blocks in Hrun as (blocks & -> & Hblocks).
  exists blocks. split; [reflexivity|].
  eapply Forall2_impl; [exact Hblocks|]. cbv beta.
  intros r block (n1 & n2 & Hblock). unfold response_block in Hblock.
  destruct (wikidot_page r) as [[page|]|].
  - apply page_response_shape in Hblock as (Hhead & Hlast & _).
    split; assumption.
  - discriminate.
  - destruct (user r) as [who|].
    + unfold outcome in Hblock. injection Hblock as Hblock _.
      apply user_response_shape in Hblock as (Hhead & Hlast & _).
      split; assumption.
    + now injection Hblock as <- _.
Qed.

(** A response is returned only for well-formed results: no result has a
    null page, and none without a page has a user with a null user page;
    in the long form the creation time of every page is read by
    [fromisoformat] and every attribution type is in ATTRIBUTION_ORDER.
    Anything else raises. *)
Theorem a_response_needs_well_formed_results (results : list result)
    (is_submission : bool) (submission_url : option pystr) (n n' : nat)
    (text : pystr) :
  generate_response u env results is_submission submission_url n
  = (inr text, n') ->
  forall r, In r results ->
    match wikidot_page r, user r with
    | Some (Some page), _ =>
        (10 <? length results)%nat && negb is_submission = false ->
        (exists created_at,
            fromisoformat env (removelast (createdAt page))
            = inr created_at)
        /\ forall a, In a (attributions page) ->
                      In (a_type a) ATTRIBUTION_ORDER
    | Some None, _ => False
    | None, Some who => userPage who <> NullUserPage
    | None, None => True
    end.
Proof.
  unfold generate_response.
  destruct ((10 <? length results)%nat && negb is_submission).
  - unfold outcome, _format_short. intros Hrun r Hin.
    destruct (short_parts u [] results) as [e|parts] eqn:Hparts;
      [discriminate|].
    clear Hrun. revert Hparts. generalize (@nil pystr).
    induction results as [|r' results IH]; [destruct Hin|].
    intros acc. cbn [short_parts].
    destruct (short_part u r') as [e|new] eqn:Hpart; [discriminate|].
    intros Hparts. destruct Hin as [->|Hin]; [|now apply (IH Hin _ Hparts)].
    clear IH Hparts. unfold short_part, user_page_url in Hpart.
    destruct (wikidot_page r) as [[page|]|];
      [discriminate|discriminate|].
    destruct (user r) as [who|]; [|exact I].
    now destruct (userPage who).
  - cbv zeta. intros Hrun r Hin.
    apply response_loop_blocks in Hrun as (blocks & _ & Hblocks).
    apply list_elem_of_In in Hin.
    apply list_elem_of_lookup in Hin as (i & Hi).
    destruct (Forall2_lookup_l _ _ _ _ _ Hblocks Hi)
      as (block & _ & n1 & n2 & Hblock).
    unfold response_block in Hblock.
    destruct (wikidot_page r) as [[page|]|].
    + intros _. now apply page_response_shape in Hblock as (_ & _ & ? & ?).
    + discriminate.
    + destruct (user r) as [who|]; [|exact I].
      unfold outcome in Hblock. injection Hblock as Hblock _.
      now apply user_response_shape in Hblock as (_ & _ & ?).
Qed.
End Pages.

Section Witnesses.
Import Fixtures ResponseFixtures.

Lemma long_form_is_one_block_per_result_witness :
  let results := [page_result scp_173; user_result djkaktus] in
  let text :=
    py "- [**SCP-173**](https://scp-wiki.wikidot.com/scp-173) (+500) by *Moto42*"
    ++ newline
    ++ py "- **[djkaktus](https://scp-wiki.wikidot.com/djkaktus)** (*ranked #1, total rating: +50000, mean rating: +100)*"
    ++ newline in
  generate_response ascii_only still_env results false None 0 = (inr text, 1)
  /\ exists blocks,
      text = [] ++ concat blocks
      /\ Forall2 (fun r block =>
                    match wikidot_page r, user r with
                    | Some (Some page), _ =>
                        (exists rest,
                            block = py "- " ++ py "[**" ++ title page ++ rest)
                        /\ last block = Some 10%N
                    | Some None, _ => False
                    | None, Some who =>
                        (exists rest, block = py "- " ++ py "**" ++ rest)
                        /\ last block = Some 10%N
                    | None, None => block = []
                    end)
                 results blocks.
Proof.
  intros results text. split; [vm_compute; reflexivity|].
  apply (long_form_is_one_block_per_result ascii_only still_env results
           false None 0 1 text).
  - left. cbn. lia.
  - vm_compute. reflexivity.
Defined.

Lemma a_response_needs_well_formed_results_witness :
  let results := [page_result scp_173; user_result djkaktus] in
  let text :=
    py "- [**SCP-173**](https://scp-wiki.wikidot.com/scp-173) (+500) by *Moto42*"
    ++ newline
    ++ py "- **[djkaktus](https://scp-wiki.wikidot.com/djkaktus)** (*ranked #1, total rating: +50000, mean rating: +100)*"
    ++ newline in
  generate_response ascii_only still_env results false None 0 = (inr text, 1)
  /\ ((exists created_at,
          fromisoformat still_env (removelast (createdAt scp_173))
          = inr created_at)
      /\ forall a, In a (attributions scp_173) ->
                    In (a_type a) ATTRIBUTION_ORDER)
  /\ userPage djkaktus <> NullUserPage.
Proof.
  intros results text.
  assert (Hrun : generate_response ascii_only still_env results false None 0
                 = (inr text, 1)) by (vm_compute; reflexivity).
  split; [exact Hrun|]. split.
  - exact (a_response_needs_well_formed_results ascii_only still_env results
             false None 0 1 text Hrun (page_result scp_173)
             (or_introl eq_refl) eq_refl).
  - exact (a_response_needs_well_formed_results ascii_only still_env results
             false None 0 1 text Hrun (user_result djkaktus)
             (or_intror (or_introl eq_refl))).
Defined.
End Witnesses.

End ResponseExtra.

(* ===================================================================== *)
(** ** bot.py: what a revisit does to the dicts *)
(* ===================================================================== *)

Module RevisitExtra.
Import Py Eff Parse Search Bot Revisit.

Section Dicts.
Context {V : Type}.

Lemma del_middle (k : pystr) (v : V) (before after : ordered_dict V) :
  NoDup (map fst (before ++ (k, v) :: after)) ->
  del k (before ++ (k, v) :: after) = inr (before ++ after).
Proof.
  intros Hkeys. unfold del. rewrite bool_decide_eq_true_2.
  2:{ rewrite map_app. cbn [map fst]. apply elem_of_app. right. now left. }
  f_equal. rewrite map_app in Hkeys. cbn [map fst] in Hkeys.
  apply NoDup_app in Hkeys as (_ & Hapart & Hafter).
  apply NoDup_cons in Hafter as [Hafter _].
  assert (Hkeep : forall d : ordered_dict V,
             k ∉ map fst d ->
             List.filter (fun kv => negb (bool_decide (fst kv = k))) d = d).
  { induction d as [|[k' v'] d IH]; [reflexivity|]. cbn [map fst].
    intros Hout. apply not_elem_of_cons in Hout as [Hne Hout].
    cbn [List.filter fst]. rewrite bool_decide_eq_false_2 by congruence.
    cbn [negb]. now rewrite IH. }
  rewrite List.filter_app. cbn [List.filter fst].
  rewrite bool_decide_eq_true_2 by reflexivity. cbn [negb].
  rewrite !Hkeep; [reflexivity|exact Hafter|].
  intros Hin. apply (Hapart k Hin). now left.
Qed.
End Dicts.

Section Loop.
Context {Item Fresh : Type}.
Variable item_id : Item -> pystr.
Variable item_created_utc : Item -> Z.
Variable item_text : Item -> pystr.
Variable item_permalink : Item -> pystr.
Variable gone : Fresh -> bool.
Variable fresh_text : Fresh -> pystr.
Variable what : pystr.
Variable reddit : Reddit Fresh.

Local Notation Entry := (@Entry Item).
Local Notation Revisits := (list (Fresh * list SearchQuery * Reply)).

Local Notation old cutoff_time :=
  (fun entry : Entry =>
     (fromtimestamp reddit (item_created_utc (fst (fst entry)))
      <? cutoff_time)%Z).

(** What an old entry adds to the calls and to the result, once its
    item has been fetched. *)
Local Notation calls_of :=
  (fun (entry : Entry) (updated : Fresh) =>
     Fetch (item_id (fst (fst entry)))
     :: (if gone updated then [Delete (snd entry)]
         else if negb (bool_decide
                         (fresh_text updated = item_text (fst (fst entry))))
              then [LogUpdated what (item_permalink (fst (fst entry)))]
              else [])).

Local Notation revisits_of :=
  (fun (entry : Entry) (updated : Fresh) =>
     if gone updated then []
     else if negb (bool_decide
                     (fresh_text updated = item_text (fst (fst entry))))
          then [(updated, snd (fst entry), snd entry)]
          else []).

Local Notation loop := (revisit_loop item_id item_created_utc item_text
                          item_permalink gone fresh_text what reddit).

Lemma loop_returns (cutoff_time : Z) (todo : ordered_dict Entry) :
  forall (kept : ordered_dict Entry) (revisits : Revisits)
         (v v' : Visit Entry) (result : Revisits),
    replied v = kept ++ todo ->
    NoDup (map fst (kept ++ todo)) ->
    Forall (fun kv => fst kv = item_id (fst (fst (snd kv)))) todo ->
    loop cutoff_time revisits (values todo) v = (inr result, v') ->
    replied v'
    = kept ++ List.filter (fun kv => negb (old cutoff_time (snd kv))) todo
    /\ exists updates : list Fresh,
        Forall2 (fun entry updated =>
                   exists history,
                     fetch reddit history (item_id (fst (fst entry)))
                     = inr updated
                     /\ (gone updated = true ->
                         delete reddit (history
                                        ++ [Fetch (item_id (fst (fst entry)))])
                                (snd entry) = inr tt))
                (List.filter (old cutoff_time) (values todo)) updates
        /\ result
           = revisits
             ++ concat (zip_with revisits_of
                          (List.filter (old cutoff_time) (values todo))
                          updates)
        /\ calls v'
           = calls v
             ++ concat (zip_with calls_of
                          (List.filter (old cutoff_time) (values todo))
                          updates).
Proof.
  induction todo as [|[k [[item search_queries] reply]] todo IH];
    intros kept revisits v v' result Hreplied Hkeys Hkeyed.
  - cbn [values map revisit_loop]. intros [= <- <-]. rewrite Hreplied.
    split; [reflexivity|]. exists [].
    cbn [List.filter zip_with concat]. rewrite !app_nil_r.
    repeat split. constructor.
  - apply Forall_cons in Hkeyed as [Hk Hkeyed]. cbn [fst snd] in Hk.
    subst k. cbn [values map snd revisit_loop]. fold (values todo).
    unfold bind at 1. unfold revisit_entry.
    cbn [List.filter fst snd].
    destruct (fromtimestamp reddit (item_created_utc item) <? cutoff_time)%Z
      eqn:Hold; cbn [negb].
    + unfold bind at 1, del_replied at 1. rewrite Hreplied.
      rewrite (del_middle _ _ _ _ Hkeys).
      unfold bind at 1, fetch_updated at 1. cbn [calls replied].
      destruct (fetch reddit (calls v) (item_id item)) as [e|updated]
        eqn:Hfetch; [discriminate|].
      assert (Hkeys' : NoDup (map fst (kept ++ todo))).
      { rewrite map_app in *. cbn [map] in Hkeys.
        apply NoDup_app in Hkeys as (Hkept & Hapart & Htodo).
        apply NoDup_cons in Htodo as [_ Htodo].
        apply NoDup_app. repeat split; [exact Hkept| |exact Htodo].
        intros x Hx Hin. apply (Hapart x Hx). now right. }
      destruct (gone updated) eqn:Hgone.
      * unfold bind at 1, delete_reply at 1. cbn [calls replied].
        destruct (delete reddit (calls v ++ [Fetch (item_id item)]) reply)
          as [e|[]] eqn:Hdelete; [discriminate|].
        unfold ret at 1. intros Hrun.
        eapply IH in Hrun; [|reflexivity|exact Hkeys'|exact Hkeyed].
        destruct Hrun as (Hreplied' & updates & Hupdates & Hresult & Hcalls).
        split; [exact Hreplied'|]. exists (updated :: updates).
        cbn [zip_with concat fst snd]. rewrite Hgone.
        split; [|split].
        -- constructor; [|exact Hupdates]. exists (calls v).
           cbn [fst snd]. split; [exact Hfetch|]. intros _. exact Hdelete.
        -- exact Hresult.
        -- rewrite Hcalls. cbn [calls]. now rewrite <- !app_assoc.
      * destruct (negb (bool_decide (fresh_text updated = item_text item)))
          eqn:Hedited.
        -- unfold bind at 1, made at 1, modify at 1. cbn [calls replied].
           unfold ret at 1. intros Hrun.
           eapply IH in Hrun; [|reflexivity|exact Hkeys'|exact Hkeyed].
           destruct Hrun
             as (Hreplied' & updates & Hupdates & Hresult & Hcalls).
           split; [exact Hreplied'|]. exists (updated :: updates).
           cbn [zip_with concat fst snd]. rewrite Hgone, Hedited.
           split; [|split].
           ++ constructor; [|exact Hupdates]. exists (calls v).
              cbn [fst snd]. split; [exact Hfetch|]. congruence.
           ++ rewrite Hresult. now rewrite <- !app_assoc.
           ++ rewrite Hcalls. cbn [calls]. now rewrite <- !app_assoc.
        -- unfold ret at 1. intros Hrun.
           eapply IH in Hrun; [|reflexivity|exact Hkeys'|exact Hkeyed].
           destruct Hrun
             as (Hreplied' & updates & Hupdates & Hresult & Hcalls).
           split; [exact Hreplied'|]. exists (updated :: updates).
           cbn [zip_with concat fst snd]. rewrite Hgone, Hedited.
           split; [|split].
           ++ constructor; [|exact Hupdates]. exists (calls v).
              cbn [fst snd]. split; [exact Hfetch|]. congruence.
           ++ exact Hresult.
           ++ rewrite Hcalls. cbn [calls app]. now rewrite <- !app_assoc.
    + unfold ret at 1. intros Hrun.
      destruct (IH (kept ++ [(item_id item, (item, search_queries, reply))])
                   revisits v v' result)
        as (Hreplied' & updates & Hupdates & Hresult & Hcalls).
      * now rewrite <- app_assoc.
      * now rewrite <- app_assoc.
      * exact Hkeyed.
      * exact Hrun.
      * split; [now rewrite Hreplied', <- app_assoc|]. now exists updates.
Qed.

Lemma loop_raises (cutoff_time : Z) (todo : ordered_dict Entry) :
  forall (kept : ordered_dict Entry) (revisits : Revisits)
         (v v' : Visit Entry) (e : exn),
    replied v = kept ++ todo ->
    NoDup (map fst (kept ++ todo)) ->
    Forall (fun kv => fst kv = item_id (fst (fst (snd kv)))) todo ->
    loop cutoff_time revisits (values todo) v = (inl e, v') ->
    exists before k entry after history,
      todo = before ++ (k, entry) :: after
      /\ old cutoff_time entry = true
      /\ replied v'
         = kept
           ++ List.filter (fun kv => negb (old cutoff_time (snd kv))) before
           ++ after
      /\ (calls v' = history ++ [Fetch (item_id (fst (fst entry)))]
          /\ fetch reddit history (item_id (fst (fst entry))) = inl e
          \/ calls v' = history ++ [Delete (snd entry)]
             /\ delete reddit history (snd entry) = inl e).
Proof.
  induction todo as [|[k [[item search_queries] reply]] todo IH];
    intros kept revisits v v' e Hreplied Hkeys Hkeyed.
  - cbn [values map revisit_loop]. discriminate.
  - apply Forall_cons in Hkeyed as [Hk Hkeyed]. cbn [fst snd] in Hk.
    subst k. cbn [values map snd revisit_loop]. fold (values todo).
    unfold bind at 1. unfold revisit_entry.
    destruct (fromtimestamp reddit (item_created_utc item) <? cutoff_time)%Z
      eqn:Hold.
    + unfold bind at 1, del_replied at 1. rewrite Hreplied.
      rewrite (del_middle _ _ _ _ Hkeys).
      unfold bind at 1, fetch_updated at 1. cbn [calls replied].
      assert (Hkeys' : NoDup (map fst (kept ++ todo))).
      { rewrite map_app in *. cbn [map] in Hkeys.
        apply NoDup_app in Hkeys as (Hkept & Hapart & Htodo).
        apply NoDup_cons in Htodo as [_ Htodo].
        apply NoDup_app. repeat split; [exact Hkept| |exact Htodo].
        intros x Hx Hin. apply (Hapart x Hx). now right. }
      assert (Hlater : forall revisits' (v1 : Visit Entry),
                 replied v1 = kept ++ todo ->
                 loop cutoff_time revisits' (values todo) v1 = (inl e, v') ->
                 exists before k entry after history,
                   (item_id item, (item, search_queries, reply)) :: todo
                   = before ++ (k, entry) :: after
                   /\ old cutoff_time entry = true
                   /\ replied v'
                      = kept
                        ++ List.filter
                             (fun kv => negb (old cutoff_time (snd kv)))
                             before
                        ++ after
                   /\ (calls v'
                       = history ++ [Fetch (item_id (fst (fst entry)))]
                       /\ fetch reddit history (item_id (fst (fst entry)))
                          = inl e
                       \/ calls v' = history ++ [Delete (snd entry)]
                          /\ delete reddit history (snd entry) = inl e)).
      { intros revisits' v1 Hv1 Hrun.
        destruct (IH kept revisits' v1 v' e Hv1 Hkeys' Hkeyed Hrun)
          as (before & k & entry & after & history & -> & Hentry & Hreplied'
              & Hlast).
        exists ((item_id item, (item, search_queries, reply)) :: before),
               k, entry, after, history.
        cbn [List.filter fst snd]. rewrite Hold. cbn [negb].
        repeat split; assumption. }
      destruct (fetch reddit (calls v) (item_id item)) as [e'|updated]
        eqn:Hfetch.
      * intros [= <- <-].
        exists [], (item_id item), (item, search_queries, reply), todo,
               (calls v).
        cbn [List.filter app fst snd calls replied].
        repeat split; [exact Hold|]. left. now split.
      * destruct (gone updated) eqn:Hgone.
        -- unfold bind at 1, delete_reply at 1. cbn [calls replied].
           destruct (delete reddit (calls v ++ [Fetch (item_id item)]) reply)
             as [e'|[]] eqn:Hdelete.
           ++ intros [= <- <-].
              exists [], (item_id item), (item, search_queries, reply), todo,
                     (calls v ++ [Fetch (item_id item)]).
              cbn [List.filter app fst snd calls replied].
              repeat split; [exact Hold|]. right. now split.
           ++ unfold ret at 1. now apply Hlater.
        -- destruct (negb (bool_decide (fresh_text updated = item_text item))).
           ++ unfold bind at 1, made at 1, modify at 1. cbn [calls replied].
              unfold ret at 1. now apply Hlater.
           ++ unfold ret at 1. now apply Hlater.
    + unfold ret at 1. intros Hrun.
      destruct (IH (kept ++ [(item_id item, (item, search_queries, reply))])
                   revisits v v' e)
        as (before & k & entry & after & history & -> & Hentry & Hreplied'
            & Hlast).
      * now rewrite <- app_assoc.
      * now rewrite <- app_assoc.
      * exact Hkeyed.
      * exact Hrun.
      * exists ((item_id item, (item, search_queries, reply)) :: before),
               k, entry, after, history.
        cbn [List.filter fst snd]. rewrite Hold. cbn [negb].
        rewrite Hreplied', <- !app_assoc. cbn [app].
        repeat split; assumption.
Qed.
Lemma keyed_sublist (d d' : ordered_dict Entry) :
  sublist d' d -> keyed_by_id item_id d -> keyed_by_id item_id d'.
Proof.
  intros Hsub [Hkeys Hkeyed]. split.
  - apply (sublist_NoDup _ (map fst d)); [exact Hkeys|].
    now apply (fmap_sublist fst).
  - rewrite Forall_forall in *. intros kv Hin. apply Hkeyed.
    eapply elem_of_sublist; [exact Hin|exact Hsub].
Qed.

Lemma filter_is_sublist {A} (f : A -> bool) (l : list A) :
  sublist (List.filter f l) l.
Proof.
  induction l as [|a l IH]; cbn [List.filter]; [constructor|].
  destruct (f a); [apply sublist_skip|apply sublist_cons]; exact IH.
Qed.

(** When a revisit returns, the dict has lost exactly the entries older
    than the revisit age and kept the others in their order; every key
    is still the id of its item.  Reddit was asked for each old entry
    once, in the order of the dict, and for no other; the reply of an
    old entry was deleted exactly when the fetched item was gone, and the
    entry is returned, with the fetched item in the place of the stored
    one, exactly when it was not gone and its text differs from the
    stored text. *)
Theorem a_revisit_takes_the_old_entries_off (revisit_age : Z)
    (v v' : Visit Entry) (result : Revisits) :
  keyed_by_id item_id (replied v) ->
  check_revisit item_id item_created_utc item_text item_permalink gone
                fresh_text what reddit revisit_age v
  = (inr result, v') ->
  let cutoff_time := (now reddit (calls v) - revisit_age)%Z in
  let old_entries := List.filter (old cutoff_time) (values (replied v)) in
  replied v'
  = List.filter (fun kv => negb (old cutoff_time (snd kv))) (replied v)
  /\ keyed_by_id item_id (replied v')
  /\ exists updates : list Fresh,
      Forall2 (fun entry updated =>
                 exists history,
                   fetch reddit history (item_id (fst (fst entry)))
                   = inr updated
                   /\ (gone updated = true ->
                       delete reddit (history
                                      ++ [Fetch (item_id (fst (fst entry)))])
                              (snd entry) = inr tt))
              old_entries updates
      /\ result = concat (zip_with revisits_of old_entries updates)
      /\ calls v' = calls v ++ concat (zip_with calls_of old_entries updates).
Proof.
  intros [Hkeys Hkeyed] Hrun cutoff_time old_entries.
  unfold check_revisit, bind, get in Hrun.
  destruct (loop_returns cutoff_time (replied v) [] [] v v' result eq_refl
              Hkeys Hkeyed Hrun)
    as (Hreplied & updates & Hupdates & Hresult & Hcalls).
  cbn [app] in Hreplied, Hresult.
  split; [exact Hreplied|]. split; [|now exists updates].
  rewrite Hreplied. eapply keyed_sublist; [apply filter_is_sublist|].
  now split.
Qed.

(** When a revisit raises, the error is the one Reddit gave to the last
    call, the fetch or the deletion for an old entry.  That entry is no
    longer in the dict, nor is any old entry before it, whatever was
    found out about them; the entries after it are all still there. *)
Theorem a_failed_revisit_loses_its_entry (revisit_age : Z)
    (v v' : Visit Entry) (e : exn) :
  keyed_by_id item_id (replied v) ->
  check_revisit item_id item_created_utc item_text item_permalink gone
                fresh_text what reddit revisit_age v
  = (inl e, v') ->
  let cutoff_time := (now reddit (calls v) - revisit_age)%Z in
  exists before k entry after history,
    replied v = before ++ (k, entry) :: after
    /\ old cutoff_time entry = true
    /\ replied v'
       = List.filter (fun kv => negb (old cutoff_time (snd kv))) before
         ++ after
    /\ keyed_by_id item_id (replied v')
    /\ (calls v' = history ++ [Fetch (item_id (fst (fst entry)))]
        /\ fetch reddit history (item_id (fst (fst entry))) = inl e
        \/ calls v' = history ++ [Delete (snd entry)]
           /\ delete reddit history (snd entry) = inl e).
Proof.
  intros [Hkeys Hkeyed] Hrun cutoff_time.
  unfold check_revisit, bind, get in Hrun.
  destruct (loop_raises cutoff_time (replied v) [] [] v v' e eq_refl
              Hkeys Hkeyed Hrun)
    as (before & k & entry & after & history & Hsplit & Hold & Hreplied
        & Hlast).
  cbn [app] in Hreplied.
  exists before, k, entry, after, history.
  split; [exact Hsplit|]. split; [exact Hold|]. split; [exact Hreplied|].
  split; [|exact Hlast].
  rewrite Hreplied. eapply keyed_sublist; [|split; eassumption].
  rewrite Hsplit. apply sublist_app; [apply filter_is_sublist|].
  now apply sublist_cons.
Qed.
End Loop.

Section Caches.
Import BotProps BotExtra.
Variable host : Host.
Variable out : Outside.

Lemma keyed_with_the_same_dicts (w w' : World) :
  replied_text_submissions w' = replied_text_submissions w ->
  replied_comments w' = replied_comments w ->
  world_keyed_by_id w -> world_keyed_by_id w'.
Proof. unfold world_keyed_by_id. now intros -> ->. Qed.

Lemma keyed_after_search (qs : list SearchQuery) (e : event)
    (w w1 : World) (res : exn + list result) :
  run_search host out qs (add_event e w) = (res, w1) ->
  replied_text_submissions w1 = replied_text_submissions w
  /\ replied_comments w1 = replied_comments w.
Proof.
  intros Hrun. apply run_search_frame in Hrun as (_ & Hs & Hc & _).
  now rewrite Hs, Hc.
Qed.

(** The two dicts of [start_bot] start empty and are written only by
    [d[item.id] = (item, ...)]: after any run of [_process_submission] or
    [_process_comment] every key is still the id of the item stored under
    it, so a dict listed in any order is one a revisit can take its old
    entries off without a KeyError. *)
Theorem the_dicts_stay_keyed_by_id (w : World) :
  world_keyed_by_id w ->
  (forall submission start_time valid_netlocs previous_search_queries
          previous_reply r w',
      _process_submission host out submission start_time valid_netlocs
        previous_search_queries previous_reply w = (r, w') ->
      world_keyed_by_id w')
  /\ (forall comment kind start_time bot_accounts comment_subreddits
             previous_search_queries previous_reply r w',
        _process_comment host out comment kind start_time bot_accounts
          comment_subreddits previous_search_queries previous_reply w
        = (r, w') ->
        world_keyed_by_id w')
  /\ (forall d, lists d (replied_text_submissions w) -> keyed_by_id s_id d)
  /\ (forall d, lists d (replied_comments w) -> keyed_by_id c_id d).
Proof.
  intros Hkeyed. split; [|split; [|split]].
  - intros submission start_time valid_netlocs previous_search_queries
           previous_reply r w' Hrun.
    apply submission_run_cases in Hrun
      as [(_ & _ & ->)
         |[(e0 & _ & _ & ->)
          |(normalized_url & search_queries & _ & res & w1 & Hsearch
            & Hrest)]];
      [exact Hkeyed|exact Hkeyed|].
    apply keyed_after_search in Hsearch as [Hs Hc].
    assert (Hw1 : world_keyed_by_id w1)
      by now apply (keyed_with_the_same_dicts w).
    destruct Hrest
      as [(e & _ & _ & ->)
         |[(_ & _ & ->)
          |(results & _ & _
            & [(e & _ & ->)
              |[(previous & _ & _ & ->)
               |(text & reply & w6 & Hw6 & Hend)]])]];
      try exact Hw1.
    assert (Hkeyed6 : world_keyed_by_id w6).
    { destruct Hw6 as [(_ & _ & ->)|(_ & _ & ->)]; [|exact Hw1].
      destruct Hw1 as [Hsubs Hcoms]. split; [|exact Hcoms].
      intros k s qs rp. cbn [after_first_reply inc_counter add_event
        remember_submission replied_text_submissions].
      destruct (decide (k = s_id submission)) as [->|Hne].
      - rewrite lookup_insert_eq. now intros [= <- _ _].
      - rewrite lookup_insert_ne by congruence. apply Hsubs. }
    destruct Hend as [(_ & [->| ->])|(e & _ & _ & ->)]; exact Hkeyed6.
  - intros comment kind start_time bot_accounts comment_subreddits
           previous_search_queries previous_reply r w' Hrun.
    apply comment_run_cases in Hrun
      as [(_ & _ & ->)|(_ & res & w1 & Hsearch & Hrest)]; [exact Hkeyed|].
    apply keyed_after_search in Hsearch as [Hs Hc].
    assert (Hw1 : world_keyed_by_id w1)
      by now apply (keyed_with_the_same_dicts w).
    destruct Hrest
      as [(e & _ & _ & ->)
         |[(_ & _ & ->)
          |(results & _ & _
            & [(e & _ & ->)
              |[(previous & _ & _ & _ & ->)
               |[(text & reply & _ & _ & _ & ->)
                |(text & previous & _ & _ & _ & ->)]]])]];
      try exact Hw1.
    destruct Hw1 as [Hsubs Hcoms]. split; [exact Hsubs|].
    intros k c qs rp. cbn [inc_counter add_event remember_comment
      replied_comments].
    destruct (decide (k = c_id comment)) as [->|Hne].
    + rewrite lookup_insert_eq. now intros [= <- _ _].
    + rewrite lookup_insert_ne by congruence. apply Hcoms.
  - intros d [Hkeys Hd]. split; [exact Hkeys|]. apply Forall_forall.
    intros [k [[s qs] rp]] Hin. cbn [fst snd].
    apply list_elem_of_In, Hd in Hin. exact (proj1 Hkeyed _ _ _ _ Hin).
  - intros d [Hkeys Hd]. split; [exact Hkeys|]. apply Forall_forall.
    intros [k [[c qs] rp]] Hin. cbn [fst snd].
    apply list_elem_of_In, Hd in Hin. exact (proj2 Hkeyed _ _ _ _ Hin).
Qed.
End Caches.

Section Witnesses.
Import Fixtures RevisitFixtures.

Lemma the_dicts_stay_keyed_by_id_witness :
  let run :=
    _process_comment host0 (outside_with healthy_session (inr tt))
      (comment_with "c1" "What about SCP-173?") TComment 0 [] None None
      None empty_world in
  world_keyed_by_id empty_world
  /\ fst run = inr true
  /\ replied_comments (snd run) !! py "c1" <> None
  /\ world_keyed_by_id (snd run).
Proof.
  intros run.
  assert (Hempty : world_keyed_by_id empty_world).
  { split; intros k ? ? ?; cbn [empty_world replied_text_submissions
      replied_comments]; now rewrite lookup_empty. }
  split; [exact Hempty|].
  split; [vm_compute; reflexivity|].
  split; [vm_compute; discriminate|].
  exact (proj1 (proj2 (the_dicts_stay_keyed_by_id host0
                         (outside_with healthy_session (inr tt))
                         empty_world Hempty))
           (comment_with "c1" "What about SCP-173?") TComment 0%Z [] None
           None None (fst run) (snd run) (surjective_pairing run)).
Defined.

Lemma four_remembered_keyed : keyed_by_id c_id four_remembered.
Proof.
  split.
  - apply (bool_decide_unpack _). vm_compute. exact I.
  - repeat constructor.
Qed.

Lemma three_remembered_keyed : keyed_by_id c_id three_remembered.
Proof.
  split.
  - apply (bool_decide_unpack _). vm_compute. exact I.
  - repeat constructor.
Qed.

Lemma a_revisit_takes_the_old_entries_off_witness :
  let run := _check_revisit_comments later_reddit DEFAULT_REVISIT_AGE
               (visit_of four_remembered) in
  keyed_by_id c_id four_remembered
  /\ (exists edited,
        fst run = inr [(edited, [bare "173" (py "scp-wiki.wikidot.com")],
                        reply_for (py "edited") (py "Here is info"))])
  /\ replied (snd run) = [remembered_fresh]
  /\ keyed_by_id c_id (replied (snd run)).
Proof.
  intros run.
  assert (Hrun : exists edited,
             run = (inr [(edited, [bare "173" (py "scp-wiki.wikidot.com")],
                          reply_for (py "edited") (py "Here is info"))],
                    snd run)).
  { eexists. vm_compute. reflexivity. }
  destruct Hrun as (edited & Hrun).
  split; [exact four_remembered_keyed|].
  split; [exists edited; now rewrite Hrun|].
  destruct (a_revisit_takes_the_old_entries_off c_id c_created_utc c_body
              c_permalink comment_gone c_body (py "Comment") later_reddit
              DEFAULT_REVISIT_AGE (visit_of four_remembered) (snd run) _
              four_remembered_keyed Hrun)
    as (Hreplied & Hkeyed & _).
  split; [|exact Hkeyed]. refine (eq_trans Hreplied _).
  vm_compute. reflexivity.
Defined.

Lemma a_failed_revisit_loses_its_entry_witness :
  let run := _check_revisit_comments later_reddit DEFAULT_REVISIT_AGE
               (visit_of three_remembered) in
  let cutoff_time := (now later_reddit [] - DEFAULT_REVISIT_AGE)%Z in
  let failure := OtherError "ServerError" in
  keyed_by_id c_id three_remembered
  /\ fst run = inl failure
  /\ exists before k entry after history,
      three_remembered = before ++ (k, entry) :: after
      /\ (fromtimestamp later_reddit (c_created_utc (fst (fst entry)))
          <? cutoff_time)%Z = true
      /\ replied (snd run)
         = List.filter
             (fun kv =>
                negb (fromtimestamp later_reddit
                        (c_created_utc (fst (fst (snd kv))))
                      <? cutoff_time)%Z)
             before
           ++ after
      /\ keyed_by_id c_id (replied (snd run))
      /\ (calls (snd run) = history ++ [Fetch (c_id (fst (fst entry)))]
          /\ fetch later_reddit history (c_id (fst (fst entry)))
             = inl failure
          \/ calls (snd run) = history ++ [Delete (snd entry)]
             /\ delete later_reddit history (snd entry) = inl failure).
Proof.
  intros run cutoff_time failure.
  assert (Hrun : run = (inl failure, snd run)) by (vm_compute; reflexivity).
  split; [exact three_remembered_keyed|].
  split; [now rewrite Hrun|].
  exact (a_failed_revisit_loses_its_entry c_id c_created_utc c_body
           c_permalink comment_gone c_body (py "Comment") later_reddit
           DEFAULT_REVISIT_AGE (visit_of three_remembered) (snd run) failure
           three_remembered_keyed Hrun).
Defined.
End Witnesses.

End RevisitExtra.
